(** * FinTrack expense dashboard: a shallow embedding of the [App] component

    The source is [src/App.jsx], which the repository snapshot carries in
    [src/public/service-worker.js] after the service worker itself.  The
    development follows it top-down: JavaScript numbers and values, the
    string helpers the CSV importer relies on, the host functions the
    program calls (Date, JSON, locale formatting), and then the record store
    with its operations, importers and derived views.

    Numbers.  A JavaScript number is modelled as an exact rational, one of
    the two infinities, or NaN.  Arithmetic on finite values is exact: the
    binary rounding of IEEE-754 doubles and the sign of zero are outside
    this model, so a decimal literal such as [12.5] denotes the rational
    25/2 and no finite computation overflows.  A property that compares
    sums taken in different orders is therefore stated for whole amounts of
    bounded magnitude ([whole_amounts]), on which the additions of the
    source do not round either. *)

From Stdlib Require Import ZArith QArith Qabs Qminmax Qround.
From Stdlib Require Import String Ascii List Bool Permutation Lia.
From Stdlib Require Import DecimalString Sorted.
From Stdlib Require DecimalPos Qcanon.
From Stdlib Require Import Setoid Morphisms RelationClasses.
Import ListNotations.

Local Open Scope string_scope.
Local Open Scope list_scope.
Local Open Scope Z_scope.

(* ------------------------------------------------------------------ *)
(** ** Numbers *)

Module Num.

Inductive number : Type :=
| NaN
| Fin (q : Q)
| PInf
| NInf.

Definition of_Z (z : Z) : number := Fin (inject_Z z).

Definition finite (n : number) : Prop :=
  match n with Fin _ => True | _ => False end.

Definition finiteb (n : number) : bool :=
  match n with Fin _ => true | _ => false end.

(** The value of a finite number; 0 on the others. *)
Definition qval (n : number) : Q :=
  match n with Fin q => q | _ => 0%Q end.

(** Two model terms denote the same number. *)
Definition eq (a b : number) : Prop :=
  match a, b with
  | NaN, NaN => True
  | PInf, PInf => True
  | NInf, NInf => True
  | Fin x, Fin y => (x == y)%Q
  | _, _ => False
  end.

(** [a + b]; the sum of two finite numbers is their exact sum, which is
    what the source computes whenever that sum is a double (as it is for
    whole numbers up to 2^53 in magnitude). *)
Definition add (a b : number) : number :=
  match a, b with
  | NaN, _ | _, NaN => NaN
  | PInf, NInf | NInf, PInf => NaN
  | PInf, _ | _, PInf => PInf
  | NInf, _ | _, NInf => NInf
  | Fin x, Fin y => Fin (Qred (x + y))
  end.

(** Unary minus. *)
Definition neg (a : number) : number :=
  match a with
  | NaN => NaN
  | PInf => NInf
  | NInf => PInf
  | Fin x => Fin (Qred (- x))
  end.

(** [a - b]. *)
Definition sub (a b : number) : number :=
  match a, b with
  | NaN, _ | _, NaN => NaN
  | PInf, PInf | NInf, NInf => NaN
  | PInf, _ | _, NInf => PInf
  | NInf, _ | _, PInf => NInf
  | Fin x, Fin y => Fin (Qred (x - y))
  end.

Definition sgn (a : number) : comparison :=
  match a with
  | NaN => Eq
  | PInf => Gt
  | NInf => Lt
  | Fin x => (x ?= 0)%Q
  end.

(** [a * b]. *)
Definition mul (a b : number) : number :=
  match a, b with
  | NaN, _ | _, NaN => NaN
  | Fin x, Fin y => Fin (Qred (x * y))
  | _, _ =>
      match sgn a, sgn b with
      | Eq, _ | _, Eq => NaN
      | Gt, Gt | Lt, Lt => PInf
      | _, _ => NInf
      end
  end.

(** [a / b]; a zero divisor is read as +0. *)
Definition div (a b : number) : number :=
  match a, b with
  | NaN, _ | _, NaN => NaN
  | Fin x, Fin y =>
      if Qeq_bool y 0 then
        match (x ?= 0)%Q with Eq => NaN | Gt => PInf | Lt => NInf end
      else Fin (Qred (x / y))
  | Fin _, _ => Fin 0
  | _, Fin y =>
      match sgn a, (y ?= 0)%Q with
      | Gt, Lt | Lt, (Eq | Gt) => NInf
      | _, _ => PInf
      end
  | _, _ => NaN
  end.

(** [Math.abs]. *)
Definition abs (a : number) : number :=
  match a with
  | NaN => NaN
  | PInf | NInf => PInf
  | Fin x => Fin (Qred (Qabs x))
  end.

(** [a < b]; every comparison with NaN is false. *)
Definition ltb (a b : number) : bool :=
  match a, b with
  | NaN, _ | _, NaN => false
  | _, NInf => false
  | NInf, _ => true
  | PInf, _ => false
  | _, PInf => true
  | Fin x, Fin y => negb (Qle_bool y x)
  end.

(** [a <= b]. *)
Definition leb (a b : number) : bool :=
  match a, b with
  | NaN, _ | _, NaN => false
  | NInf, _ => true
  | _, NInf => false
  | _, PInf => true
  | PInf, _ => false
  | Fin x, Fin y => Qle_bool x y
  end.

(** [a > b]. *)
Definition gtb (a b : number) : bool := ltb b a.

(** [a === b] on numbers. *)
Definition eqb (a b : number) : bool :=
  match a, b with
  | PInf, PInf | NInf, NInf => true
  | Fin x, Fin y => Qeq_bool x y
  | _, _ => false
  end.

(** [Math.min(a, b)]. *)
Definition min (a b : number) : number :=
  match a, b with
  | NaN, _ | _, NaN => NaN
  | _, _ => if ltb b a then b else a
  end.

(** [Math.round]: the nearest integer, halves towards +Infinity. *)
Definition round (a : number) : number :=
  match a with
  | Fin x => Fin (inject_Z (Qfloor (x + (1 # 2))))
  | _ => a
  end.

(** ToBoolean on a number: false for 0 and NaN. *)
Definition truthy (a : number) : bool :=
  match a with
  | NaN => false
  | Fin x => negb (Qeq_bool x 0)
  | _ => true
  end.

(** [a || b] on numbers. *)
Definition or_else (a b : number) : number :=
  if truthy a then a else b.

End Num.

Abbreviation number := Num.number.
Abbreviation NaN := Num.NaN.
Abbreviation Fin := Num.Fin.
Abbreviation PInf := Num.PInf.
Abbreviation NInf := Num.NInf.

(* ------------------------------------------------------------------ *)
(** ** Strings

    A string is a sequence of bytes; the source's texts are ASCII apart
    from the currency sign in two messages, which is kept as its UTF-8
    bytes.  White space is the ASCII part of ECMAScript's WhiteSpace and
    LineTerminator sets. *)

Module Str.

Definition quote : ascii := "034"%char.
Definition LF : ascii := "010"%char.
Definition CR : ascii := "013"%char.

Definition is_space (c : ascii) : bool :=
  let n := N_of_ascii c in
  ((9 <=? n) && (n <=? 13) || (n =? 32))%N.

Definition is_digit (c : ascii) : bool :=
  let n := N_of_ascii c in ((48 <=? n) && (n <=? 57))%N.

Definition digit_val (c : ascii) : Z := Z.of_N (N_of_ascii c) - 48.

(** [s.length === 0] negated: what [filter(Boolean)] keeps. *)
Definition nonempty (s : string) : bool :=
  match s with EmptyString => false | _ => true end.

Fixpoint rev_acc (s acc : string) : string :=
  match s with
  | EmptyString => acc
  | String c r => rev_acc r (String c acc)
  end.

Definition rev (s : string) : string := rev_acc s EmptyString.

Fixpoint trimStart (s : string) : string :=
  match s with
  | String c r => if is_space c then trimStart r else s
  | EmptyString => EmptyString
  end.

Definition trimEnd (s : string) : string := rev (trimStart (rev s)).

(** [s.trim()]. *)
Definition trim (s : string) : string := trimEnd (trimStart s).

(** [s.split(sep)] for a one-character separator: the pieces between the
    separators, empty pieces included, in order. *)
Fixpoint split_aux (sep : ascii) (s : string) (cur : string) : list string :=
  match s with
  | EmptyString => [rev cur]
  | String c r =>
      if Ascii.eqb c sep then rev cur :: split_aux sep r EmptyString
      else split_aux sep r (String c cur)
  end.

Definition split (sep : ascii) (s : string) : list string :=
  split_aux sep s EmptyString.

(** [s.split(/\r?\n/)]: a line ends at LF, or at CR immediately followed
    by LF; a CR on its own is an ordinary character. *)
Fixpoint split_lines_aux (s : string) (cur : string) : list string :=
  match s with
  | EmptyString => [rev cur]
  | String c r =>
      if Ascii.eqb c LF then rev cur :: split_lines_aux r EmptyString
      else if Ascii.eqb c CR then
        match r with
        | String d r' =>
            if Ascii.eqb d LF then rev cur :: split_lines_aux r' EmptyString
            else split_lines_aux r (String c cur)
        | EmptyString => split_lines_aux r (String c cur)
        end
      else split_lines_aux r (String c cur)
  end.

Definition split_lines (s : string) : list string :=
  split_lines_aux s EmptyString.

Definition drop_leading_quote (s : string) : string :=
  match s with
  | String c r => if Ascii.eqb c quote then r else s
  | EmptyString => EmptyString
  end.

(** [s.replace(re, empty)] for the source's pattern, which matches a
    double quote at the very start and one at the very end: one quote is
    taken off the front and one off the end, where present. *)
Definition strip_quotes (s : string) : string :=
  rev (drop_leading_quote (rev (drop_leading_quote s))).

(** [s.endsWith(suffix)]. *)
Definition endsWith (s suffix : string) : bool :=
  String.prefix (rev suffix) (rev s).

(** [xs.join(sep)]. *)
Fixpoint join (sep : string) (xs : list string) : string :=
  match xs with
  | [] => EmptyString
  | [x] => x
  | x :: r => (x ++ sep ++ join sep r)%string
  end.

(** The decimal digits of an integer, with a leading minus sign when it is
    negative. *)
Definition of_Z (z : Z) : string :=
  NilZero.string_of_int (Z.to_int z).

(** [s.padStart(2, "0")]. *)
Definition padStart2 (s : string) : string :=
  match s with
  | EmptyString => "00"
  | String c EmptyString => String "0"%char s
  | _ => s
  end.

End Str.

(* ------------------------------------------------------------------ *)
(** ** Objects

    An object whose keys are strings, as the source builds them with
    [acc[k] = ...]: an association list in insertion order, each key at
    most once.  Only own properties are represented, so a key that
    [Object.prototype] defines as well ([constructor], [toString],
    [__proto__], ...) is outside the model. *)

Module Obj.

Definition t (A : Type) : Type := list (string * A).

Definition empty {A : Type} : t A := [].

(** [o[k]]; [None] stands for [undefined]. *)
Fixpoint get {A : Type} (o : t A) (k : string) : option A :=
  match o with
  | [] => None
  | (k', v) :: r => if String.eqb k' k then Some v else get r k
  end.

(** [o[k] = v]: an existing key keeps its place, a new one goes last. *)
Fixpoint set {A : Type} (o : t A) (k : string) (v : A) : t A :=
  match o with
  | [] => [(k, v)]
  | (k', v') :: r =>
      if String.eqb k' k then (k', v) :: r else (k', v') :: set r k v
  end.

(** [{ ...a, ...b }]. *)
Definition spread {A : Type} (a b : t A) : t A :=
  fold_left (fun o kv => set o (fst kv) (snd kv)) b a.

Fixpoint all_digits (s : string) : bool :=
  match s with
  | EmptyString => true
  | String c r => Str.is_digit c && all_digits r
  end.

Fixpoint digits_value (s : string) (acc : Z) : Z :=
  match s with
  | EmptyString => acc
  | String c r => digits_value r (10 * acc + Str.digit_val c)
  end.

(** The index a key denotes when it is an array index: a canonical
    decimal numeral below 2^32 - 1. *)
Definition array_index (k : string) : option Z :=
  match k with
  | EmptyString => None
  | String c r =>
      if all_digits k
         && (negb (Ascii.eqb c "0"%char) || negb (Str.nonempty r))
      then
        let n := digits_value k 0 in
        if n <? 4294967295 then Some n else None
      else None
  end.

Fixpoint insert_index {A : Type} (n : Z) (kv : string * A)
    (l : list (Z * (string * A))) : list (Z * (string * A)) :=
  match l with
  | [] => [(n, kv)]
  | (m, kv') :: r =>
      if n <? m then (n, kv) :: l else (m, kv') :: insert_index n kv r
  end.

Fixpoint index_entries {A : Type} (o : t A) : list (Z * (string * A)) :=
  match o with
  | [] => []
  | kv :: r =>
      match array_index (fst kv) with
      | Some n => insert_index n kv (index_entries r)
      | None => index_entries r
      end
  end.

Definition is_index {A : Type} (kv : string * A) : bool :=
  match array_index (fst kv) with Some _ => true | None => false end.

(** [Object.entries(o)]: array-index keys first, in ascending numeric
    order, then the other keys in insertion order. *)
Definition entries {A : Type} (o : t A) : list (string * A) :=
  map snd (index_entries o) ++ filter (fun kv => negb (is_index kv)) o.

(** [Object.keys(o)]. *)
Definition keys {A : Type} (o : t A) : list string := map fst (entries o).

End Obj.

(* ------------------------------------------------------------------ *)
(** ** Values

    The values a parsed JSON file, a CSV cell or a record field can hold.
    Arrays and objects are values without identity. *)

#[local] Set Warnings "-register-all".

Inductive jsval : Type :=
| JUndefined
| JNull
| JBool (b : bool)
| JNum (n : number)
| JStr (s : string)
| JArr (elems : list jsval)
| JObj (props : list (string * jsval)).

(** ToBoolean: what [v || d] and [if (v)] test. *)
Definition truthy (v : jsval) : bool :=
  match v with
  | JUndefined | JNull => false
  | JBool b => b
  | JNum n => Num.truthy n
  | JStr s => Str.nonempty s
  | JArr _ | JObj _ => true
  end.

(** [v || d]. *)
Definition js_or (v d : jsval) : jsval := if truthy v then v else d.

(** [Array.isArray(v)]. *)
Definition Array_isArray (v : jsval) : bool :=
  match v with JArr _ => true | _ => false end.

(** [a === b].  Two arrays or objects are the same only when they are one
    object; values here carry no identity, so they compare as distinct.
    The answer is the source's whenever one of the operands is a primitive
    value ([primitive]); an array or object compared with itself is outside
    this definition. *)
Definition strict_eq (a b : jsval) : bool :=
  match a, b with
  | JUndefined, JUndefined => true
  | JNull, JNull => true
  | JBool x, JBool y => Bool.eqb x y
  | JNum x, JNum y => Num.eqb x y
  | JStr x, JStr y => String.eqb x y
  | _, _ => false
  end.

(** [r.k] for a key [k] that no built-in prototype defines (the record
    fields [id], [reason], [amount], [date], [category]).  Reading a
    property of [null] or [undefined] throws: [None]. *)
Definition get_field (r : jsval) (k : string) : option jsval :=
  match r with
  | JUndefined | JNull => None
  | JObj props =>
      match Obj.get props k with
      | Some v => Some v
      | None => Some JUndefined
      end
  | _ => Some JUndefined
  end.

(* ------------------------------------------------------------------ *)
(** ** Numeric literals: [Number(string)] and [parseFloat] *)

Module Lit.

(** [m * 10^e]. *)
Definition scale (e : Z) (m : Z) : Q :=
  if 0 <=? e then inject_Z (m * 10 ^ e)
  else Qred (m # Z.to_pos (10 ^ (- e))).

Fixpoint read_digits (s : string) (acc : Z) (cnt : nat)
    : Z * nat * string :=
  match s with
  | String c r =>
      if Str.is_digit c
      then read_digits r (10 * acc + Str.digit_val c) (S cnt)
      else (acc, cnt, s)
  | EmptyString => (acc, cnt, s)
  end.

(** ExponentPart, when one is there in full; otherwise nothing is read. *)
Definition read_exponent (s : string) : Z * string :=
  match s with
  | String c r =>
      if Ascii.eqb c "e"%char || Ascii.eqb c "E"%char then
        let '(sign, r1) :=
          match r with
          | String d r' =>
              if Ascii.eqb d "-"%char then (-1, r')
              else if Ascii.eqb d "+"%char then (1, r')
              else (1, r)
          | EmptyString => (1, r)
          end in
        let '(e, cnt, r2) := read_digits r1 0 0 in
        match cnt with
        | O => (0, s)
        | S _ => (sign * e, r2)
        end
      else (0, s)
  | EmptyString => (0, s)
  end.

(** The longest prefix that is an unsigned decimal literal
    ([digits], [digits.], [digits.digits], [.digits], each with an optional
    exponent), with the text after it. *)
Definition read_decimal (s : string) : option (Q * string) :=
  let '(i, ni, r1) := read_digits s 0 0 in
  let '(m, nf, r2) :=
    match r1 with
    | String c r =>
        if Ascii.eqb c "."%char then read_digits r i 0 else (i, O, r1)
    | EmptyString => (i, O, r1)
    end in
  match ni, nf with
  | O, O => None
  | _, _ =>
      let '(e, r3) := read_exponent r2 in
      Some (scale (e - Z.of_nat nf) m, r3)
  end.

Fixpoint drop (n : nat) (s : string) : string :=
  match n, s with
  | S k, String _ r => drop k r
  | _, _ => s
  end.

Definition read_unsigned (s : string) : option (number * string) :=
  if String.prefix "Infinity" s then Some (PInf, drop 8 s)
  else match read_decimal s with
       | Some (q, r) => Some (Fin q, r)
       | None => None
       end.

(** StrDecimalLiteral with its optional sign, as a prefix. *)
Definition read_signed (s : string) : option (number * string) :=
  match s with
  | String c r =>
      if Ascii.eqb c "+"%char then read_unsigned r
      else if Ascii.eqb c "-"%char then
        match read_unsigned r with
        | Some (n, r') => Some (Num.neg n, r')
        | None => None
        end
      else read_unsigned s
  | EmptyString => None
  end.

Definition radix_digit (radix : Z) (c : ascii) : option Z :=
  let n := Z.of_N (N_of_ascii c) in
  let d :=
    if (48 <=? n) && (n <=? 57) then n - 48
    else if (97 <=? n) && (n <=? 102) then n - 87
    else if (65 <=? n) && (n <=? 70) then n - 55
    else 99 in
  if d <? radix then Some d else None.

Fixpoint read_radix (radix : Z) (s : string) (acc : Z) : option Z :=
  match s with
  | EmptyString => Some acc
  | String c r =>
      match radix_digit radix c with
      | Some d => read_radix radix r (radix * acc + d)
      | None => None
      end
  end.

(** [0x..], [0o..] and [0b..] literals (no sign, at least one digit). *)
Definition read_prefixed (s : string) : option number :=
  match s with
  | String z (String x (String c r)) =>
      if Ascii.eqb z "0"%char then
        let body := String c r in
        let radix :=
          if Ascii.eqb x "x"%char || Ascii.eqb x "X"%char then Some 16
          else if Ascii.eqb x "o"%char || Ascii.eqb x "O"%char then Some 8
          else if Ascii.eqb x "b"%char || Ascii.eqb x "B"%char then Some 2
          else None in
        match radix with
        | Some b =>
            match read_radix b body 0 with
            | Some n => Some (Num.of_Z n)
            | None => Some NaN
            end
        | None => None
        end
      else None
  | _ => None
  end.

(** [Number(s)] on a string: the whole trimmed text must be a numeric
    literal; the empty text is 0; anything else is NaN. *)
Definition StringToNumber (s : string) : number :=
  let t := Str.trim s in
  match t with
  | EmptyString => Fin 0
  | _ =>
      match read_prefixed t with
      | Some n => n
      | None =>
          match read_signed t with
          | Some (n, EmptyString) => n
          | _ => NaN
          end
      end
  end.

(** [parseFloat(s)]: the longest decimal-literal prefix after leading
    white space; NaN when there is none. *)
Definition parseFloat (s : string) : number :=
  match read_signed (Str.trimStart s) with
  | Some (n, _) => n
  | None => NaN
  end.

End Lit.

(* ------------------------------------------------------------------ *)
(** ** The host

    Built-in functions of the JavaScript host that the program calls and
    whose result depends on the engine, the locale or the time zone.  The
    program is embedded over an arbitrary host. *)

Class Host : Type := {
  (** The time value, in milliseconds, of [new Date(v)]; [None] for an
      Invalid Date. *)
  Date_new : jsval -> option Z;
  (** [d.getFullYear()] and [d.getMonth()] (0 to 11) of a valid date, in
      local time. *)
  getFullYear : Z -> Z;
  getMonth : Z -> Z;
  (** [String(x)] for a finite [x] that is not an integer below 10^21 in
      magnitude. *)
  Number_toString_other : Q -> string;
  (** [n.toLocaleString(undefined, { maximumFractionDigits: 2 })]. *)
  toLocaleString : number -> string;
  (** [a.localeCompare(b)]. *)
  localeCompare : string -> string -> number;
  (** [JSON.parse(text)]; [None] when it throws a SyntaxError. *)
  JSON_parse : string -> option jsval;
  (** [JSON.stringify(v, null, 2)] for a [v] other than [undefined]. *)
  JSON_stringify : jsval -> string
}.

(** What [JSON.stringify] keeps of a value, as a value: a property whose
    value is [undefined] is left out, [undefined] inside an array and a
    number that is not finite become [null]. *)
Fixpoint json_image (v : jsval) : jsval :=
  match v with
  | JNum n => if Num.finiteb n then v else JNull
  | JArr l =>
      JArr (map (fun x =>
                   match x with
                   | JUndefined => JNull
                   | _ => json_image x
                   end) l)
  | JObj props =>
      JObj (flat_map (fun kv =>
                        match kv with
                        | (_, JUndefined) => []
                        | (k, x) => [(k, json_image x)]
                        end) props)
  | _ => v
  end.

Section Conversions.

Context {host : Host}.

(** [String(n)]. *)
Definition Number_toString (n : number) : string :=
  match n with
  | NaN => "NaN"
  | PInf => "Infinity"
  | NInf => "-Infinity"
  | Fin q =>
      let r := Qred q in
      if (Zpos (Qden r) =? 1) && (Z.abs (Qnum r) <? 10 ^ 21)
      then Str.of_Z (Qnum r)
      else Number_toString_other q
  end.

Definition has_key (props : list (string * jsval)) (k : string) : bool :=
  match Obj.get props k with Some _ => true | None => false end.

(** Converting an array or object to a primitive calls its [toString].  An
    object parsed from JSON that has a key [toString] of its own shadows the
    inherited method with a value that cannot be called, and the conversion
    throws a TypeError: the value is not [convertible]. *)
Fixpoint convertible (v : jsval) : bool :=
  match v with
  | JArr l => forallb convertible l
  | JObj props => negb (has_key props "toString")
  | _ => true
  end.

(** ToString, for a [convertible] value. *)
Fixpoint ToString (v : jsval) : string :=
  match v with
  | JUndefined => "undefined"
  | JNull => "null"
  | JBool true => "true"
  | JBool false => "false"
  | JNum n => Number_toString n
  | JStr s => s
  | JArr l =>
      Str.join ","
        (map (fun x =>
                match x with
                | JUndefined | JNull => EmptyString
                | _ => ToString x
                end) l)
  | JObj _ => "[object Object]"
  end.

(** ToNumber, for a [convertible] value: [Number(v)], and the operands of
    [-]. *)
Definition ToNumber (v : jsval) : number :=
  match v with
  | JUndefined => NaN
  | JNull => Fin 0
  | JBool true => Fin 1
  | JBool false => Fin 0
  | JNum n => n
  | JStr s => Lit.StringToNumber s
  | JArr _ | JObj _ => Lit.StringToNumber (ToString v)
  end.

(** [Number(v)] with its exception: [None] when the conversion throws. *)
Definition Number_ (v : jsval) : option number :=
  if convertible v then Some (ToNumber v) else None.

(** [a - b] for two dates: NaN as soon as one is invalid. *)
Definition date_diff (a b : option Z) : number :=
  match a, b with
  | Some x, Some y => Num.of_Z (x - y)
  | _, _ => NaN
  end.

(** [a >= b] and [a <= b] for two dates. *)
Definition date_ge (a b : option Z) : bool :=
  match a, b with
  | Some x, Some y => y <=? x
  | _, _ => false
  end.

Definition date_le (a b : option Z) : bool := date_ge b a.

End Conversions.

(* ------------------------------------------------------------------ *)
(** ** [Array.prototype.sort]

    The sort is stable and orders by the sign of the comparator's result;
    a result of NaN counts as 0.  For a consistent comparator that fixes
    the outcome; for an inconsistent one the outcome is
    implementation-defined and this is one admissible implementation:
    insertion from the right, an element moving past those it compares
    greater than. *)

Fixpoint sort_insert {A : Type} (cmp : A -> A -> number) (x : A)
    (l : list A) : list A :=
  match l with
  | [] => [x]
  | y :: r =>
      if Num.gtb (cmp x y) (Fin 0) then y :: sort_insert cmp x r
      else x :: l
  end.

Definition Array_sort {A : Type} (cmp : A -> A -> number) (l : list A)
    : list A :=
  fold_right (sort_insert cmp) [] l.

(** [xs.map((x, i) => f(i, x))], from index [i] on. *)
Fixpoint mapi_from {A B : Type} (f : nat -> A -> B) (i : nat) (l : list A)
    : list B :=
  match l with
  | [] => []
  | x :: r => f i x :: mapi_from f (S i) r
  end.

(** All results, or [None] as soon as one step throws. *)
Fixpoint sequence {A : Type} (l : list (option A)) : option (list A) :=
  match l with
  | [] => Some []
  | None :: _ => None
  | Some x :: r =>
      match sequence r with
      | Some xs => Some (x :: xs)
      | None => None
      end
  end.

(* ------------------------------------------------------------------ *)
(** ** The record store and its operations ([App]) *)

(** An expense record.  [addExpense] and the two importers are the only
    places that build one; both put a number in [amount], and the importers
    keep whatever truthy value the file has in the other fields. *)
Record expense : Type := mkExpense {
  id : jsval;
  reason : jsval;
  amount : number;
  date : jsval;
  category : jsval
}.

(** The keys of [CATEGORY_META], in source order. *)
Definition CATEGORIES : list string :=
  ["Food & Drink"; "Shopping"; "Transportation"; "Bills"; "Entertainment";
   "Other"].

(** The [expenses] state together with the notices shown by [alert], oldest
    first. *)
Record app : Type := mkApp {
  expenses : list expense;
  alerts : list string
}.

Definition alert (msg : string) (st : app) : app :=
  {| expenses := expenses st; alerts := alerts st ++ [msg] |}.

(** [setExpenses(f)]. *)
Definition setExpenses (f : list expense -> list expense) (st : app) : app :=
  {| expenses := f (expenses st); alerts := alerts st |}.

(** What an import reads from the clock and the random source while it
    builds record number [i]:
    [Date.now() + Math.floor(Math.random() * 1000)] and
    [new Date().toISOString().slice(0, 10)]. *)
Record import_env : Type := {
  fresh_id : nat -> number;
  today : nat -> string
}.

(** An uploaded file: [file.type], [file.name] and the text that
    [FileReader.readAsText] delivers to [onload]. *)
Record file : Type := {
  file_type : string;
  file_name : string;
  file_text : string
}.

(** The record as the object the source builds, keys in literal order. *)
Definition expense_object (e : expense) : jsval :=
  JObj [("id", id e); ("reason", reason e); ("amount", JNum (amount e));
        ("date", date e); ("category", category e)].

Section App.

Context {host : Host}.

(** [monthKey(dateStr)]. *)
Definition monthKey (dateStr : jsval) : string :=
  match Date_new dateStr with
  | None => "Unknown"
  | Some d =>
      (Str.of_Z (getFullYear d) ++ "-"
       ++ Str.padStart2 (Str.of_Z (getMonth d + 1)))%string
  end.

(** [formatCurrency(n)] for a number [n]. *)
Definition formatCurrency (n : number) : string := toLocaleString n.

(** [downloadJSON(records)]: the text put in the downloaded file. *)
Definition downloadJSON (records : list expense) : string :=
  JSON_stringify (JArr (map expense_object records)).

(** [addExpense], the form fields as arguments and [Date.now()] as
    [now]. *)
Definition addExpense (now : number) (reason_ amount_ date_ category_ : string)
    (st : app) : app :=
  if negb (Str.nonempty reason_) || negb (Str.nonempty amount_)
     || negb (Str.nonempty date_)
  then alert "Please fill reason, amount and date" st
  else
    let newExpense :=
      {| id := JNum now;
         reason := JStr reason_;
         amount := Lit.parseFloat amount_;
         date := JStr date_;
         category := JStr category_ |} in
    setExpenses (fun s => s ++ [newExpense]) st.

(** [deleteExpense(id)]; [confirmed] is the answer to [confirm]. *)
Definition deleteExpense (confirmed : bool) (id_ : jsval) (st : app) : app :=
  if negb confirmed then st
  else setExpenses
         (fun s => filter (fun e => negb (strict_eq (id e) id_)) s) st.

(** The body of [data.map((r) => ({ ... }))] in both importers, for the
    element at index [i]; [None] when it throws. *)
Definition clean (env : import_env) (i : nat) (r : jsval) : option expense :=
  match get_field r "id", get_field r "reason", get_field r "amount",
        get_field r "date", get_field r "category" with
  | Some r_id, Some r_reason, Some r_amount, Some r_date, Some r_category =>
      match Number_ r_amount with
      | Some n =>
          Some {| id := js_or r_id (JNum (fresh_id env i));
                  reason := js_or r_reason (JStr "Imported");
                  amount := Num.or_else n (Fin 0);
                  date := js_or r_date (JStr (today env i));
                  category := js_or r_category (JStr "Other") |}
      | None => None
      end
  | _, _, _, _, _ => None
  end.

Definition cleaned (env : import_env) (data : list jsval)
    : option (list expense) :=
  sequence (mapi_from (clean env) 0 data).

(** [handleImportJSON]: the [onload] handler run on the file's text. *)
Definition handleImportJSON (env : import_env) (text : string) (st : app)
    : app :=
  match JSON_parse text with
  | None => alert "Invalid JSON file." st
  | Some data =>
      match data with
      | JArr elems =>
          match cleaned env elems with
          | Some recs =>
              alert "Imported successfully"
                (setExpenses (fun s => s ++ recs) st)
          | None => alert "Invalid JSON file." st
          end
      | _ => alert "Invalid JSON file." st
      end
  end.

(** [headers.forEach((h, i) => (obj[h] = parts[i]))]. *)
Definition row_object (headers parts : list string) : list (string * jsval) :=
  fold_left
    (fun obj hi =>
       Obj.set obj (snd hi)
         (match nth_error parts (fst hi) with
          | Some p => JStr p
          | None => JUndefined
          end))
    (combine (seq 0 (length headers)) headers)
    Obj.empty.

(** The row objects the CSV handler builds from the non-empty lines: the
    first line gives the headers, each later line one object. *)
Definition csv_rows (line0 : string) (rest : list string) : list jsval :=
  let headers :=
    map (fun h => Str.strip_quotes (Str.trim h))
        (Str.split ","%char line0) in
  map (fun l =>
         let parts := map Str.strip_quotes (Str.split ","%char l) in
         JObj (row_object headers parts))
      rest.

(** [txt.split(/\r?\n/).filter(Boolean)]. *)
Definition csv_lines (txt : string) : list string :=
  filter Str.nonempty (Str.split_lines txt).

(** [handleFileImport]: JSON by type or extension, otherwise the basic CSV
    parser.  An exception in the CSV handler is not caught there: the store
    is left as it was. *)
Definition handleFileImport (env : import_env) (f : file) (st : app) : app :=
  if String.eqb (file_type f) "application/json"
     || Str.endsWith (file_name f) ".json"
  then handleImportJSON env (file_text f) st
  else
    match csv_lines (file_text f) with
    | [] | [_] => alert "CSV appears empty" st
    | line0 :: rest =>
        match cleaned env (csv_rows line0 rest) with
        | Some recs =>
            alert "CSV imported (basic parser)"
              (setExpenses (fun s => s ++ recs) st)
        | None => st
        end
    end.

End App.

(* ------------------------------------------------------------------ *)
(** ** Derived views *)

(** A point of the monthly bar chart. *)
Record month_point : Type := { month : string; value : number }.

(** A slice of the pie chart. *)
Record pie_slice : Type := { name : string; slice_value : number }.

(** A point of the cumulative line chart. *)
Record cumulative_point : Type := { point_date : jsval; point_total : number }.

(** [let acc = 0; sorted.map((e) => { acc += e.amount; ... })]. *)
Fixpoint running_totals (acc : number) (sorted : list expense)
    : list cumulative_point :=
  match sorted with
  | [] => []
  | e :: r =>
      let acc' := Num.add acc (amount e) in
      {| point_date := date e; point_total := acc' |}
        :: running_totals acc' r
  end.

(** [map[k] || 0] on a totals object. *)
Definition total_or_0 (m : Obj.t number) (k : string) : number :=
  match Obj.get m k with
  | Some v => Num.or_else v (Fin 0)
  | None => Fin 0
  end.

(** [acc[k] = (acc[k] || 0) + x]. *)
Definition bump (acc : Obj.t number) (k : string) (x : number)
    : Obj.t number :=
  Obj.set acc k (Num.add (total_or_0 acc k) x).

Section Views.

Context {host : Host}.

(** The [filtered] memo: category filter, date bounds, then the sort.  The
    comparators of [newest] and [oldest] convert the ids with [ToNumber],
    which stands for the source's conversion on [convertible] ids only: on
    an id whose conversion throws, so does the source's sort. *)
Definition filtered (expenses : list expense)
    (filterCategory filterFrom filterTo sortBy : string) : list expense :=
  let list := expenses in
  let list :=
    if negb (String.eqb filterCategory "All")
    then filter (fun x => strict_eq (category x) (JStr filterCategory)) list
    else list in
  let list :=
    if Str.nonempty filterFrom
    then filter (fun x => date_ge (Date_new (date x))
                                  (Date_new (JStr filterFrom))) list
    else list in
  let list :=
    if Str.nonempty filterTo
    then filter (fun x => date_le (Date_new (date x))
                                  (Date_new (JStr filterTo))) list
    else list in
  let list :=
    if String.eqb sortBy "newest"
    then Array_sort (fun a b => Num.sub (ToNumber (id b)) (ToNumber (id a)))
                    list
    else list in
  let list :=
    if String.eqb sortBy "oldest"
    then Array_sort (fun a b => Num.sub (ToNumber (id a)) (ToNumber (id b)))
                    list
    else list in
  let list :=
    if String.eqb sortBy "high"
    then Array_sort (fun a b => Num.sub (amount b) (amount a)) list
    else list in
  let list :=
    if String.eqb sortBy "low"
    then Array_sort (fun a b => Num.sub (amount a) (amount b)) list
    else list in
  list.

(** [expenses.reduce((acc, e) => acc + e.amount, 0)]. *)
Definition total (expenses : list expense) : number :=
  fold_left (fun acc e => Num.add acc (amount e)) expenses (Fin 0).

(** The [categoryTotals] memo, on categories that are plain keys
    ([plain_key]): the accumulator holds own properties only, so a category
    that does not convert to a key, or that names a property inherited from
    [Object.prototype], is outside this definition. *)
Definition categoryTotals (expenses : list expense) : Obj.t number :=
  fold_left (fun acc e => bump acc (ToString (category e)) (amount e))
            expenses Obj.empty.

(** The [pieData] memo. *)
Definition pieData (expenses : list expense) : list pie_slice :=
  map (fun kv => {| name := fst kv; slice_value := snd kv |})
      (Obj.entries (categoryTotals expenses)).

(** The object that the loop of [monthlyTotals] fills. *)
Definition monthlyMap (expenses : list expense) : Obj.t number :=
  fold_left (fun map e => bump map (monthKey (date e)) (amount e))
            expenses Obj.empty.

(** The [monthlyTotals] memo. *)
Definition monthlyTotals (expenses : list expense) : list month_point :=
  Array_sort (fun a b => localeCompare (month a) (month b))
    (map (fun kv => {| month := fst kv; value := snd kv |})
         (Obj.entries (monthlyMap expenses))).

(** The [cumulativeData] memo. *)
Definition cumulativeData (expenses : list expense) : list cumulative_point :=
  let sorted :=
    Array_sort (fun a b => date_diff (Date_new (date a)) (Date_new (date b)))
               expenses in
  running_totals (Fin 0) sorted.

(** [percentOfBudget]. *)
Definition percentOfBudget (expenses : list expense) (budget : number)
    : number :=
  if Num.gtb budget (Fin 0)
  then Num.min (Fin 1) (Num.div (Num.abs (total expenses)) budget)
  else Fin 0.

(** The month before month [m] (0 to 11) of year [y], as
    [new Date(y, m - 1, 1)] gives it for a year from 100 on. *)
Definition previous_month (y m : Z) : Z * Z :=
  if m =? 0 then (y - 1, 11) else (y, m - 1).

Definition month_key_of (y m : Z) : string :=
  (Str.of_Z y ++ "-" ++ Str.padStart2 (Str.of_Z (m + 1)))%string.

(** The two objects that the loop of [insights] fills. *)
Definition insight_maps (curMonthKey prevKey : string)
    (expenses : list expense) : Obj.t number * Obj.t number :=
  fold_left
    (fun maps e =>
       let mk := monthKey (date e) in
       let map :=
         if String.eqb mk curMonthKey
         then bump (fst maps) (ToString (category e)) (amount e)
         else fst maps in
       let mapPrev :=
         if String.eqb mk prevKey
         then bump (snd maps) (ToString (category e)) (amount e)
         else snd maps in
       (map, mapPrev))
    expenses (Obj.empty, Obj.empty).

(** The tip, if any, that one category adds. *)
Definition category_tip (map mapPrev : Obj.t number) (cat : string)
    : list string :=
  let cur := Num.abs (total_or_0 map cat) in
  let prevv := Num.abs (total_or_0 mapPrev cat) in
  if Num.eqb prevv (Fin 0) && Num.gtb cur (Fin 0) then
    [("You started spending in " ++ cat ++ " this month: ₹"
      ++ formatCurrency cur ++ ".")%string]
  else if Num.gtb prevv (Fin 0) then
    let diffPct :=
      Num.mul (Num.div (Num.sub cur prevv) prevv) (Fin 100) in
    if Num.gtb diffPct (Fin 25) then
      [("You spent " ++ Number_toString (Num.round diffPct) ++ "% more on "
        ++ cat ++ " than last month.")%string]
    else if Num.ltb diffPct (Fin (-25)) then
      [("Good! You spent " ++ Number_toString (Num.round (Num.neg diffPct))
        ++ "% less on " ++ cat ++ " than last month.")%string]
    else []
  else [].

Definition budget_alert (budget : number) : string :=
  ("Alert: you've exceeded your budget of ₹" ++ formatCurrency budget
   ++ ".")%string.

(** The category tips of [insights], in the order of
    [Object.keys({ ...map, ...mapPrev })]; [now_year] and [now_month] are
    [now.getFullYear()] and [now.getMonth()] of [new Date()]. *)
Definition category_tips (now_year now_month : Z) (expenses : list expense)
    : list string :=
  let curMonthKey := month_key_of now_year now_month in
  let prev := previous_month now_year now_month in
  let prevKey := month_key_of (fst prev) (snd prev) in
  let maps := insight_maps curMonthKey prevKey expenses in
  let map := fst maps in
  let mapPrev := snd maps in
  flat_map (category_tip map mapPrev) (Obj.keys (Obj.spread map mapPrev)).

(** The [insights] memo: the category tips, with the budget alert put in
    front by [tips.unshift] when the budget is exceeded. *)
Definition insights (now_year now_month : Z) (expenses : list expense)
    (budget : number) : list string :=
  let tips := category_tips now_year now_month expenses in
  if Num.gtb (Num.abs (total expenses)) (Num.or_else budget PInf)
     && Num.gtb budget (Fin 0)
  then budget_alert budget :: tips
  else tips.

End Views.

(* ------------------------------------------------------------------ *)
(** ** A sample host

    One host to run the program on: dates are ISO calendar dates
    ([YYYY-MM-DD]) read in UTC, strings compare by code unit, numbers print
    in plain decimal notation, and JSON texts are ASCII.  The theorems
    below hold for every host; this one serves the worked examples. *)

Module Sample.

(** Days from 1970-01-01 to the civil date [y]-[m]-[d]. *)
Definition days_from_civil (y m d : Z) : Z :=
  let y' := if m <=? 2 then y - 1 else y in
  let era := y' / 400 in
  let yoe := y' - era * 400 in
  let doy := (153 * (if 2 <? m then m - 3 else m + 9) + 2) / 5 + d - 1 in
  let doe := yoe * 365 + yoe / 4 - yoe / 100 + doy in
  era * 146097 + doe - 719468.

(** The civil year and month (1 to 12) of a day count. *)
Definition civil_from_days (z : Z) : Z * Z :=
  let z := z + 719468 in
  let era := z / 146097 in
  let doe := z - era * 146097 in
  let yoe := (doe - doe / 1460 + doe / 36524 - doe / 146096) / 365 in
  let doy := doe - (365 * yoe + yoe / 4 - yoe / 100) in
  let mp := (5 * doy + 2) / 153 in
  let m := if mp <? 10 then mp + 3 else mp - 9 in
  (yoe + era * 400 + (if m <=? 2 then 1 else 0), m).

Definition days_in_month (y m : Z) : Z :=
  if m =? 2 then
    if ((y mod 4 =? 0) && negb (y mod 100 =? 0)) || (y mod 400 =? 0)
    then 29 else 28
  else if (m =? 4) || (m =? 6) || (m =? 9) || (m =? 11) then 30
  else 31.

Definition ms_per_day : Z := 86400000.

(** [YYYY-MM-DD], a date that exists. *)
Definition parse_iso_date (s : string) : option Z :=
  match s with
  | String y1 (String y2 (String y3 (String y4 (String h1
      (String m1 (String m2 (String h2
        (String d1 (String d2 EmptyString))))))))) =>
      if forallb Str.is_digit [y1; y2; y3; y4; m1; m2; d1; d2]
         && Ascii.eqb h1 "-"%char && Ascii.eqb h2 "-"%char
      then
        let y := Obj.digits_value
                   (String y1 (String y2 (String y3 (String y4 ""))))
                   0 in
        let m := Obj.digits_value (String m1 (String m2 "")) 0 in
        let d := Obj.digits_value (String d1 (String d2 "")) 0 in
        if (1 <=? m) && (m <=? 12) && (1 <=? d)
           && (d <=? days_in_month y m)
        then Some (days_from_civil y m d * ms_per_day)
        else None
      else None
  | _ => None
  end.

Definition date_new (v : jsval) : option Z :=
  match v with
  | JStr s => parse_iso_date s
  | JNum (Fin q) => Some (Z.quot (Qnum q) (Zpos (Qden q)))
  | _ => None
  end.

Definition full_year (t : Z) : Z := fst (civil_from_days (t / ms_per_day)).
Definition month0 (t : Z) : Z := snd (civil_from_days (t / ms_per_day)) - 1.

Fixpoint fraction_digits (fuel : nat) (r d : Z) : string :=
  match fuel with
  | O => EmptyString
  | S k =>
      if r =? 0 then EmptyString
      else String (ascii_of_N (Z.to_N (48 + (10 * r) / d)))
                  (fraction_digits k ((10 * r) mod d) d)
  end.

(** Plain decimal notation, at most [digits] fractional digits. *)
Definition decimal (digits : nat) (q : Q) : string :=
  let n := Z.abs (Qnum q) in
  let d := Zpos (Qden q) in
  let frac := fraction_digits digits (n mod d) d in
  let sign := if Qnum q <? 0 then "-" else "" in
  (sign ++ Str.of_Z (n / d)
   ++ (match frac with
       | EmptyString => ""
       | _ => String "."%char frac
       end))%string.

Definition number_string (n : number) : string :=
  match n with
  | NaN => "NaN"
  | PInf => "Infinity"
  | NInf => "-Infinity"
  | Fin q => decimal 17 q
  end.

Definition locale_string (n : number) : string :=
  match n with
  | Fin q => decimal 2 q
  | _ => number_string n
  end.

Definition compare_strings (a b : string) : number :=
  match String.compare a b with
  | Lt => Fin (-1)
  | Eq => Fin 0
  | Gt => Fin 1
  end.

Fixpoint spaces (n : nat) : string :=
  match n with
  | O => EmptyString
  | S k => String " "%char (spaces k)
  end.

Definition backslash : ascii := "092"%char.

Fixpoint escape (s : string) : string :=
  match s with
  | EmptyString => EmptyString
  | String c r =>
      if Ascii.eqb c Str.quote || Ascii.eqb c backslash
      then String backslash (String c (escape r))
      else if Ascii.eqb c Str.LF
      then String backslash (String "n"%char (escape r))
      else String c (escape r)
  end.

Definition quoted (s : string) : string :=
  String Str.quote (escape s ++ String Str.quote EmptyString).

Definition newline : string := String Str.LF EmptyString.

(** [JSON.stringify(v, null, 2)], [v] written at nesting depth [ind]. *)
Fixpoint stringify (ind : nat) (v : jsval) : string :=
  let pad := spaces (2 * S ind) in
  let sep := ("," ++ newline ++ pad)%string in
  match v with
  | JUndefined | JNull => "null"
  | JBool true => "true"
  | JBool false => "false"
  | JNum n => if Num.finiteb n then number_string n else "null"
  | JStr s => quoted s
  | JArr [] => "[]"
  | JArr l =>
      ("[" ++ newline ++ pad
       ++ Str.join sep (map (stringify (S ind)) l)
       ++ newline ++ spaces (2 * ind) ++ "]")%string
  | JObj props =>
      match
        flat_map (fun kv =>
                    match kv with
                    | (_, JUndefined) => []
                    | (k, x) =>
                        [(quoted k ++ ": " ++ stringify (S ind) x)%string]
                    end) props
      with
      | [] => "{}"
      | members =>
          ("{" ++ newline ++ pad ++ Str.join sep members
           ++ newline ++ spaces (2 * ind) ++ "}")%string
      end
  end.

(** The text of a JSON string after its opening quote, up to the closing
    one. *)
Fixpoint read_string (s : string) (acc : string) : option (string * string) :=
  match s with
  | EmptyString => None
  | String c r =>
      if Ascii.eqb c Str.quote then Some (Str.rev acc, r)
      else if Ascii.eqb c backslash then
        match r with
        | String e r' =>
            if Ascii.eqb e "n"%char then read_string r' (String Str.LF acc)
            else if Ascii.eqb e "r"%char then read_string r' (String Str.CR acc)
            else if Ascii.eqb e "t"%char
            then read_string r' (String "009"%char acc)
            else if Ascii.eqb e Str.quote || Ascii.eqb e backslash
                    || Ascii.eqb e "/"%char
            then read_string r' (String e acc)
            else None
        | EmptyString => None
        end
      else if (N_of_ascii c <? 32)%N then None
      else read_string r (String c acc)
  end.

(** A JSON number: an optional minus sign, then digits with an optional
    fraction and exponent. *)
Definition read_number (s : string) : option (number * string) :=
  match s with
  | String c r =>
      if Ascii.eqb c "-"%char then
        match r with
        | String d _ =>
            if Str.is_digit d then Lit.read_signed s else None
        | EmptyString => None
        end
      else if Str.is_digit c then Lit.read_signed s
      else None
  | EmptyString => None
  end.

Definition expect (c : ascii) (s : string) : option string :=
  match Str.trimStart s with
  | String d r => if Ascii.eqb c d then Some r else None
  | EmptyString => None
  end.

Fixpoint read_value (fuel : nat) (s : string) : option (jsval * string) :=
  match fuel with
  | O => None
  | S k =>
      let s := Str.trimStart s in
      if String.prefix "null" s then Some (JNull, Lit.drop 4 s)
      else if String.prefix "true" s then Some (JBool true, Lit.drop 4 s)
      else if String.prefix "false" s then Some (JBool false, Lit.drop 5 s)
      else
        match s with
        | EmptyString => None
        | String c r =>
            if Ascii.eqb c Str.quote then
              match read_string r EmptyString with
              | Some (t, r') => Some (JStr t, r')
              | None => None
              end
            else if Ascii.eqb c "["%char then
              match expect "]"%char r with
              | Some r' => Some (JArr [], r')
              | None =>
                  match read_elements k r [] with
                  | Some (l, r') => Some (JArr l, r')
                  | None => None
                  end
              end
            else if Ascii.eqb c "{"%char then
              match expect "}"%char r with
              | Some r' => Some (JObj [], r')
              | None =>
                  match read_members k r Obj.empty with
                  | Some (o, r') => Some (JObj o, r')
                  | None => None
                  end
              end
            else
              match read_number s with
              | Some (n, r') => Some (JNum n, r')
              | None => None
              end
        end
  end

with read_elements (fuel : nat) (s : string) (acc : list jsval)
    : option (list jsval * string) :=
  match fuel with
  | O => None
  | S k =>
      match read_value k s with
      | Some (v, r) =>
          match expect ","%char r with
          | Some r' => read_elements k r' (acc ++ [v])
          | None =>
              match expect "]"%char r with
              | Some r' => Some (acc ++ [v], r')
              | None => None
              end
          end
      | None => None
      end
  end

with read_members (fuel : nat) (s : string) (acc : Obj.t jsval)
    : option (Obj.t jsval * string) :=
  match fuel with
  | O => None
  | S k =>
      match expect Str.quote s with
      | Some r =>
          match read_string r EmptyString with
          | Some (key, r1) =>
              match expect ":"%char r1 with
              | Some r2 =>
                  match read_value k r2 with
                  | Some (v, r3) =>
                      match expect ","%char r3 with
                      | Some r' => read_members k r' (Obj.set acc key v)
                      | None =>
                          match expect "}"%char r3 with
                          | Some r' => Some (Obj.set acc key v, r')
                          | None => None
                          end
                      end
                  | None => None
                  end
              | None => None
              end
          | None => None
          end
      | None => None
      end
  end.

Definition parse (text : string) : option jsval :=
  match read_value (2 * String.length text + 2) text with
  | Some (v, r) =>
      match Str.trimStart r with
      | EmptyString => Some v
      | _ => None
      end
  | None => None
  end.

#[export] Instance host : Host := {|
  Date_new := date_new;
  getFullYear := full_year;
  getMonth := month0;
  Number_toString_other := decimal 17;
  toLocaleString := locale_string;
  localeCompare := compare_strings;
  JSON_parse := parse;
  JSON_stringify := stringify 0
|}.

End Sample.


(* ------------------------------------------------------------------ *)
(** ** Vocabulary of the properties *)

(** The sum of a list of numbers, added from the left starting at 0. *)
Definition sum_numbers (l : list number) : number :=
  fold_left Num.add l (Fin 0).

(** The exact sum of the values of a list of numbers. *)
Definition qsum (l : list number) : Q :=
  fold_right (fun n acc => (Num.qval n + acc)%Q) 0%Q l.

(** Every amount is a finite number. *)
Definition finite_amounts (rs : list expense) : Prop :=
  Forall (fun e => Num.finite (amount e)) rs.

(** [0 <= e.amount]. *)
Definition nonnegative (e : expense) : Prop :=
  Num.leb (Fin 0) (amount e) = true.

(** Each number is [<=] the next one. *)
Fixpoint nondecreasing (l : list number) : Prop :=
  match l with
  | a :: (b :: _) as r => Num.leb a b = true /\ nondecreasing r
  | _ => True
  end.

(** The value is one of the six category names. *)
Definition in_fixed_set (v : jsval) : Prop :=
  exists c, v = JStr c /\ In c CATEGORIES.

(** Every record of the store has a category of the fixed set. *)
Definition categories_ok (st : app) : Prop :=
  Forall (fun e => in_fixed_set (category e)) (expenses st).

(** The category of a file element is absent (or otherwise falsy), or
    already one of the fixed set. *)
Definition file_category_ok (r : jsval) : Prop :=
  match get_field r "category" with
  | Some v => truthy v = false \/ in_fixed_set v
  | None => True
  end.

(** A field survives the JSON round trip as it is: it is truthy and JSON
    represents it exactly. *)
Definition kept (v : jsval) : Prop :=
  truthy v = true /\ json_image v = v.

(** [e'] equals [e] by id, reason, amount, date and category, a missing id
    of [e] apart. *)
Definition equal_modulo_missing_id (e e' : expense) : Prop :=
  (truthy (id e) = true -> id e' = id e)
  /\ reason e' = reason e
  /\ Num.eq (amount e') (amount e)
  /\ date e' = date e
  /\ category e' = category e.

(** The record that importing the exported form of [e] builds at index
    [i]. *)
Definition reimported (env : import_env) (i : nat) (e : expense) : expense :=
  {| id := js_or (json_image (id e)) (JNum (fresh_id env i));
     reason := js_or (json_image (reason e)) (JStr "Imported");
     amount := if Num.finiteb (amount e)
               then Num.or_else (amount e) (Fin 0) else Fin 0;
     date := js_or (json_image (date e)) (JStr (today env i));
     category := js_or (json_image (category e)) (JStr "Other") |}.

(** The record's reason, date and category are present and survive
    serialization, so does its id when it has one, and its amount is
    finite. *)
Definition fields_present (e : expense) : Prop :=
  (truthy (id e) = true -> json_image (id e) = id e)
  /\ kept (reason e) /\ kept (date e) /\ kept (category e)
  /\ Num.finite (amount e).

(** What [JSON.stringify] keeps of one property. *)
Definition kept_property (kv : string * jsval) : list (string * jsval) :=
  match kv with
  | (_, JUndefined) => []
  | (k, x) => [(k, json_image x)]
  end.

Section FileElements.

Context {host : Host}.

(** The elements that [handleFileImport] hands to the record builder: the
    parsed array of a JSON file, the row objects of a CSV file that has at
    least two non-empty lines, and nothing for a file it rejects. *)
Definition file_elements (f : file) : list jsval :=
  if String.eqb (file_type f) "application/json"
     || Str.endsWith (file_name f) ".json"
  then
    match JSON_parse (file_text f) with
    | Some (JArr data) => data
    | _ => []
    end
  else
    match csv_lines (file_text f) with
    | [] | [_] => []
    | line0 :: rest => csv_rows line0 rest
    end.

End FileElements.

(** A clock and random source for the worked examples. *)
Definition sample_env : import_env :=
  {| fresh_id := fun i => Num.of_Z (1717200000000 + Z.of_nat i);
     today := fun _ => "2024-06-01" |}.

(** The empty store. *)
Definition empty_app : app := {| expenses := []; alerts := [] |}.

(** Lines joined by LF. *)
Definition text_of_lines (lines : list string) : string :=
  Str.join Sample.newline lines.

(** A CSV file. *)
Definition csv_file (lines : list string) : file :=
  {| file_type := "text/csv";
     file_name := "expenses.csv";
     file_text := text_of_lines lines |}.

(** A store with amounts that are not finite, as a CSV import leaves it
    (see [unbounded_store_imported]). *)
Definition unbounded_store : list expense :=
  [ {| id := JStr "1"; reason := JStr "Gift"; amount := PInf;
       date := JStr "2024-01-05"; category := JStr "Bills" |};
    {| id := JStr "2"; reason := JStr "Refund"; amount := NInf;
       date := JStr "2024-01-06"; category := JStr "Bills" |};
    {| id := JStr "3"; reason := JStr "Tea"; amount := Fin 3;
       date := JStr "2024-01-07"; category := JStr "Bills" |} ].

Definition unbounded_csv : file :=
  csv_file [ "id,reason,amount,date,category";
             "1,Gift,Infinity,2024-01-05,Bills";
             "2,Refund,-Infinity,2024-01-06,Bills";
             "3,Tea,3,2024-01-07,Bills" ].

(** A store whose total spend is 15. *)
Definition fifteen_store : list expense :=
  [ {| id := JNum (Fin 1); reason := JStr "Books"; amount := Fin 10;
       date := JStr "2024-03-02"; category := JStr "Shopping" |};
    {| id := JNum (Fin 2); reason := JStr "Cinema"; amount := Fin 5;
       date := JStr "2024-03-09"; category := JStr "Entertainment" |} ].

(** A JSON file with one record of a category outside the fixed set. *)
Definition groceries_json : file :=
  {| file_type := "application/json";
     file_name := "expenses.json";
     file_text :=
       ("[{" ++ Sample.quoted "category" ++ ": "
        ++ Sample.quoted "Groceries" ++ "}]")%string |}.

(** The same as a CSV file. *)
Definition groceries_csv : file :=
  csv_file [ "reason,amount,category"; "Apples,3,Groceries" ].

(** A stored record with an empty reason. *)
Definition unlabelled : expense :=
  {| id := JNum (Fin 5); reason := JStr ""; amount := Fin 4;
     date := JStr "2024-01-05"; category := JStr "Bills" |}.

(** A refund: a record with a negative amount. *)
Definition refund : expense :=
  {| id := JNum (Fin 4); reason := JStr "Refund"; amount := Fin (-5);
     date := JStr "2024-01-10"; category := JStr "Shopping" |}.

(** A record whose date is not a date. *)
Definition undated : expense :=
  {| id := JNum (Fin 3); reason := JStr "Taxi"; amount := Fin 8;
     date := JStr "someday"; category := JStr "Transportation" |}.

(** The store of the specification's scenario. *)
Definition scenario_store : list expense :=
  [ {| id := JNum (Fin 1); reason := JStr "Coffee"; amount := Fin 5;
       date := JStr "2024-01-05"; category := JStr "Food & Drink" |};
    {| id := JNum (Fin 2); reason := JStr "Bus"; amount := Fin 2;
       date := JStr "2024-01-20"; category := JStr "Transportation" |} ].

(* ------------------------------------------------------------------ *)
(** ** More of the component: exports, reports, the age of the last
    expense and the persisted budget *)

(** [v ?? d]. *)
Definition nullish_or (v d : jsval) : jsval :=
  match v with
  | JUndefined | JNull => d
  | _ => v
  end.

(** [r[h]] for a record [r]. *)
Definition record_get (r : expense) (h : string) : jsval :=
  match get_field (expense_object r) h with
  | Some v => v
  | None => JUndefined
  end.

(** The [headers] constant of [downloadCSV] and [downloadExcel]. *)
Definition headers : list string :=
  ["id"; "reason"; "amount"; "date"; "category"].

(** What an export hands to the browser: a notice shown by [alert], or a
    file with its name and text. *)
Inductive download : Type :=
| Notice (msg : string)
| File (name content : string).

(** What [downloadPDF] draws: the optional caption, the table body and the
    line under the table. *)
Record report : Type := {
  report_title : option string;
  report_body : list (list jsval);
  report_total_line : string
}.

Inductive report_outcome : Type :=
| ReportNotice (msg : string)
| ReportSaved (r : report).

Module JSONText.

Definition backslash : ascii := "092"%char.

Definition hex_digit (n : N) : ascii :=
  if (n <? 10)%N then ascii_of_N (48 + n) else ascii_of_N (87 + n).

Definition escape2 (c : ascii) (rest : string) : string :=
  String backslash (String c rest).

(** The characters of a JSON string literal between its quotes. *)
Fixpoint quote_body (s : string) : string :=
  match s with
  | EmptyString => EmptyString
  | String c r =>
      let n := N_of_ascii c in
      let rest := quote_body r in
      if Ascii.eqb c Str.quote || Ascii.eqb c backslash then escape2 c rest
      else if (n =? 8)%N then escape2 "b"%char rest
      else if (n =? 9)%N then escape2 "t"%char rest
      else if (n =? 10)%N then escape2 "n"%char rest
      else if (n =? 12)%N then escape2 "f"%char rest
      else if (n =? 13)%N then escape2 "r"%char rest
      else if (n <? 32)%N then
        escape2 "u"%char
          (String "0"%char
             (String "0"%char
                (String (hex_digit (n / 16))
                   (String (hex_digit (n mod 16)) rest))))
      else String c rest
  end.

(** QuoteJSONString. *)
Definition quote_string (s : string) : string :=
  String Str.quote (quote_body s ++ String Str.quote EmptyString).

End JSONText.

Section More.

Context {host : Host}.

(** [JSON.stringify(v)], without indentation, for a [v] other than
    [undefined] ([undefined] inside an array is written [null], a property
    whose value is [undefined] is left out). *)
Fixpoint JSON_compact (v : jsval) : string :=
  match v with
  | JUndefined | JNull => "null"
  | JBool true => "true"
  | JBool false => "false"
  | JNum n => if Num.finiteb n then Number_toString n else "null"
  | JStr s => JSONText.quote_string s
  | JArr l => ("[" ++ Str.join "," (map JSON_compact l) ++ "]")%string
  | JObj props =>
      let members :=
        Obj.entries
          (flat_map (fun kv =>
                       match kv with
                       | (_, JUndefined) => []
                       | (k, x) => [(k, JSON_compact x)]
                       end) props) in
      ("{"
       ++ Str.join ","
            (map (fun kv =>
                    (JSONText.quote_string (fst kv) ++ ":" ++ snd kv)%string)
                 members)
       ++ "}")%string
  end.

(** One line of [downloadCSV]:
    [headers.map((h) => JSON.stringify(r[h] ?? empty)).join(",")]. *)
Definition csv_row (r : expense) : string :=
  Str.join ","
    (map (fun h => JSON_compact (nullish_or (record_get r h) (JStr "")))
         headers).

(** [downloadCSV(records)]; [today] is
    [new Date().toISOString().slice(0, 10)]. *)
Definition downloadCSV (today : string) (records : list expense) : download :=
  match records with
  | [] => Notice "No records to export."
  | _ =>
      let rows := map csv_row records in
      let csv :=
        Str.join (String Str.LF EmptyString) (Str.join "," headers :: rows) in
      File ("expenses_" ++ today ++ ".csv")%string csv
  end.

(** [downloadPDF(records, summary)]: what is drawn when the two PDF
    libraries load ([available]); otherwise the [catch] notice. *)
Definition downloadPDF (available : bool) (records : list expense)
    (summary_title : option string) : report_outcome :=
  if available then
    ReportSaved
      {| report_title :=
           match summary_title with
           | Some t => if Str.nonempty t then Some t else None
           | None => None
           end;
         report_body :=
           map (fun r =>
                  [ reason r; category r; date r;
                    JStr ("₹" ++ formatCurrency (amount r))%string ])
               records;
         report_total_line :=
           ("Total: ₹" ++ formatCurrency (total records))%string |}
  else ReportNotice "Please install jspdf and jspdf-autotable (see README).".

(** The rows that [generateMonthlyReportPDF] selects. *)
Definition month_rows (monthKeyStr : string) (expenses : list expense)
    : list expense :=
  filter (fun e => String.eqb (monthKey (date e)) monthKeyStr) expenses.

(** [generateMonthlyReportPDF(monthKeyStr)]. *)
Definition generateMonthlyReportPDF (available : bool) (monthKeyStr : string)
    (expenses : list expense) : report_outcome :=
  let rows := month_rows monthKeyStr expenses in
  match rows with
  | [] => ReportNotice "No data for that month"
  | _ =>
      downloadPDF available rows
        (Some ("Monthly Report for " ++ monthKeyStr)%string)
  end.

(** [new Date(a) > new Date(b)]. *)
Definition date_gt (a b : option Z) : bool :=
  match a, b with
  | Some x, Some y => y <? x
  | _, _ => false
  end.

(** The callback of [expenses.reduce] in [daysSinceLast]. *)
Definition later (a b : expense) : expense :=
  if date_gt (Date_new (date a)) (Date_new (date b)) then a else b.

(** The time value of a date as a number: NaN for an Invalid Date. *)
Definition date_number (d : option Z) : number :=
  match d with
  | Some t => Num.of_Z t
  | None => NaN
  end.

(** [Math.floor]. *)
Definition Math_floor (x : number) : number :=
  match x with
  | Fin q => Num.of_Z (Qfloor q)
  | _ => x
  end.

(** The [daysSinceLast] memo; [now] is [Date.now()], and [None] stands for
    [null]. *)
Definition daysSinceLast (now : Z) (expenses : list expense)
    : option number :=
  match expenses with
  | [] => None
  | first :: rest =>
      let last := fold_left later rest first in
      let diff :=
        Math_floor
          (Num.div (Num.sub (Num.of_Z now) (date_number (Date_new (date last))))
                   (Num.of_Z (1000 * 60 * 60 * 24))) in
      Some diff
  end.

(** What the effect on [budget] stores: [String(budget)]. *)
Definition stored_budget (budget : number) : string := Number_toString budget.

(** The initial [budget]: [Number(localStorage.getItem(key) || 0)], the
    item being [None] when the key is absent. *)
Definition initial_budget (item : option string) : number :=
  ToNumber
    (js_or (match item with
            | Some s => JStr s
            | None => JNull
            end)
           (JNum (Fin 0))).

End More.

(* ------------------------------------------------------------------ *)
(** ** Vocabulary of the further properties *)

Section MoreVocabulary.

Context {host : Host}.

(** The records filed under the category key [k]. *)
Definition category_rows (k : string) (expenses : list expense)
    : list expense :=
  filter (fun e => String.eqb (ToString (category e)) k) expenses.

(** The record counts towards the insights computed in month [now_month]
    of [now_year]: its month key is that month's or the previous one's. *)
Definition in_insight_window (now_year now_month : Z) (e : expense) : bool :=
  let prev := previous_month now_year now_month in
  String.eqb (monthKey (date e)) (month_key_of now_year now_month)
  || String.eqb (monthKey (date e)) (month_key_of (fst prev) (snd prev)).

(** The record passes the category filter and the two date bounds of the
    [filtered] memo. *)
Definition passes_filters (filterCategory filterFrom filterTo : string)
    (x : expense) : bool :=
  (String.eqb filterCategory "All"
   || strict_eq (category x) (JStr filterCategory))
  && (negb (Str.nonempty filterFrom)
      || date_ge (Date_new (date x)) (Date_new (JStr filterFrom)))
  && (negb (Str.nonempty filterTo)
      || date_le (Date_new (date x)) (Date_new (JStr filterTo))).

(** The record as it comes back from a CSV file: a numeric id as the text
    that was written for it. *)
Definition csv_back (e : expense) : expense :=
  {| id := match id e with
           | JNum n => JStr (Number_toString n)
           | v => v
           end;
     reason := reason e;
     amount := amount e;
     date := date e;
     category := category e |}.

End MoreVocabulary.

(** The value that a totals object holds under [k], or 0. *)
Definition key_value (o : Obj.t number) (k : string) : Q :=
  match Obj.get o k with
  | Some v => Num.qval v
  | None => 0%Q
  end.

(** The record has an id, a reason, a date and a category that are truthy
    and an amount that is not NaN. *)
Definition record_ok (e : expense) : Prop :=
  truthy (id e) = true
  /\ truthy (reason e) = true
  /\ amount e <> NaN
  /\ truthy (date e) = true
  /\ truthy (category e) = true.

(** The clock gives a non-zero id and a non-empty date for every index. *)
Definition env_ok (env : import_env) : Prop :=
  forall i : nat,
    Num.truthy (fresh_id env i) = true /\ Str.nonempty (today env i) = true.

(** Every character of the string passes the test. *)
Fixpoint all_chars (p : ascii -> bool) (s : string) : bool :=
  match s with
  | EmptyString => true
  | String c r => p c && all_chars p r
  end.

(** A character that a CSV cell can carry through an export and the naive
    import unchanged: not a control character, a double quote, a backslash
    or a comma. *)
Definition plain_char (c : ascii) : bool :=
  (32 <=? N_of_ascii c)%N
  && negb (Ascii.eqb c Str.quote)
  && negb (Ascii.eqb c JSONText.backslash)
  && negb (Ascii.eqb c ","%char).

(** A character that ends neither a CSV cell nor a line: not a comma, a
    line feed or a carriage return. *)
Definition cell_char (c : ascii) : bool :=
  negb (Ascii.eqb c ","%char)
  && negb (Ascii.eqb c Str.LF)
  && negb (Ascii.eqb c Str.CR).

(** A character of a line: not a line feed or a carriage return. *)
Definition line_char (c : ascii) : bool :=
  negb (Ascii.eqb c Str.LF) && negb (Ascii.eqb c Str.CR).

(** A character other than the double quote. *)
Definition unquoted_char (c : ascii) : bool := negb (Ascii.eqb c Str.quote).

(** A non-empty text of plain characters. *)
Definition plain_text (s : string) : bool :=
  Str.nonempty s && all_chars plain_char s.

(** A field that is a non-empty plain text. *)
Definition plain_field (v : jsval) : Prop :=
  match v with
  | JStr s => plain_text s = true
  | _ => False
  end.

(** A number that is an integer below 10^21 in magnitude. *)
Definition plain_integer (n : number) : Prop :=
  exists z : Z, n = Num.of_Z z /\ Z.abs z < 10 ^ 21.

(** An id that is a non-empty plain text or a plain integer. *)
Definition plain_id (v : jsval) : Prop :=
  match v with
  | JStr s => plain_text s = true
  | JNum n => plain_integer n
  | _ => False
  end.

(** A record whose five fields are plain. *)
Definition plain_record (e : expense) : Prop :=
  plain_id (id e)
  /\ plain_field (reason e)
  /\ plain_integer (amount e)
  /\ plain_field (date e)
  /\ plain_field (category e).

(** A CSV cell is a string, or [undefined] when the line is too short. *)
Definition cell (v : jsval) : Prop :=
  v = JUndefined \/ exists s, v = JStr s.

(** A record that [downloadCSV] can write whatever its texts contain: the
    reason, date and category are strings, the id is a string or a plain
    integer, and the amount is a plain integer or not finite. *)
Definition text_record (e : expense) : Prop :=
  match id e with
  | JStr _ => True
  | JNum n => plain_integer n
  | _ => False
  end
  /\ (exists s, reason e = JStr s)
  /\ (plain_integer (amount e) \/ ~ Num.finite (amount e))
  /\ (exists s, date e = JStr s)
  /\ (exists s, category e = JStr s).

(** A record whose reason holds a comma, a double quote and a line
    break. *)
Definition awkward : expense :=
  {| id := JNum (Fin 7);
     reason := JStr ("tea, " ++ Sample.quoted "green" ++ Sample.newline
                     ++ "and milk")%string;
     amount := Fin 3;
     date := JStr "2024-01-08";
     category := JStr "Food & Drink" |}.

(** The file that [downloadCSV] writes for [awkward] and [refund] on the
    sample host. *)
Definition awkward_csv : file :=
  {| file_type := "text/csv";
     file_name := "expenses_2024-06-01.csv";
     file_text :=
       text_of_lines
         (Str.join "," headers
          :: map (@csv_row Sample.host) [awkward; refund]) |}.

(** The file that [downloadCSV] writes for [scenario_store] on
    2024-06-01. *)
Definition scenario_csv : file :=
  {| file_type := "text/csv";
     file_name := "expenses_2024-06-01.csv";
     file_text :=
       text_of_lines
         [ "id,reason,amount,date,category";
           Str.join ","
             [ "1"; Sample.quoted "Coffee"; "5";
               Sample.quoted "2024-01-05"; Sample.quoted "Food & Drink" ];
           Str.join ","
             [ "2"; Sample.quoted "Bus"; "2";
               Sample.quoted "2024-01-20";
               Sample.quoted "Transportation" ] ] |}.

(** The element makes the record builder throw: it is [null] or
    [undefined], or its amount cannot be converted to a number. *)
Definition unusable (r : jsval) : Prop :=
  r = JNull \/ r = JUndefined
  \/ exists a, get_field r "amount" = Some a /\ convertible a = false.

(* ------------------------------------------------------------------ *)
(** ** Inputs on which the embedding is exact

    Four things the source relies on are not represented above: the
    binary rounding of doubles, the properties that an object made by
    [{}] inherits from [Object.prototype], the identity of arrays and
    objects, and the exception that a comparator throws on an id it cannot
    convert.  The predicates of this section mark out the inputs on which
    none of them comes into play. *)

(** A whole number. *)
Definition whole (n : number) : Prop := exists z : Z, Num.eq n (Num.of_Z z).

(** The magnitudes of the amounts, added up. *)
Definition magnitude (rs : list expense) : Q :=
  fold_right (fun e s => (Qabs (Num.qval (amount e)) + s)%Q) 0%Q rs.

(** The amounts are whole numbers whose magnitudes add up to at most 2^53.
    Any sum of some of them, taken in any order, is then a whole number of
    magnitude at most 2^53.  A double holds every such number exactly, so
    none of the source's additions rounds, and the exact sums of the model
    are the sums the program computes. *)
Definition whole_amounts (rs : list expense) : Prop :=
  Forall (fun e => whole (amount e)) rs
  /\ (magnitude rs <= inject_Z (2 ^ 53))%Q.

(** The property names that [Object.prototype] defines.  On an object made
    by [{}], reading one of them finds the inherited property instead of
    [undefined], and writing [__proto__] calls the inherited setter instead
    of creating a key. *)
Definition Object_prototype_keys : list string :=
  [ "constructor"; "hasOwnProperty"; "isPrototypeOf";
    "propertyIsEnumerable"; "toLocaleString"; "toString"; "valueOf";
    "__defineGetter__"; "__defineSetter__"; "__lookupGetter__";
    "__lookupSetter__"; "__proto__" ].

Section Domains.

Context {host : Host}.

(** A value that, used as a key of a totals object, names an own property
    and nothing else: its conversion to a property key does not throw, and
    the key is none of those that [Object.prototype] defines. *)
Definition plain_key (v : jsval) : Prop :=
  convertible v = true /\ ~ In (ToString v) Object_prototype_keys.

(** The ids that the sort [sortBy] converts to numbers (those of the
    records that passed the filters, for [newest] and [oldest]) convert
    without throwing. *)
Definition sortable (filterCategory filterFrom filterTo sortBy : string)
    (rs : list expense) : Prop :=
  sortBy = "newest" \/ sortBy = "oldest" ->
  Forall (fun e => convertible (id e) = true)
         (filter (passes_filters filterCategory filterFrom filterTo) rs).

End Domains.





(** A JSON text with two usable elements: the first lacks an id and a
    date, the second has every field, its amount as a string. *)
Definition two_records_json : string :=
  ("[{" ++ Sample.quoted "reason" ++ ": " ++ Sample.quoted "Tea" ++ ", "
   ++ Sample.quoted "amount" ++ ": 3}, {"
   ++ Sample.quoted "id" ++ ": 8, "
   ++ Sample.quoted "reason" ++ ": " ++ Sample.quoted "Bus" ++ ", "
   ++ Sample.quoted "amount" ++ ": " ++ Sample.quoted "2" ++ ", "
   ++ Sample.quoted "date" ++ ": " ++ Sample.quoted "2024-01-20" ++ ", "
   ++ Sample.quoted "category" ++ ": " ++ Sample.quoted "Transportation"
   ++ "}]")%string.

(* ------------------------------------------------------------------ *)
(** ** Numbers: basic facts *)

#[local] Arguments Qred : simpl never.
#[local] Arguments Qplus : simpl never.
#[local] Arguments Qminus : simpl never.
#[local] Arguments Qmult : simpl never.
#[local] Arguments Qdiv : simpl never.
#[local] Arguments Qabs : simpl never.
#[local] Arguments Qeq_bool : simpl never.
#[local] Arguments Qle_bool : simpl never.
#[local] Arguments Qcompare : simpl never.

Lemma num_eq_refl (a : number) : Num.eq a a.
Proof. destruct a; simpl; auto. reflexivity. Qed.

Lemma num_eq_sym (a b : number) : Num.eq a b -> Num.eq b a.
Proof. destruct a, b; simpl; auto. intros H; symmetry; exact H. Qed.

Lemma num_eq_trans (a b c : number) : Num.eq a b -> Num.eq b c -> Num.eq a c.
Proof.
  destruct a, b, c; simpl; auto; try contradiction.
  intros H1 H2; rewrite H1; exact H2.
Qed.

#[export] Instance num_eq_equivalence : Equivalence Num.eq.
Proof.
  split.
  - exact num_eq_refl.
  - exact num_eq_sym.
  - exact num_eq_trans.
Qed.

Lemma add_finite (a b : number) :
  Num.finite a -> Num.finite b ->
  Num.finite (Num.add a b) /\ (Num.qval (Num.add a b) == Num.qval a + Num.qval b)%Q.
Proof.
  destruct a, b; simpl; try contradiction; intros _ _.
  split; [exact I | apply Qred_correct].
Qed.

(** [v || 0] does not change the value of a finite [v]. *)
Lemma or_else_0_finite (v : number) :
  Num.finite v ->
  Num.finite (Num.or_else v (Fin 0))
  /\ (Num.qval (Num.or_else v (Fin 0)) == Num.qval v)%Q.
Proof.
  destruct v; simpl; try contradiction; intros _.
  unfold Num.or_else; simpl.
  destruct (Qeq_bool q 0) eqn:E; simpl.
  - split; [exact I|]. apply Qeq_bool_iff in E. symmetry; exact E.
  - split; [exact I | reflexivity].
Qed.

Lemma qsum_permutation (l1 l2 : list number) :
  Permutation l1 l2 -> (qsum l1 == qsum l2)%Q.
Proof.
  induction 1; simpl.
  - reflexivity.
  - rewrite IHPermutation; reflexivity.
  - ring.
  - etransitivity; eassumption.
Qed.

Lemma fold_add_finite (l : list number) :
  Forall Num.finite l ->
  forall a : Q, Num.eq (fold_left Num.add l (Fin a)) (Fin (a + qsum l)).
Proof.
  induction 1 as [|x l Hx Hl IH]; intros a; simpl.
  - ring.
  - destruct x; simpl in Hx; try contradiction.
    simpl. etransitivity; [apply IH|].
    simpl. rewrite Qred_correct. ring.
Qed.

Lemma sum_numbers_finite (l : list number) :
  Forall Num.finite l -> Num.eq (sum_numbers l) (Fin (qsum l)).
Proof.
  intros H. unfold sum_numbers.
  etransitivity; [apply (fold_add_finite l H 0%Q)|].
  simpl. ring.
Qed.

(* ------------------------------------------------------------------ *)
(** ** Sorting and object enumeration only reorder *)

Lemma sort_insert_permutation {A : Type} (cmp : A -> A -> number) (x : A)
    (l : list A) :
  Permutation (sort_insert cmp x l) (x :: l).
Proof.
  induction l as [|y l IH]; cbn [sort_insert].
  - apply Permutation_refl.
  - destruct (Num.gtb (cmp x y) (Fin 0)).
    + eapply perm_trans; [apply perm_skip, IH | apply perm_swap].
    + apply Permutation_refl.
Qed.

Lemma Array_sort_permutation {A : Type} (cmp : A -> A -> number)
    (l : list A) :
  Permutation (Array_sort cmp l) l.
Proof.
  induction l as [|x l IH]; simpl.
  - apply perm_nil.
  - eapply perm_trans; [apply sort_insert_permutation|].
    apply perm_skip, IH.
Qed.

Lemma filter_split_permutation {A : Type} (f : A -> bool) (l : list A) :
  Permutation (filter f l ++ filter (fun x => negb (f x)) l) l.
Proof.
  induction l as [|x l IH]; simpl.
  - apply perm_nil.
  - destruct (f x); simpl.
    + apply perm_skip, IH.
    + eapply perm_trans; [apply Permutation_sym, Permutation_middle|].
      apply perm_skip, IH.
Qed.

Lemma insert_index_permutation {A : Type} (n : Z) (kv : string * A)
    (l : list (Z * (string * A))) :
  Permutation (Obj.insert_index n kv l) ((n, kv) :: l).
Proof.
  induction l as [|[m kv'] l IH]; simpl.
  - apply Permutation_refl.
  - destruct (n <? m).
    + apply Permutation_refl.
    + eapply perm_trans; [apply perm_skip, IH | apply perm_swap].
Qed.

Lemma index_entries_permutation {A : Type} (o : Obj.t A) :
  Permutation (map snd (Obj.index_entries o)) (filter Obj.is_index o).
Proof.
  induction o as [|kv o IH]; simpl.
  - apply perm_nil.
  - unfold Obj.is_index at 1.
    destruct (Obj.array_index (fst kv)) as [n|].
    + eapply perm_trans.
      * apply Permutation_map, insert_index_permutation.
      * simpl. apply perm_skip, IH.
    + exact IH.
Qed.

Lemma entries_permutation {A : Type} (o : Obj.t A) :
  Permutation (Obj.entries o) o.
Proof.
  unfold Obj.entries.
  eapply perm_trans; [|apply (filter_split_permutation Obj.is_index)].
  apply Permutation_app_tail, index_entries_permutation.
Qed.

(* ------------------------------------------------------------------ *)
(** ** Totals objects *)

Lemma bump_cons (k' : string) (v' : number) (r : Obj.t number) (k : string)
    (x : number) :
  bump ((k', v') :: r) k x =
  if String.eqb k' k
  then (k', Num.add (Num.or_else v' (Fin 0)) x) :: r
  else (k', v') :: bump r k x.
Proof.
  unfold bump, total_or_0. simpl.
  destruct (String.eqb k' k); reflexivity.
Qed.

(** One more amount in a totals object: the values stay finite and their
    sum grows by that amount, whichever key it goes to. *)
Lemma bump_sum (acc : Obj.t number) (k : string) (x : number) :
  Forall Num.finite (map snd acc) -> Num.finite x ->
  Forall Num.finite (map snd (bump acc k x))
  /\ (qsum (map snd (bump acc k x)) == qsum (map snd acc) + Num.qval x)%Q.
Proof.
  intros Hacc Hx. induction acc as [|[k' v'] r IH].
  - unfold bump, total_or_0. simpl.
    destruct (add_finite (Fin 0) x I Hx) as [Hf Hq].
    split; [constructor; [exact Hf | constructor]|].
    rewrite Hq. simpl. ring.
  - rewrite bump_cons. simpl in Hacc. inversion Hacc as [|? ? Hv Hr]; subst.
    destruct (String.eqb k' k).
    + destruct (or_else_0_finite v' Hv) as [Hf0 Hq0].
      destruct (add_finite _ x Hf0 Hx) as [Hf Hq].
      simpl. split; [constructor; assumption|].
      rewrite Hq, Hq0. ring.
    + destruct (IH Hr) as [Hf Hq].
      simpl. split; [constructor; assumption|].
      rewrite Hq. ring.
Qed.

(** Grouping a list of finite amounts under any key function keeps their
    sum. *)
Lemma grouped_sum (key : expense -> string) (rs : list expense) :
  finite_amounts rs ->
  forall acc : Obj.t number,
    Forall Num.finite (map snd acc) ->
    let o := fold_left (fun acc e => bump acc (key e) (amount e)) rs acc in
    Forall Num.finite (map snd o)
    /\ (qsum (map snd o) == qsum (map snd acc) + qsum (map amount rs))%Q.
Proof.
  induction 1 as [|e rs He Hrs IH]; intros acc Hacc; simpl.
  - split; [exact Hacc | ring].
  - destruct (bump_sum acc (key e) (amount e) Hacc He) as [Hf Hq].
    destruct (IH _ Hf) as [Hf' Hq'].
    split; [exact Hf'|].
    rewrite Hq', Hq. ring.
Qed.

Lemma total_as_sum (rs : list expense) :
  total rs = sum_numbers (map amount rs).
Proof.
  unfold total, sum_numbers. generalize (Fin 0).
  induction rs as [|e rs IH]; intros a; simpl; [reflexivity | apply IH].
Qed.

Lemma total_finite (rs : list expense) :
  finite_amounts rs -> Num.eq (total rs) (Fin (qsum (map amount rs))).
Proof.
  intros Hrs. rewrite total_as_sum.
  apply sum_numbers_finite.
  apply Forall_map. exact Hrs.
Qed.

(* ------------------------------------------------------------------ *)
(** ** Category and monthly totals against the grand total *)

Lemma finite_permutation (l1 l2 : list number) :
  Permutation l1 l2 -> Forall Num.finite l1 -> Forall Num.finite l2.
Proof. intros HP. apply Permutation_Forall. exact HP. Qed.

(** The values of an enumerated totals object sum to the grouped amounts. *)
Lemma entries_sum (key : expense -> string) (rs : list expense) :
  finite_amounts rs ->
  let o := fold_left (fun acc e => bump acc (key e) (amount e)) rs Obj.empty in
  forall l : list number,
    Permutation l (map snd o) ->
    Num.eq (sum_numbers l) (Fin (qsum (map amount rs))).
Proof.
  intros Hrs o l HP.
  destruct (grouped_sum key rs Hrs Obj.empty (Forall_nil _)) as [Hf Hq].
  fold o in Hf, Hq.
  etransitivity.
  - apply sum_numbers_finite.
    apply (finite_permutation (map snd o)); [apply Permutation_sym, HP | exact Hf].
  - simpl. rewrite (qsum_permutation _ _ HP), Hq. simpl. ring.
Qed.

(** The scenario of the specification: two January records. *)
Example scenario_totals :
  @monthlyTotals Sample.host scenario_store
    = [ {| month := "2024-01"; value := Fin 7 |} ]
  /\ @categoryTotals Sample.host scenario_store
    = [ ("Food & Drink", Fin 5); ("Transportation", Fin 2) ].
Proof. split; vm_compute; reflexivity. Qed.

(** The store [unbounded_store] is what importing [unbounded_csv] into the
    empty store leaves. *)
Example unbounded_store_imported :
  expenses (@handleFileImport Sample.host sample_env unbounded_csv empty_app)
    = unbounded_store.
Proof. vm_compute. reflexivity. Qed.

(** C1, as stated, fails: with amounts Infinity, -Infinity and 3 in one
    category the grand total is NaN, while the accumulator of the category,
    reset by [|| 0] once it is NaN, ends at 3. *)
Lemma category_totals_differ_from_total :
  @total unbounded_store = NaN
  /\ @pieData Sample.host unbounded_store
     = [ {| name := "Bills"; slice_value := Fin 3 |} ]
  /\ ~ Num.eq (sum_numbers (map slice_value (@pieData Sample.host unbounded_store)))
              (total unbounded_store).
Proof.
  repeat split; try (vm_compute; reflexivity).
  vm_compute. intros H; exact H.
Qed.

Lemma whole_is_finite (n : number) : whole n -> Num.finite n.
Proof. intros [z Hz]. destruct n; simpl in Hz; try contradiction. exact I. Qed.

Lemma whole_amounts_finite (rs : list expense) :
  whole_amounts rs -> finite_amounts rs.
Proof.
  intros [Hw _]. unfold finite_amounts.
  apply (Forall_impl _ (fun e => whole_is_finite (amount e)) Hw).
Qed.

Ltac not_a_prototype_key :=
  let Hin := fresh "Hin" in
  intros Hin;
  repeat (destruct Hin as [Hin | Hin]; [discriminate Hin|]);
  exact Hin.

(** C1 (amended): for every list of expense records whose amounts are
    whole numbers with magnitudes adding up to at most 2^53 (so that no
    addition rounds), the monthly totals sum to the sum of all record
    amounts, and so do the category totals when every category is a plain
    key (it converts to a property key, and to none that
    [Object.prototype] defines): neither grouping counts an amount twice or
    leaves one out. *)
Theorem totals_partition_the_grand_total `{Host} (rs : list expense) :
  whole_amounts rs ->
  (Forall (fun e => plain_key (category e)) rs ->
   Num.eq (sum_numbers (map slice_value (pieData rs))) (total rs))
  /\ Num.eq (sum_numbers (map value (monthlyTotals rs))) (total rs).
Proof.
  intros Hw.
  pose proof (whole_amounts_finite rs Hw) as Hrs.
  pose proof (total_finite rs Hrs) as Ht.
  split; [intros _|]; (etransitivity; [|symmetry; exact Ht]).
  - apply (entries_sum (fun e => ToString (category e)) rs Hrs).
    unfold pieData. rewrite map_map. simpl.
    apply Permutation_map, entries_permutation.
  - apply (entries_sum (fun e => monthKey (date e)) rs Hrs).
    unfold monthlyTotals.
    eapply perm_trans; [apply Permutation_map, Array_sort_permutation|].
    rewrite map_map. simpl.
    apply Permutation_map, entries_permutation.
Qed.

Lemma totals_partition_the_grand_total_witness :
  whole_amounts scenario_store
  /\ Forall (fun e => @plain_key Sample.host (category e)) scenario_store
  /\ Num.eq (sum_numbers (map slice_value (@pieData Sample.host scenario_store)))
            (total scenario_store)
  /\ Num.eq (sum_numbers (map value (@monthlyTotals Sample.host scenario_store)))
            (total scenario_store)
  /\ total scenario_store = Fin 7.
Proof.
  assert (Hw : whole_amounts scenario_store).
  { split.
    - constructor; [exists 5; reflexivity|].
      constructor; [exists 2; reflexivity|]. constructor.
    - vm_compute. discriminate. }
  assert (Hk : Forall (fun e => @plain_key Sample.host (category e))
                      scenario_store).
  { repeat constructor; not_a_prototype_key. }
  split; [exact Hw|]. split; [exact Hk|].
  destruct (@totals_partition_the_grand_total Sample.host scenario_store Hw)
    as [Hpie Hmonths].
  split; [exact (Hpie Hk)|]. split; [exact Hmonths | reflexivity].
Defined.

(* ------------------------------------------------------------------ *)
(** ** Deleting a record *)

Lemma filter_all {A : Type} (f : A -> bool) (l : list A) :
  (forall x, In x l -> f x = true) -> filter f l = l.
Proof.
  induction l as [|x l IH]; intros Hall; simpl.
  - reflexivity.
  - rewrite (Hall x (or_introl eq_refl)).
    f_equal. apply IH. intros y Hy. apply Hall. right; exact Hy.
Qed.




(* ------------------------------------------------------------------ *)
(** ** The filtered view *)

Lemma In_sorted_if {A : Type} (b : bool) (cmp : A -> A -> number)
    (l : list A) (x : A) :
  In x (if b then Array_sort cmp l else l) -> In x l.
Proof.
  destruct b; [|exact (fun H => H)].
  apply Permutation_in, Array_sort_permutation.
Qed.

(** C10: as soon as a from-date or a to-date bound is set, a record whose
    date is an Invalid Date is not in the filtered view, whatever the
    bound, the category filter and the sort key are. *)
Theorem invalid_dates_are_filtered_out `{Host} (rs : list expense)
    (filterCategory filterFrom filterTo sortBy : string) (e : expense) :
  Str.nonempty filterFrom = true \/ Str.nonempty filterTo = true ->
  Date_new (date e) = None ->
  ~ In e (filtered rs filterCategory filterFrom filterTo sortBy).
Proof.
  intros Hbound Hinvalid Hin. unfold filtered in Hin.
  do 4 apply In_sorted_if in Hin.
  destruct Hbound as [Hfrom | Hto].
  - rewrite Hfrom in Hin.
    assert (Hge : In e (filter
              (fun x => date_ge (Date_new (date x)) (Date_new (JStr filterFrom)))
              (if negb (String.eqb filterCategory "All")
               then filter (fun x => strict_eq (category x) (JStr filterCategory)) rs
               else rs))).
    { destruct (Str.nonempty filterTo); [apply filter_In in Hin; apply Hin | exact Hin]. }
    apply filter_In in Hge. destruct Hge as [_ Hge].
    rewrite Hinvalid in Hge. discriminate Hge.
  - rewrite Hto in Hin. apply filter_In in Hin. destruct Hin as [_ Hle].
    unfold date_le, date_ge in Hle. rewrite Hinvalid in Hle.
    destruct (Date_new (JStr filterTo)); discriminate Hle.
Qed.

Lemma invalid_dates_are_filtered_out_witness :
  (Str.nonempty "2024-01-01" = true \/ Str.nonempty "" = true)
  /\ @Date_new Sample.host (date undated) = None
  /\ ~ In undated
        (@filtered Sample.host (undated :: scenario_store)
           "All" "2024-01-01" "" "newest").
Proof.
  assert (Hb : Str.nonempty "2024-01-01" = true \/ Str.nonempty "" = true)
    by (left; reflexivity).
  assert (Hd : @Date_new Sample.host (date undated) = None) by reflexivity.
  split; [exact Hb|]. split; [exact Hd|].
  exact (@invalid_dates_are_filtered_out Sample.host
           (undated :: scenario_store) "All" "2024-01-01" "" "newest"
           undated Hb Hd).
Defined.

(* ------------------------------------------------------------------ *)
(** ** JSON import: rejected files *)

(** C5: when the text is not JSON, or is JSON whose top-level value is not
    an array, [handleImportJSON] shows the notice [Invalid JSON file.] and
    leaves the records as they were. *)
Theorem invalid_json_import_changes_nothing `{Host} (env : import_env)
    (text : string) (st : app) :
  JSON_parse text = None
  \/ (exists v, JSON_parse text = Some v /\ Array_isArray v = false) ->
  expenses (handleImportJSON env text st) = expenses st
  /\ alerts (handleImportJSON env text st)
     = alerts st ++ ["Invalid JSON file."].
Proof.
  intros [Hbad | [v [Hv Hnot]]]; unfold handleImportJSON.
  - rewrite Hbad. split; reflexivity.
  - rewrite Hv. destruct v; try discriminate Hnot; split; reflexivity.
Qed.

Lemma invalid_json_import_changes_nothing_witness :
  (@JSON_parse Sample.host "[1, 2" = None
   \/ (exists v, @JSON_parse Sample.host "[1, 2" = Some v
                 /\ Array_isArray v = false))
  /\ expenses (@handleImportJSON Sample.host sample_env "[1, 2"
                 (mkApp scenario_store []))
     = scenario_store
  /\ alerts (@handleImportJSON Sample.host sample_env "[1, 2"
               (mkApp scenario_store []))
     = ["Invalid JSON file."].
Proof.
  assert (Hbad : @JSON_parse Sample.host "[1, 2" = None
            \/ (exists v, @JSON_parse Sample.host "[1, 2" = Some v
                          /\ Array_isArray v = false))
    by (left; reflexivity).
  split; [exact Hbad|].
  exact (@invalid_json_import_changes_nothing Sample.host sample_env "[1, 2"
           (mkApp scenario_store []) Hbad).
Defined.

(** A file whose top-level value is an object is rejected in the same
    way. *)
Example object_file_rejected :
  @handleImportJSON Sample.host sample_env "{}" (mkApp scenario_store [])
    = mkApp scenario_store ["Invalid JSON file."].
Proof. reflexivity. Qed.

(* ------------------------------------------------------------------ *)
(** ** The budget gauge and the budget alert *)

Lemma positive_is_truthy (b : number) :
  Num.gtb b (Fin 0) = true -> Num.truthy b = true.
Proof.
  destruct b as [|q| |]; simpl; intros Hpos; try discriminate; try reflexivity.
  apply negb_true_iff in Hpos. apply negb_true_iff.
  destruct (Qeq_bool q 0) eqn:E; [|reflexivity].
  apply Qeq_bool_iff in E.
  assert (Hle : Qle_bool q 0 = true)
    by (apply Qle_bool_iff; rewrite E; apply Qle_refl).
  rewrite Hle in Hpos. discriminate Hpos.
Qed.

Lemma positive_Q (b : Q) : (0 < b)%Q -> Num.gtb (Fin b) (Fin 0) = true.
Proof.
  intros Hb. simpl. apply negb_true_iff.
  destruct (Qle_bool b 0) eqn:E; [|reflexivity].
  apply Qle_bool_iff in E. exfalso. exact (Qlt_not_le _ _ Hb E).
Qed.

(** [Math.min(1, x)] on a finite [x] is the least of 1 and [x]. *)
Lemma min_1_finite (x : Q) :
  Num.eq (Num.min (Fin 1) (Fin x)) (Fin (Qmin 1 x)).
Proof.
  simpl. destruct (Qle_bool 1 x) eqn:E; simpl.
  - apply Qle_bool_iff in E. symmetry. apply Q.min_l. exact E.
  - symmetry. apply Q.min_r.
    destruct (Qlt_le_dec x 1) as [Hlt | Hge].
    + apply Qlt_le_weak. exact Hlt.
    + apply Qle_bool_iff in Hge. rewrite Hge in E. discriminate E.
Qed.

Lemma div_finite (t b : Q) :
  (0 < b)%Q ->
  exists x, Num.div (Num.abs (Fin t)) (Fin b) = Fin x /\ (x == Qabs t / b)%Q.
Proof.
  intros Hb. simpl.
  destruct (Qeq_bool b 0) eqn:E.
  - apply Qeq_bool_iff in E. rewrite E in Hb.
    exfalso. exact (Qlt_irrefl _ Hb).
  - eexists. split; [reflexivity|].
    rewrite !Qred_correct. reflexivity.
Qed.

(** C6: the budget percentage is [min(1, abs(total) / budget)] when the
    budget is positive and 0 when it is not; for a finite total [t] and a
    finite budget [b > 0] that is the rational [min 1 (|t| / b)].  A budget
    of 0 gives 0 whatever was spent, and a budget of 10 with a total spend
    of 15 gives exactly 1. *)
Theorem percentOfBudget_spec (rs : list expense) (budget : number) :
  (Num.gtb budget (Fin 0) = true ->
     percentOfBudget rs budget
       = Num.min (Fin 1) (Num.div (Num.abs (total rs)) budget))
  /\ (Num.gtb budget (Fin 0) = false -> percentOfBudget rs budget = Fin 0)
  /\ (forall t b : Q, total rs = Fin t -> budget = Fin b -> (0 < b)%Q ->
        Num.eq (percentOfBudget rs budget) (Fin (Qmin 1 (Qabs t / b))))
  /\ percentOfBudget rs (Fin 0) = Fin 0
  /\ (Num.eq (total rs) (Fin 15) -> percentOfBudget rs (Fin 10) = Fin 1).
Proof.
  unfold percentOfBudget.
  split; [intros ->; reflexivity|].
  split; [intros ->; reflexivity|].
  split; [|split].
  - intros t b Ht -> Hb. rewrite (positive_Q b Hb), Ht.
    destruct (div_finite t b Hb) as [x [-> Hx]].
    etransitivity; [apply min_1_finite|].
    simpl. rewrite Hx. reflexivity.
  - reflexivity.
  - intros H15. destruct (total rs) as [|t| |]; simpl in H15; try contradiction.
    assert (H10 : (0 < 10)%Q) by reflexivity.
    rewrite (positive_Q 10 H10).
    destruct (div_finite t 10 H10) as [x [-> Hx]].
    simpl. destruct (Qle_bool 1 x) eqn:E; [reflexivity|].
    exfalso.
    assert (Hle : Qle_bool 1 x = true).
    { apply Qle_bool_iff. rewrite Hx, H15. discriminate. }
    rewrite Hle in E. discriminate E.
Qed.

Lemma percentOfBudget_spec_witness :
  Num.gtb (Fin 10) (Fin 0) = true
  /\ Num.eq (total fifteen_store) (Fin 15)
  /\ percentOfBudget fifteen_store (Fin 10) = Fin 1
  /\ Num.eq (percentOfBudget scenario_store (Fin 10)) (Fin (Qmin 1 (Qabs 7 / 10)))
  /\ percentOfBudget fifteen_store (Fin (-3)) = Fin 0.
Proof.
  assert (H15 : Num.eq (total fifteen_store) (Fin 15)) by reflexivity.
  split; [reflexivity|]. split; [exact H15|]. split; [|split].
  - exact (proj2 (proj2 (proj2 (proj2
      (percentOfBudget_spec fifteen_store (Fin 10))))) H15).
  - refine (proj1 (proj2 (proj2
      (percentOfBudget_spec scenario_store (Fin 10)))) 7%Q 10%Q _ _ _);
      reflexivity.
  - refine (proj1 (proj2
      (percentOfBudget_spec fifteen_store (Fin (-3)))) _); reflexivity.
Defined.





(* ------------------------------------------------------------------ *)
(** ** CSV import *)

(** C7: importing a CSV file (a file that is not taken for JSON) made of
    the header line [id,reason,amount,date,category] and the data row
    [,Lunch,12.5,2024-02-01,Food & Drink] appends exactly one record: a
    generated id, reason Lunch, amount 12.5, date 2024-02-01 and category
    Food & Drink. *)
Theorem csv_import_of_one_row `{Host} (env : import_env) (f : file)
    (st : app) :
  String.eqb (file_type f) "application/json"
    || Str.endsWith (file_name f) ".json" = false ->
  file_text f = text_of_lines [ "id,reason,amount,date,category";
                                ",Lunch,12.5,2024-02-01,Food & Drink" ] ->
  handleFileImport env f st
    = {| expenses :=
           expenses st
           ++ [ {| id := JNum (fresh_id env 0);
                   reason := JStr "Lunch";
                   amount := Fin (25 # 2);
                   date := JStr "2024-02-01";
                   category := JStr "Food & Drink" |} ];
         alerts := alerts st ++ ["CSV imported (basic parser)"] |}.
Proof.
  intros Hcsv Htext. unfold handleFileImport.
  rewrite Hcsv, Htext. reflexivity.
Qed.

Lemma csv_import_of_one_row_witness :
  expenses
    (@handleFileImport Sample.host sample_env
       (csv_file [ "id,reason,amount,date,category";
                   ",Lunch,12.5,2024-02-01,Food & Drink" ])
       (mkApp scenario_store []))
  = scenario_store
    ++ [ {| id := JNum (Fin 1717200000000);
            reason := JStr "Lunch";
            amount := Fin (25 # 2);
            date := JStr "2024-02-01";
            category := JStr "Food & Drink" |} ].
Proof.
  rewrite (@csv_import_of_one_row Sample.host sample_env
             (csv_file [ "id,reason,amount,date,category";
                         ",Lunch,12.5,2024-02-01,Food & Drink" ])
             (mkApp scenario_store []) eq_refl eq_refl).
  reflexivity.
Defined.

(* ------------------------------------------------------------------ *)
(** ** The cumulative series *)

Lemma leb_add_finite (x a : number) :
  Num.finite x -> Num.finite a ->
  (Num.leb x (Num.add x a) = true <-> Num.leb (Fin 0) a = true).
Proof.
  destruct x as [|x| |], a as [|a| |]; simpl; try contradiction; intros _ _.
  rewrite !Qle_bool_iff, Qred_correct.
  split; intros Hle.
  - apply (Qplus_le_r _ _ x). rewrite Qplus_0_r. exact Hle.
  - apply (Qplus_le_r _ _ x) in Hle. rewrite Qplus_0_r in Hle. exact Hle.
Qed.

Lemma running_totals_monotone (l : list expense) :
  finite_amounts l ->
  forall acc : number, Num.finite acc ->
    (nondecreasing (acc :: map point_total (running_totals acc l))
     <-> Forall nonnegative l).
Proof.
  induction 1 as [|e l He Hl IH]; intros acc Hacc.
  - simpl. split; [constructor | trivial].
  - cbn [running_totals map point_total nondecreasing].
    destruct (add_finite acc (amount e) Hacc He) as [Hacc' _].
    rewrite (leb_add_finite acc (amount e) Hacc He), (IH _ Hacc').
    split.
    + intros [H0 Hr]. constructor; assumption.
    + intros HF. inversion HF; subst. split; assumption.
Qed.

Lemma running_totals_length (l : list expense) (acc : number) :
  length (running_totals acc l) = length l.
Proof.
  revert acc. induction l as [|e l IH]; intros acc; simpl.
  - reflexivity.
  - f_equal. apply IH.
Qed.

(** C4, as stated, fails: the series of a single refund has one point, so
    it is non-decreasing, yet the amount is negative. *)
Lemma cumulative_series_of_one_refund :
  map point_total (@cumulativeData Sample.host [refund]) = [Fin (-5)]
  /\ ~ (nondecreasing (map point_total (@cumulativeData Sample.host [refund]))
        <-> Forall nonnegative [refund]).
Proof.
  split; [reflexivity|].
  intros [Hmono _].
  assert (Hall : Forall nonnegative [refund]) by (apply Hmono; exact I).
  inversion Hall as [|? ? Hneg _]; subst.
  discriminate Hneg.
Qed.

(** Why the amounts have to be finite: once the running total is Infinity
    a later refund no longer lowers it. *)
Example unbounded_series_hides_a_refund :
  map point_total
      (@cumulativeData Sample.host [refund; hd refund unbounded_store])
    = [PInf; PInf]
  /\ nondecreasing [Fin 0; PInf; PInf]
  /\ ~ nonnegative refund.
Proof.
  split; [vm_compute; reflexivity|].
  split; [repeat split|].
  intros Hneg. discriminate Hneg.
Qed.

(** Adding an amount that is not negative to a total that is not negative
    does not lower it, whether or not either is finite. *)
Lemma leb_add_nonnegative (x a : number) :
  Num.leb (Fin 0) x = true -> Num.leb (Fin 0) a = true ->
  Num.leb x (Num.add x a) = true /\ Num.leb (Fin 0) (Num.add x a) = true.
Proof.
  destruct x as [|x| |], a as [|a| |]; simpl; try discriminate;
    try (intros _ _; split; reflexivity);
    try (intros Hx _; split; [reflexivity | exact Hx]).
  rewrite !Qle_bool_iff, Qred_correct. intros Hx Ha. split.
  - rewrite <- (Qplus_0_r x) at 1. apply Qplus_le_r. exact Ha.
  - rewrite <- (Qplus_0_r 0). apply Qplus_le_compat; assumption.
Qed.

Lemma running_totals_nonnegative (l : list expense) :
  Forall nonnegative l ->
  forall acc : number, Num.leb (Fin 0) acc = true ->
    nondecreasing (acc :: map point_total (running_totals acc l)).
Proof.
  induction 1 as [|e l He Hl IH]; intros acc Hacc.
  - exact I.
  - cbn [running_totals map point_total nondecreasing].
    destruct (leb_add_nonnegative acc (amount e) Hacc He) as [Hstep Hacc'].
    split; [exact Hstep | exact (IH _ Hacc')].
Qed.

(* ------------------------------------------------------------------ *)
(** ** Categories of the stored records *)

Lemma fixed_category_truthy (v : jsval) : in_fixed_set v -> truthy v = true.
Proof.
  intros [c [-> Hc]]. simpl in Hc.
  repeat (destruct Hc as [<- | Hc]; [reflexivity|]). contradiction.
Qed.

Lemma Other_in_fixed_set : in_fixed_set (JStr "Other").
Proof. exists "Other". split; [reflexivity | simpl; tauto]. Qed.

Lemma defaulted_category_ok (v : jsval) :
  truthy v = false \/ in_fixed_set v ->
  in_fixed_set (js_or v (JStr "Other")).
Proof.
  unfold js_or. intros [Hfalsy | Hin].
  - rewrite Hfalsy. apply Other_in_fixed_set.
  - rewrite (fixed_category_truthy v Hin). exact Hin.
Qed.

(** The category of a built record is the element's, or Other when that
    is falsy. *)
Lemma clean_category `{Host} (env : import_env) (i : nat) (r : jsval)
    (e : expense) :
  clean env i r = Some e ->
  exists v, get_field r "category" = Some v
            /\ category e = js_or v (JStr "Other").
Proof.
  unfold clean. intros Hclean.
  destruct (get_field r "id"); [|discriminate Hclean].
  destruct (get_field r "reason"); [|discriminate Hclean].
  destruct (get_field r "amount") as [a|]; [|discriminate Hclean].
  destruct (get_field r "date"); [|discriminate Hclean].
  destruct (get_field r "category") as [c|]; [|discriminate Hclean].
  destruct (Number_ a); [|discriminate Hclean].
  injection Hclean as <-. exists c. split; reflexivity.
Qed.

Lemma sequence_cons {A : Type} (x : option A) (l : list (option A))
    (ys : list A) :
  sequence (x :: l) = Some ys ->
  exists y ys', x = Some y /\ sequence l = Some ys' /\ ys = y :: ys'.
Proof.
  simpl. destruct x as [y|]; [|discriminate].
  destruct (sequence l) as [ys'|]; [|discriminate].
  intros [= <-]. exists y, ys'. repeat split.
Qed.

Lemma built_categories_ok `{Host} (env : import_env) (data : list jsval) :
  Forall file_category_ok data ->
  forall (i : nat) (recs : list expense),
    sequence (mapi_from (clean env) i data) = Some recs ->
    Forall (fun e => in_fixed_set (category e)) recs.
Proof.
  induction 1 as [|r data Hr Hdata IH]; intros i recs Hseq.
  - injection Hseq as <-. constructor.
  - cbn [mapi_from] in Hseq.
    apply sequence_cons in Hseq.
    destruct Hseq as [e [recs' [He [Hrest ->]]]].
    constructor; [|exact (IH _ _ Hrest)].
    destruct (clean_category env i r e He) as [v [Hv ->]].
    unfold file_category_ok in Hr. rewrite Hv in Hr.
    apply defaulted_category_ok. exact Hr.
Qed.

Lemma categories_ok_append (st : app) (recs : list expense) (msg : string) :
  categories_ok st ->
  Forall (fun e => in_fixed_set (category e)) recs ->
  categories_ok (alert msg (setExpenses (fun s => s ++ recs) st)).
Proof.
  unfold categories_ok. simpl. intros Hst Hrecs.
  apply Forall_app. split; assumption.
Qed.

(** C3, as stated, fails: an import keeps a category that is not one of
    the six, from a JSON file as from a CSV file. *)
Lemma import_keeps_unknown_category :
  map category
      (expenses (@handleFileImport Sample.host sample_env groceries_json
                   empty_app))
    = [JStr "Groceries"]
  /\ map category
       (expenses (@handleFileImport Sample.host sample_env groceries_csv
                    empty_app))
     = [JStr "Groceries"]
  /\ categories_ok empty_app
  /\ ~ categories_ok
        (@handleFileImport Sample.host sample_env groceries_json empty_app)
  /\ ~ categories_ok
        (@handleFileImport Sample.host sample_env groceries_csv empty_app).
Proof.
  assert (Hnot : forall st : app,
             map category (expenses st) = [JStr "Groceries"] ->
             ~ categories_ok st).
  { intros st Hst Hok. unfold categories_ok in Hok.
    apply (proj2 (Forall_map category in_fixed_set (expenses st))) in Hok.
    rewrite Hst in Hok. inversion Hok as [|? ? Hin _]; subst.
    destruct Hin as [c [Heq Hc]]. injection Heq as <-.
    simpl in Hc.
    repeat (destruct Hc as [Hc | Hc]; [discriminate Hc|]). contradiction. }
  assert (Hjson : map category
      (expenses (@handleFileImport Sample.host sample_env groceries_json
                   empty_app)) = [JStr "Groceries"])
    by (vm_compute; reflexivity).
  assert (Hcsv : map category
      (expenses (@handleFileImport Sample.host sample_env groceries_csv
                   empty_app)) = [JStr "Groceries"])
    by (vm_compute; reflexivity).
  split; [exact Hjson|]. split; [exact Hcsv|].
  split; [constructor|].
  split; apply Hnot; assumption.
Qed.

Lemma json_import_categories_ok `{Host} (env : import_env) (text : string)
    (st : app) :
  categories_ok st ->
  (forall data, JSON_parse text = Some (JArr data) ->
                Forall file_category_ok data) ->
  categories_ok (handleImportJSON env text st).
Proof.
  intros Hst Hfile. unfold handleImportJSON.
  destruct (JSON_parse text) as [[| | | | |data|]|]; try exact Hst.
  specialize (Hfile data eq_refl). unfold cleaned.
  destruct (sequence (mapi_from (clean env) 0 data)) as [recs|] eqn:Hseq;
    [|exact Hst].
  apply categories_ok_append; [exact Hst|].
  exact (built_categories_ok env data Hfile 0%nat recs Hseq).
Qed.

(** C3 (amended): starting from a store whose categories all belong to the
    fixed set, an add whose category is one of the six names of the form's
    select keeps that property, and so does a delete.  An import gives each
    record it builds the category of the file element when that value is
    truthy and Other when it is absent or falsy, without comparing it with
    the fixed set; so a JSON or CSV import keeps the property when every
    category present in the file is one of the six. *)
Theorem categories_after_store_operations `{Host} (st : app) :
  categories_ok st ->
  (forall (now : number) (r a d c : string),
      In c CATEGORIES -> categories_ok (addExpense now r a d c st))
  /\ (forall (confirmed : bool) (i : jsval),
        categories_ok (deleteExpense confirmed i st))
  /\ (forall (env : import_env) (i : nat) (r : jsval) (e : expense),
        clean env i r = Some e ->
        exists v, get_field r "category" = Some v
                  /\ category e = js_or v (JStr "Other"))
  /\ (forall (env : import_env) (text : string),
        (forall data, JSON_parse text = Some (JArr data) ->
                      Forall file_category_ok data) ->
        categories_ok (handleImportJSON env text st))
  /\ (forall (env : import_env) (f : file),
        Forall file_category_ok (file_elements f) ->
        categories_ok (handleFileImport env f st)).
Proof.
  intros Hst. split; [|split; [|split; [|split]]].
  - intros now r a d c Hc. unfold addExpense.
    destruct (negb (Str.nonempty r) || negb (Str.nonempty a)
              || negb (Str.nonempty d)); [exact Hst|].
    unfold categories_ok, setExpenses. simpl.
    apply Forall_app. split; [exact Hst|].
    constructor; [|constructor]. exists c. split; [reflexivity | exact Hc].
  - intros confirmed i. unfold deleteExpense.
    destruct (negb confirmed); [exact Hst|].
    unfold categories_ok, setExpenses. simpl.
    apply Forall_forall. intros e He. apply filter_In in He.
    unfold categories_ok in Hst.
    exact (proj1 (Forall_forall _ _) Hst e (proj1 He)).
  - intros env i r e. apply clean_category.
  - intros env text. apply json_import_categories_ok. exact Hst.
  - intros env f Hfile.
    unfold file_elements in Hfile. unfold handleFileImport.
    destruct (String.eqb (file_type f) "application/json"
              || Str.endsWith (file_name f) ".json").
    + apply json_import_categories_ok; [exact Hst|].
      intros data Hparse. rewrite Hparse in Hfile. exact Hfile.
    + destruct (csv_lines (file_text f)) as [|line0 [|line1 rest]];
        try exact Hst.
      unfold cleaned.
      destruct (sequence (mapi_from (clean env) 0
                            (csv_rows line0 (line1 :: rest))))
        as [recs|] eqn:Hseq; [|exact Hst].
      apply categories_ok_append; [exact Hst|].
      exact (built_categories_ok env _ Hfile 0%nat recs Hseq).
Qed.

Lemma categories_after_store_operations_witness :
  categories_ok (mkApp scenario_store [])
  /\ Forall file_category_ok
       (@file_elements Sample.host
          (csv_file [ "id,reason,amount,date,category";
                      ",Lunch,12.5,2024-02-01,Food & Drink";
                      ",Stamps,2,2024-02-03," ]))
  /\ categories_ok
       (@handleFileImport Sample.host sample_env
          (csv_file [ "id,reason,amount,date,category";
                      ",Lunch,12.5,2024-02-01,Food & Drink";
                      ",Stamps,2,2024-02-03," ])
          (mkApp scenario_store []))
  /\ categories_ok
       (addExpense (Fin 1717200000000) "Rent" "700" "2024-06-01" "Bills"
          (mkApp scenario_store [])).
Proof.
  assert (Hst : categories_ok (mkApp scenario_store [])).
  { unfold categories_ok; simpl.
    repeat constructor; eexists; (split; [reflexivity | simpl; tauto]). }
  assert (Hfile : Forall file_category_ok
            (@file_elements Sample.host
               (csv_file [ "id,reason,amount,date,category";
                           ",Lunch,12.5,2024-02-01,Food & Drink";
                           ",Stamps,2,2024-02-03," ]))).
  { match goal with
    | |- Forall _ ?l =>
        let v := eval vm_compute in l in
        replace l with v by (vm_compute; reflexivity)
    end.
    constructor; [|constructor; [|constructor]].
    - right. exists "Food & Drink". split; [reflexivity | simpl; tauto].
    - left. reflexivity. }
  pose proof (@categories_after_store_operations Sample.host
                (mkApp scenario_store []) Hst) as [Hadd [_ [_ [_ Himport]]]].
  split; [exact Hst|]. split; [exact Hfile|]. split.
  - exact (Himport sample_env _ Hfile).
  - apply Hadd. simpl; tauto.
Defined.

(* ------------------------------------------------------------------ *)
(** ** Export to JSON, then import *)

Lemma kept_property_cases (k : string) (v : jsval) :
  (v = JUndefined /\ kept_property (k, v) = [])
  \/ kept_property (k, v) = [(k, json_image v)].
Proof. destruct v; simpl; auto. Qed.

Lemma json_image_expense (e : expense) :
  json_image (expense_object e)
  = JObj (kept_property ("id", id e)
          ++ kept_property ("reason", reason e)
          ++ [("amount", if Num.finiteb (amount e)
                         then JNum (amount e) else JNull)]
          ++ kept_property ("date", date e)
          ++ kept_property ("category", category e)).
Proof.
  unfold expense_object. cbn [json_image flat_map].
  rewrite app_nil_r. reflexivity.
Qed.

(** Building a record from the exported form of [e] gives
    [reimported env i e]. *)
Lemma clean_exported `{Host} (env : import_env) (i : nat) (e : expense) :
  clean env i (json_image (expense_object e)) = Some (reimported env i e).
Proof.
  rewrite json_image_expense. destruct e as [i0 r a d c].
  cbn [id reason amount date category]. unfold reimported.
  cbn [id reason amount date category].
  destruct (kept_property_cases "id" i0) as [[-> ->] | ->];
    destruct (kept_property_cases "reason" r) as [[-> ->] | ->];
    destruct (kept_property_cases "date" d) as [[-> ->] | ->];
    destruct (kept_property_cases "category" c) as [[-> ->] | ->];
    destruct a; reflexivity.
Qed.

Lemma cleaned_exported `{Host} (env : import_env) (rs : list expense) :
  forall i : nat,
    sequence
      (mapi_from (clean env) i
         (map (fun x => match x with
                        | JUndefined => JNull
                        | _ => json_image x
                        end)
              (map expense_object rs)))
    = Some (mapi_from (reimported env) i rs).
Proof.
  induction rs as [|e rs IH]; intros i.
  - reflexivity.
  - cbn [map mapi_from].
    change (match expense_object e with
            | JUndefined => JNull
            | _ => json_image (expense_object e)
            end) with (json_image (expense_object e)).
    cbn [sequence]. rewrite clean_exported, IH. reflexivity.
Qed.

Lemma reimported_present (env : import_env) (i : nat) (e : expense) :
  fields_present e -> equal_modulo_missing_id e (reimported env i e).
Proof.
  intros [Hid [[Hr1 Hr2] [[Hd1 Hd2] [[Hc1 Hc2] Ha]]]].
  unfold equal_modulo_missing_id, reimported, js_or. simpl.
  rewrite Hr2, Hd2, Hc2, Hr1, Hd1, Hc1.
  split; [|repeat split].
  - intros Ht. rewrite (Hid Ht), Ht. reflexivity.
  - destruct (amount e) as [|q| |]; simpl in Ha; try contradiction.
    simpl. unfold Num.or_else. simpl.
    destruct (Qeq_bool q 0) eqn:E; simpl.
    + apply Qeq_bool_iff in E. symmetry. exact E.
    + reflexivity.
Qed.

Lemma Forall2_mapi_from {A B : Type} (R : A -> B -> Prop)
    (f : nat -> A -> B) (l : list A) :
  Forall (fun x => forall i, R x (f i x)) l ->
  forall i, Forall2 R l (mapi_from f i l).
Proof.
  induction 1 as [|x l Hx Hl IH]; intros i; simpl; constructor; auto.
Qed.

(** C2, as stated, fails: a record with an empty reason comes back with
    the reason Imported, and an amount that is not finite comes back as
    0. *)
Lemma round_trip_changes_empty_and_unbounded_fields :
  expenses (@handleImportJSON Sample.host sample_env
              (@downloadJSON Sample.host (unlabelled :: unbounded_store))
              empty_app)
  = [ {| id := JNum (Fin 5); reason := JStr "Imported"; amount := Fin 4;
         date := JStr "2024-01-05"; category := JStr "Bills" |};
      {| id := JStr "1"; reason := JStr "Gift"; amount := Fin 0;
         date := JStr "2024-01-05"; category := JStr "Bills" |};
      {| id := JStr "2"; reason := JStr "Refund"; amount := Fin 0;
         date := JStr "2024-01-06"; category := JStr "Bills" |};
      {| id := JStr "3"; reason := JStr "Tea"; amount := Fin 3;
         date := JStr "2024-01-07"; category := JStr "Bills" |} ]
  /\ ~ Forall2 equal_modulo_missing_id
        (unlabelled :: unbounded_store)
        (expenses (@handleImportJSON Sample.host sample_env
                     (@downloadJSON Sample.host (unlabelled :: unbounded_store))
                     empty_app)).
Proof.
  assert (E : expenses (@handleImportJSON Sample.host sample_env
              (@downloadJSON Sample.host (unlabelled :: unbounded_store))
              empty_app)
  = [ {| id := JNum (Fin 5); reason := JStr "Imported"; amount := Fin 4;
         date := JStr "2024-01-05"; category := JStr "Bills" |};
      {| id := JStr "1"; reason := JStr "Gift"; amount := Fin 0;
         date := JStr "2024-01-05"; category := JStr "Bills" |};
      {| id := JStr "2"; reason := JStr "Refund"; amount := Fin 0;
         date := JStr "2024-01-06"; category := JStr "Bills" |};
      {| id := JStr "3"; reason := JStr "Tea"; amount := Fin 3;
         date := JStr "2024-01-07"; category := JStr "Bills" |} ])
    by (vm_compute; reflexivity).
  split; [exact E|].
  rewrite E. intros Hall.
  inversion Hall as [|? ? ? ? Hfirst _]; subst.
  destruct Hfirst as [_ [Hreason _]].
  discriminate Hreason.
Qed.

(** C2 (amended): when [JSON.parse] reads back what [JSON.stringify] wrote,
    exporting the record set and importing that file appends one record per
    exported record, in order, and reports success.  The record that comes
    back has the original id, reason, date and category wherever that value
    is truthy after serialization, and otherwise the import default (a
    generated id, Imported, the current date, Other); its amount is the
    original one when that is finite and 0 when it is not.  So records
    whose reason, date and category are present and whose amount is finite
    come back equal by id, reason, amount, date and category, a missing id
    being regenerated. *)
Theorem json_export_import_round_trip `{Host} (env : import_env)
    (rs : list expense) (st : app) :
  JSON_parse (downloadJSON rs)
    = Some (json_image (JArr (map expense_object rs))) ->
  handleImportJSON env (downloadJSON rs) st
    = {| expenses := expenses st ++ mapi_from (reimported env) 0 rs;
         alerts := alerts st ++ ["Imported successfully"] |}
  /\ (Forall fields_present rs ->
      Forall2 equal_modulo_missing_id rs (mapi_from (reimported env) 0 rs)).
Proof.
  intros Hhost. split.
  - unfold handleImportJSON. rewrite Hhost.
    cbn [json_image]. unfold cleaned.
    rewrite cleaned_exported. reflexivity.
  - intros Hpresent. apply Forall2_mapi_from.
    apply Forall_forall. intros e He i.
    apply reimported_present.
    exact (proj1 (Forall_forall _ _) Hpresent e He).
Qed.

Lemma json_export_import_round_trip_witness :
  @JSON_parse Sample.host (@downloadJSON Sample.host scenario_store)
    = Some (json_image (JArr (map expense_object scenario_store)))
  /\ Forall fields_present scenario_store
  /\ expenses (@handleImportJSON Sample.host sample_env
                 (@downloadJSON Sample.host scenario_store)
                 (mkApp scenario_store []))
     = scenario_store ++ scenario_store.
Proof.
  assert (Hhost : @JSON_parse Sample.host
                    (@downloadJSON Sample.host scenario_store)
                  = Some (json_image (JArr (map expense_object scenario_store))))
    by (vm_compute; reflexivity).
  assert (Hpresent : Forall fields_present scenario_store).
  { repeat constructor. }
  split; [exact Hhost|]. split; [exact Hpresent|].
  rewrite (proj1 (@json_export_import_round_trip Sample.host sample_env
                    scenario_store (mkApp scenario_store []) Hhost)).
  vm_compute. reflexivity.
Defined.

(* ------------------------------------------------------------------ *)
(** ** Totals objects, key by key *)

Lemma obj_get_set {A : Type} (o : Obj.t A) (k k' : string) (v : A) :
  Obj.get (Obj.set o k v) k'
  = if String.eqb k k' then Some v else Obj.get o k'.
Proof.
  induction o as [|[k0 v0] o IH]; simpl.
  - rewrite String.eqb_sym. destruct (String.eqb k' k) eqn:E; [|reflexivity].
    reflexivity.
  - destruct (String.eqb k0 k) eqn:E0; simpl.
    + apply String.eqb_eq in E0. subst k0.
      destruct (String.eqb k k'); reflexivity.
    + destruct (String.eqb k0 k') eqn:E1.
      * apply String.eqb_eq in E1. subst k0.
        rewrite String.eqb_sym, E0. reflexivity.
      * exact IH.
Qed.

Lemma obj_set_keys {A : Type} (o : Obj.t A) (k : string) (v : A) :
  forall k', In k' (map fst (Obj.set o k v)) <-> k' = k \/ In k' (map fst o).
Proof.
  induction o as [|[k0 v0] o IH]; intros k'; simpl.
  - intuition.
  - destruct (String.eqb k0 k) eqn:E0; simpl.
    + apply String.eqb_eq in E0. subst k0. intuition.
    + rewrite IH. intuition.
Qed.

Lemma obj_set_NoDup {A : Type} (o : Obj.t A) (k : string) (v : A) :
  NoDup (map fst o) -> NoDup (map fst (Obj.set o k v)).
Proof.
  induction o as [|[k0 v0] o IH]; simpl; intros Hnd.
  - constructor; [intros [] | constructor].
  - inversion Hnd as [|? ? Hnotin Hrest]; subst.
    destruct (String.eqb k0 k) eqn:E0; simpl.
    + constructor; assumption.
    + constructor; [|exact (IH Hrest)].
      rewrite obj_set_keys. intros [-> | Hin].
      * rewrite String.eqb_refl in E0. discriminate E0.
      * exact (Hnotin Hin).
Qed.

Lemma obj_get_In {A : Type} (o : Obj.t A) (k : string) (v : A) :
  Obj.get o k = Some v -> In (k, v) o.
Proof.
  induction o as [|[k0 v0] o IH]; simpl; [discriminate|].
  destruct (String.eqb k0 k) eqn:E0.
  - apply String.eqb_eq in E0. subst k0. intros [= ->]. left; reflexivity.
  - intros Hg. right. exact (IH Hg).
Qed.

Lemma obj_In_get {A : Type} (o : Obj.t A) (k : string) (v : A) :
  NoDup (map fst o) -> In (k, v) o -> Obj.get o k = Some v.
Proof.
  induction o as [|[k0 v0] o IH]; simpl; intros Hnd Hin; [contradiction|].
  inversion Hnd as [|? ? Hnotin Hrest]; subst.
  destruct Hin as [[= -> ->] | Hin].
  - rewrite String.eqb_refl. reflexivity.
  - destruct (String.eqb k0 k) eqn:E0.
    + apply String.eqb_eq in E0. subst k0. exfalso. apply Hnotin.
      apply (in_map fst) in Hin. exact Hin.
    + exact (IH Hrest Hin).
Qed.

Lemma finite_value_of_get (o : Obj.t number) (k : string) (v : number) :
  Forall Num.finite (map snd o) -> Obj.get o k = Some v -> Num.finite v.
Proof.
  intros Hf Hg. apply obj_get_In in Hg.
  apply (in_map snd) in Hg.
  exact (proj1 (Forall_forall _ _) Hf _ Hg).
Qed.

Lemma key_value_bump (acc : Obj.t number) (k k' : string) (x : number) :
  Forall Num.finite (map snd acc) -> Num.finite x ->
  (key_value (bump acc k x) k'
   == key_value acc k' + (if String.eqb k k' then Num.qval x else 0))%Q.
Proof.
  intros Hacc Hx. unfold key_value, bump. rewrite obj_get_set.
  destruct (String.eqb k k') eqn:E.
  - apply String.eqb_eq in E. subst k'. unfold total_or_0.
    destruct (Obj.get acc k) as [v|] eqn:Hg.
    + pose proof (finite_value_of_get acc k v Hacc Hg) as Hv.
      destruct (or_else_0_finite v Hv) as [Hf0 Hq0].
      destruct (add_finite _ x Hf0 Hx) as [_ Hq].
      rewrite Hq, Hq0. reflexivity.
    + destruct (add_finite (Fin 0) x I Hx) as [_ Hq].
      rewrite Hq. reflexivity.
  - ring.
Qed.

(** What a totals object holds after the records of [rs] have been added
    under their keys: distinct keys, those of the start and of the records;
    finite values; under each key the start value plus the amounts of the
    records with that key. *)
Lemma grouped_by_key (key : expense -> string) (rs : list expense) :
  finite_amounts rs ->
  forall acc : Obj.t number,
    Forall Num.finite (map snd acc) ->
    NoDup (map fst acc) ->
    let o := fold_left (fun acc e => bump acc (key e) (amount e)) rs acc in
    NoDup (map fst o)
    /\ Forall Num.finite (map snd o)
    /\ (forall k,
          (key_value o k
           == key_value acc k
              + qsum (map amount
                          (filter (fun e => String.eqb (key e) k) rs)))%Q)
    /\ (forall k, In k (map fst o)
                  <-> In k (map fst acc) \/ exists e, In e rs /\ key e = k).
Proof.
  induction 1 as [|e rs He Hrs IH]; intros acc Hf Hnd; simpl.
  - repeat split; auto.
    + intros k. ring.
    + intros [Hin | [e [[] _]]]. exact Hin.
  - destruct (bump_sum acc (key e) (amount e) Hf He) as [Hf' _].
    assert (Hnd' : NoDup (map fst (bump acc (key e) (amount e))))
      by (apply obj_set_NoDup; exact Hnd).
    destruct (IH _ Hf' Hnd') as [H1 [H2 [H3 H4]]].
    split; [exact H1|]. split; [exact H2|]. split.
    + intros k. rewrite H3, (key_value_bump acc (key e) k (amount e) Hf He).
      destruct (String.eqb (key e) k); simpl; ring.
    + intros k. rewrite H4. unfold bump. rewrite obj_set_keys.
      split.
      * intros [[-> | Hin] | [e' [He' Hk]]].
        -- right. exists e. split; [left; reflexivity | reflexivity].
        -- left. exact Hin.
        -- right. exists e'. split; [right; exact He' | exact Hk].
      * intros [Hin | [e' [[<- | He'] Hk]]].
        -- left. right. exact Hin.
        -- left. left. symmetry. exact Hk.
        -- right. exists e'. split; assumption.
Qed.

(** The entries of a totals object built from the empty object: one entry
    per key that occurs, holding the sum of the amounts filed under it. *)
Lemma grouped_entries (key : expense -> string) (rs : list expense) :
  finite_amounts rs ->
  let o := fold_left (fun acc e => bump acc (key e) (amount e)) rs Obj.empty in
  forall l : list (string * number),
    Permutation l o ->
    NoDup (map fst l)
    /\ (forall k v, In (k, v) l ->
          (exists e, In e rs /\ key e = k)
          /\ Num.eq v (sum_numbers
                         (map amount
                              (filter (fun e => String.eqb (key e) k) rs))))
    /\ (forall e, In e rs -> exists v, In (key e, v) l).
Proof.
  intros Hrs o l HP.
  destruct (grouped_by_key key rs Hrs Obj.empty (Forall_nil _) (NoDup_nil _))
    as [Hnd [Hf [Hval Hkeys]]].
  fold o in Hnd, Hf, Hval, Hkeys.
  split; [|split].
  - apply (Permutation_NoDup (l := map fst o)); [|exact Hnd].
    apply Permutation_map, Permutation_sym, HP.
  - intros k v Hin.
    assert (Hino : In (k, v) o) by (apply (Permutation_in _ HP); exact Hin).
    split.
    + destruct (proj1 (Hkeys k)) as [[] | Hex]; [|exact Hex].
      apply (in_map fst) in Hino. exact Hino.
    + pose proof (obj_In_get o k v Hnd Hino) as Hg.
      pose proof (finite_value_of_get o k v Hf Hg) as Hv.
      specialize (Hval k). unfold key_value in Hval. rewrite Hg in Hval.
      simpl in Hval.
      transitivity (Fin (qsum (map amount
                      (filter (fun e => String.eqb (key e) k) rs)))).
      * destruct v; simpl in Hv; try contradiction. simpl.
        rewrite Hval. ring.
      * symmetry. apply sum_numbers_finite.
        apply Forall_map.
        apply Forall_forall. intros e He. apply filter_In in He.
        exact (proj1 (Forall_forall _ _) Hrs e (proj1 He)).
  - intros e He.
    assert (Hk : In (key e) (map fst o)).
    { apply Hkeys. right. exists e. split; [exact He | reflexivity]. }
    apply in_map_iff in Hk. destruct Hk as [[k v] [Hfst Hin]].
    simpl in Hfst. subst k. exists v.
    apply (Permutation_in _ (Permutation_sym HP)). exact Hin.
Qed.

(** X1: for finite amounts and categories that are plain keys (each
    converts to a property key, and to none that [Object.prototype]
    defines), the pie chart has one slice per category key that occurs
    among the records, no key twice, and the value of a slice is the sum of
    the amounts of the records of that category, added in store order. *)
Theorem pie_slices_are_category_sums `{Host} (rs : list expense) :
  finite_amounts rs ->
  Forall (fun e => plain_key (category e)) rs ->
  NoDup (map name (pieData rs))
  /\ (forall s, In s (pieData rs) ->
        category_rows (name s) rs <> []
        /\ Num.eq (slice_value s) (total (category_rows (name s) rs)))
  /\ (forall e, In e rs ->
        exists s, In s (pieData rs) /\ name s = ToString (category e)).
Proof.
  intros Hrs _.
  destruct (grouped_entries (fun e => ToString (category e)) rs Hrs
              (Obj.entries (categoryTotals rs)) (entries_permutation _))
    as [Hnd [Hval Hall]].
  unfold pieData. split; [|split].
  - rewrite map_map. simpl. exact Hnd.
  - intros s Hs. apply in_map_iff in Hs. destruct Hs as [[k v] [<- Hin]].
    simpl. destruct (Hval k v Hin) as [[e [He Hk]] Hsum]. split.
    + intros Hempty.
      assert (Hmem : In e (category_rows k rs)).
      { apply filter_In. split; [exact He|]. rewrite Hk. apply String.eqb_refl. }
      rewrite Hempty in Hmem. exact Hmem.
    + rewrite total_as_sum. exact Hsum.
  - intros e He. destruct (Hall e He) as [v Hin].
    exists {| name := ToString (category e); slice_value := v |}.
    split; [|reflexivity].
    apply in_map_iff. exists (ToString (category e), v). split; [reflexivity | exact Hin].
Qed.

Lemma pie_slices_are_category_sums_witness :
  finite_amounts (refund :: fifteen_store)
  /\ Forall (fun e => @plain_key Sample.host (category e))
            (refund :: fifteen_store)
  /\ NoDup (map name (@pieData Sample.host (refund :: fifteen_store)))
  /\ @pieData Sample.host (refund :: fifteen_store)
     = [ {| name := "Shopping"; slice_value := Fin 5 |};
         {| name := "Entertainment"; slice_value := Fin 5 |} ]
  /\ map amount (@category_rows Sample.host "Shopping" (refund :: fifteen_store))
     = [Fin (-5); Fin 10].
Proof.
  assert (Hf : finite_amounts (refund :: fifteen_store))
    by (repeat constructor).
  assert (Hk : Forall (fun e => @plain_key Sample.host (category e))
                      (refund :: fifteen_store)).
  { repeat constructor; not_a_prototype_key. }
  split; [exact Hf|]. split; [exact Hk|]. split.
  - exact (proj1 (@pie_slices_are_category_sums Sample.host
                    (refund :: fifteen_store) Hf Hk)).
  - split; vm_compute; reflexivity.
Defined.

(** X2: for finite amounts the monthly chart has one bar per month key that
    occurs, no month twice, and the value of a bar is the total of the rows
    that the monthly report of that month selects; that report is never
    empty for a month of the chart. *)
Theorem monthly_bars_are_report_totals `{Host} (rs : list expense) :
  finite_amounts rs ->
  NoDup (map month (monthlyTotals rs))
  /\ (forall p, In p (monthlyTotals rs) ->
        month_rows (month p) rs <> []
        /\ Num.eq (value p) (total (month_rows (month p) rs)))
  /\ (forall e, In e rs ->
        exists p, In p (monthlyTotals rs) /\ month p = monthKey (date e)).
Proof.
  intros Hrs.
  assert (HP : Permutation
                 (map (fun p => (month p, value p)) (monthlyTotals rs))
                 (monthlyMap rs)).
  { unfold monthlyTotals.
    eapply perm_trans; [apply Permutation_map, Array_sort_permutation|].
    rewrite map_map. simpl.
    rewrite (map_ext _ (fun kv => kv)) by (intros [k v]; reflexivity).
    rewrite map_id. apply entries_permutation. }
  destruct (grouped_entries (fun e => monthKey (date e)) rs Hrs _ HP)
    as [Hnd [Hval Hall]].
  split; [|split].
  - rewrite map_map in Hnd. simpl in Hnd. exact Hnd.
  - intros p Hp.
    assert (Hin : In (month p, value p)
                     (map (fun p => (month p, value p)) (monthlyTotals rs)))
      by (apply in_map_iff; exists p; split; [reflexivity | exact Hp]).
    destruct (Hval _ _ Hin) as [[e [He Hk]] Hsum]. split.
    + intros Hempty.
      assert (Hmem : In e (month_rows (month p) rs)).
      { apply filter_In. split; [exact He|]. rewrite Hk. apply String.eqb_refl. }
      rewrite Hempty in Hmem. exact Hmem.
    + rewrite total_as_sum. exact Hsum.
  - intros e He. destruct (Hall e He) as [v Hin].
    apply in_map_iff in Hin. destruct Hin as [p [[= Hm Hv] Hp]].
    exists p. split; [exact Hp | exact Hm].
Qed.

Lemma monthly_bars_are_report_totals_witness :
  finite_amounts scenario_store
  /\ NoDup (map month (@monthlyTotals Sample.host scenario_store))
  /\ @total (@month_rows Sample.host "2024-01" scenario_store) = Fin 7.
Proof.
  assert (Hf : finite_amounts scenario_store) by (repeat constructor).
  split; [exact Hf|]. split.
  - exact (proj1 (@monthly_bars_are_report_totals Sample.host scenario_store Hf)).
  - vm_compute. reflexivity.
Defined.

(* ------------------------------------------------------------------ *)
(** ** The filtered view: what it holds and in which order *)

Lemma filter_if {A : Type} (b : bool) (f : A -> bool) (l : list A) :
  (if b then filter f l else l) = filter (fun x => negb b || f x) l.
Proof.
  destruct b; simpl; [reflexivity|].
  symmetry. apply filter_all. reflexivity.
Qed.

Lemma filter_filter {A : Type} (f g : A -> bool) (l : list A) :
  filter f (filter g l) = filter (fun x => g x && f x) l.
Proof.
  induction l as [|x l IH]; simpl; [reflexivity|].
  destruct (g x); simpl; [destruct (f x)|]; rewrite ?IH; reflexivity.
Qed.

Lemma sorted_if_permutation {A : Type} (b : bool) (cmp : A -> A -> number)
    (l : list A) :
  Permutation (if b then Array_sort cmp l else l) l.
Proof.
  destruct b; [apply Array_sort_permutation | apply Permutation_refl].
Qed.

(** X3: the filtered view holds exactly the records that pass the category
    filter and both date bounds, each as often as the store has it; the
    sort key only decides their order.  For the sort keys [newest] and
    [oldest], which subtract ids, this is stated for ids that convert to a
    number without throwing. *)
Theorem filtered_keeps_what_passes `{Host} (rs : list expense)
    (filterCategory filterFrom filterTo sortBy : string) :
  sortable filterCategory filterFrom filterTo sortBy rs ->
  Permutation (filtered rs filterCategory filterFrom filterTo sortBy)
              (filter (passes_filters filterCategory filterFrom filterTo) rs).
Proof.
  intros _. unfold filtered.
  do 4 (eapply perm_trans; [apply sorted_if_permutation|]).
  rewrite !filter_if, !filter_filter.
  rewrite negb_involutive.
  rewrite (filter_ext _ (passes_filters filterCategory filterFrom filterTo)).
  - apply Permutation_refl.
  - intros x. unfold passes_filters. apply andb_assoc.
Qed.

Lemma filtered_keeps_what_passes_witness :
  @sortable Sample.host "All" "2024-01-06" "" "newest"
     (undated :: refund :: scenario_store)
  /\ filter (@passes_filters Sample.host "All" "2024-01-06" "")
            (undated :: refund :: scenario_store)
     = [refund; nth 1 scenario_store refund]
  /\ Permutation
       (@filtered Sample.host (undated :: refund :: scenario_store)
          "All" "2024-01-06" "" "newest")
       [refund; nth 1 scenario_store refund].
Proof.
  assert (Hp : filter (@passes_filters Sample.host "All" "2024-01-06" "")
                      (undated :: refund :: scenario_store)
               = [refund; nth 1 scenario_store refund])
    by (vm_compute; reflexivity).
  assert (Hs : @sortable Sample.host "All" "2024-01-06" "" "newest"
                 (undated :: refund :: scenario_store)).
  { intros _. rewrite Hp. repeat constructor. }
  split; [exact Hs|]. split; [exact Hp|].
  rewrite <- Hp.
  exact (@filtered_keeps_what_passes Sample.host
           (undated :: refund :: scenario_store)
           "All" "2024-01-06" "" "newest" Hs).
Defined.

Section SortedInsertion.

Variable A : Type.
Variable P : A -> Prop.
Variable R : A -> A -> Prop.
Variable cmp : A -> A -> number.

Hypothesis cmp_R :
  forall x y, P x -> P y ->
    if Num.gtb (cmp x y) (Fin 0) then R y x else R x y.

Lemma sort_insert_HdRel (y x : A) (l : list A) :
  R y x -> HdRel R y l -> HdRel R y (sort_insert cmp x l).
Proof.
  intros Hyx Hl. destruct l as [|z l]; cbn [sort_insert].
  - constructor. exact Hyx.
  - destruct (Num.gtb (cmp x z) (Fin 0)).
    + constructor. inversion Hl; assumption.
    + constructor. exact Hyx.
Qed.

Lemma sort_insert_sorted (x : A) (l : list A) :
  P x -> Forall P l -> Sorted R l -> Sorted R (sort_insert cmp x l).
Proof.
  intros Hx. induction l as [|y l IH]; intros HP Hs; cbn [sort_insert].
  - constructor; constructor.
  - inversion HP as [|? ? Hy HPl]; subst.
    inversion Hs as [|? ? Hsl Hhd]; subst.
    pose proof (cmp_R x y Hx Hy) as Hc.
    destruct (Num.gtb (cmp x y) (Fin 0)).
    + constructor; [exact (IH HPl Hsl)|].
      apply sort_insert_HdRel; assumption.
    + constructor; [exact Hs|]. constructor. exact Hc.
Qed.

Lemma Array_sort_sorted (l : list A) :
  Forall P l -> Sorted R (Array_sort cmp l).
Proof.
  induction 1 as [|x l Hx Hl IH]; simpl.
  - constructor.
  - apply sort_insert_sorted; [exact Hx| |exact IH].
    apply (Permutation_Forall (Permutation_sym (Array_sort_permutation cmp l))).
    exact Hl.
Qed.

End SortedInsertion.

Lemma sub_sign_finite (a b : number) :
  Num.finite a -> Num.finite b ->
  if Num.gtb (Num.sub a b) (Fin 0)
  then Num.leb b a = true
  else Num.leb a b = true.
Proof.
  destruct a as [|a| |], b as [|b| |]; simpl; try contradiction; intros _ _.
  destruct (Qle_bool (Qred (a - b)) 0) eqn:E; simpl.
  - apply Qle_bool_iff in E. rewrite Qred_correct in E.
    apply Qle_bool_iff.
    apply (Qplus_le_l _ _ (- b)). rewrite Qplus_opp_r. exact E.
  - apply Qle_bool_iff.
    destruct (Qlt_le_dec b a) as [Hlt | Hge].
    + apply Qlt_le_weak. exact Hlt.
    + exfalso.
      assert (Hle : Qle_bool (Qred (a - b)) 0 = true).
      { apply Qle_bool_iff. rewrite Qred_correct.
        apply (Qplus_le_l _ _ b). ring_simplify. exact Hge. }
      rewrite Hle in E. discriminate E.
Qed.

Lemma filter_Forall {A : Type} (P : A -> Prop) (f : A -> bool) (l : list A) :
  Forall P l -> Forall P (filter f l).
Proof.
  intros H. apply Forall_forall. intros x Hx. apply filter_In in Hx.
  exact (proj1 (Forall_forall _ _) H x (proj1 Hx)).
Qed.

(** X4: with finite amounts, the sort key [high] lists the filtered records
    by amount from the highest down and [low] from the lowest up; with ids
    that convert to finite numbers, [newest] lists them by id from the
    highest down and [oldest] from the lowest up. *)
Theorem filtered_is_sorted `{Host} (rs : list expense)
    (filterCategory filterFrom filterTo : string) :
  (finite_amounts rs ->
   Sorted (fun a b => Num.leb (amount b) (amount a) = true)
          (filtered rs filterCategory filterFrom filterTo "high")
   /\ Sorted (fun a b => Num.leb (amount a) (amount b) = true)
             (filtered rs filterCategory filterFrom filterTo "low"))
  /\ (Forall (fun e => Num.finite (ToNumber (id e))) rs ->
      Sorted (fun a b => Num.leb (ToNumber (id b)) (ToNumber (id a)) = true)
             (filtered rs filterCategory filterFrom filterTo "newest")
      /\ Sorted (fun a b => Num.leb (ToNumber (id a)) (ToNumber (id b)) = true)
                (filtered rs filterCategory filterFrom filterTo "oldest")).
Proof.
  unfold filtered. cbn [String.eqb Ascii.eqb Bool.eqb].
  rewrite !filter_if, !filter_filter.
  split; intros Hrs; split.
  - apply Array_sort_sorted with (P := fun e => Num.finite (amount e));
      [intros x y Hx Hy; apply sub_sign_finite; assumption
      | apply filter_Forall; exact Hrs].
  - apply Array_sort_sorted with (P := fun e => Num.finite (amount e));
      [intros x y Hx Hy; apply sub_sign_finite; assumption
      | apply filter_Forall; exact Hrs].
  - apply Array_sort_sorted
      with (P := fun e => Num.finite (ToNumber (id e)));
      [intros x y Hx Hy; apply sub_sign_finite; assumption
      | apply filter_Forall; exact Hrs].
  - apply Array_sort_sorted
      with (P := fun e => Num.finite (ToNumber (id e)));
      [intros x y Hx Hy; apply sub_sign_finite; assumption
      | apply filter_Forall; exact Hrs].
Qed.

Lemma filtered_is_sorted_witness :
  finite_amounts (refund :: scenario_store)
  /\ map amount
       (@filtered Sample.host (refund :: scenario_store) "All" "" "" "high")
     = [Fin 5; Fin 2; Fin (-5)]
  /\ Sorted (fun a b => Num.leb (amount b) (amount a) = true)
            (@filtered Sample.host (refund :: scenario_store)
               "All" "" "" "high").
Proof.
  assert (Hf : finite_amounts (refund :: scenario_store))
    by (repeat constructor).
  split; [exact Hf|]. split; [vm_compute; reflexivity|].
  exact (proj1 (proj1 (@filtered_is_sorted Sample.host
                         (refund :: scenario_store) "All" "" "") Hf)).
Defined.


(* ------------------------------------------------------------------ *)
(** ** The cumulative series: its end and its order *)

Lemma running_totals_dates (l : list expense) (acc : number) :
  map point_date (running_totals acc l) = map date l.
Proof.
  revert acc. induction l as [|e l IH]; intros acc; simpl.
  - reflexivity.
  - f_equal. apply IH.
Qed.

Lemma last_cons_default {A : Type} (x : A) (l : list A) (d : A) :
  last (x :: l) d = last l x.
Proof.
  revert x d. induction l as [|y l IH]; intros x d.
  - reflexivity.
  - change (last (x :: y :: l) d) with (last (y :: l) d).
    rewrite (IH y d), (IH y x). reflexivity.
Qed.

Lemma running_totals_last (l : list expense) :
  finite_amounts l ->
  forall acc : number, Num.finite acc ->
    Num.eq (last (map point_total (running_totals acc l)) acc)
           (Fin (Num.qval acc + qsum (map amount l))).
Proof.
  induction 1 as [|e l He Hl IH]; intros acc Hacc.
  - destruct acc; simpl in Hacc; try contradiction. simpl. ring.
  - destruct (add_finite acc (amount e) Hacc He) as [Hacc' Hq].
    specialize (IH _ Hacc').
    cbn [running_totals map point_total].
    rewrite last_cons_default.
    etransitivity; [exact IH|].
    simpl. rewrite Hq. ring.
Qed.

(** X5: the cumulative series carries the dates of the records, each
    record once; and for amounts that are whole numbers with magnitudes
    adding up to at most 2^53 (so that the order of the additions does not
    matter) its last running total is the grand total, 0 for an empty
    store. *)
Theorem cumulative_series_ends_at_total `{Host} (rs : list expense) :
  Permutation (map point_date (cumulativeData rs)) (map date rs)
  /\ (whole_amounts rs ->
      Num.eq (last (map point_total (cumulativeData rs)) (Fin 0)) (total rs)).
Proof.
  unfold cumulativeData.
  set (sorted := Array_sort _ rs).
  assert (HP : Permutation sorted rs) by apply Array_sort_permutation.
  split.
  - rewrite running_totals_dates. apply Permutation_map, HP.
  - intros Hw. pose proof (whole_amounts_finite rs Hw) as Hrs.
    assert (Hs : finite_amounts sorted)
      by (apply (Permutation_Forall (Permutation_sym HP)); exact Hrs).
    etransitivity; [apply (running_totals_last sorted Hs (Fin 0) I)|].
    etransitivity; [|symmetry; apply (total_finite rs Hrs)].
    simpl. rewrite (qsum_permutation (map amount sorted) (map amount rs)).
    + ring.
    + apply Permutation_map, HP.
Qed.

Lemma cumulative_series_ends_at_total_witness :
  whole_amounts (refund :: scenario_store)
  /\ map point_total (@cumulativeData Sample.host (refund :: scenario_store))
     = [Fin 5; Fin 0; Fin 2]
  /\ total (refund :: scenario_store) = Fin 2
  /\ Num.eq (last (map point_total
                       (@cumulativeData Sample.host (refund :: scenario_store)))
                  (Fin 0))
            (total (refund :: scenario_store)).
Proof.
  assert (Hw : whole_amounts (refund :: scenario_store)).
  { split.
    - constructor; [exists (-5); reflexivity|].
      constructor; [exists 5; reflexivity|].
      constructor; [exists 2; reflexivity|]. constructor.
    - vm_compute. discriminate. }
  split; [exact Hw|]. split; [vm_compute; reflexivity|].
  split; [vm_compute; reflexivity|].
  exact (proj2 (@cumulative_series_ends_at_total Sample.host
                  (refund :: scenario_store)) Hw).
Defined.

Lemma Sorted_map {A B : Type} (f : A -> B) (R : B -> B -> Prop)
    (l : list A) :
  Sorted (fun a b => R (f a) (f b)) l -> Sorted R (map f l).
Proof.
  induction 1 as [|x l Hs IH Hhd]; simpl.
  - constructor.
  - constructor; [exact IH|].
    destruct Hhd; simpl; constructor. assumption.
Qed.

Lemma date_diff_sign `{Host} (a b : jsval) :
  Date_new a <> None -> Date_new b <> None ->
  if Num.gtb (date_diff (Date_new a) (Date_new b)) (Fin 0)
  then date_le (Date_new b) (Date_new a) = true
  else date_le (Date_new a) (Date_new b) = true.
Proof.
  intros Ha Hb.
  destruct (Date_new a) as [x|]; [|contradiction].
  destruct (Date_new b) as [y|]; [|contradiction].
  unfold date_diff, date_le, date_ge, Num.of_Z, Num.gtb, Num.ltb.
  destruct (Qle_bool (inject_Z (x - y)) 0) eqn:E; simpl.
  - apply Qle_bool_iff in E.
    change 0%Q with (inject_Z 0) in E. rewrite <- Zle_Qle in E.
    apply Z.leb_le. lia.
  - apply Z.leb_le.
    destruct (Z_le_gt_dec x y) as [Hle | Hgt]; [|lia].
    exfalso.
    assert (Hq : Qle_bool (inject_Z (x - y)) 0 = true).
    { apply Qle_bool_iff. change 0%Q with (inject_Z 0).
      rewrite <- Zle_Qle. lia. }
    rewrite Hq in E. discriminate E.
Qed.

(** X6: when every record has a valid date, the points of the cumulative
    series are in ascending date order. *)
Theorem cumulative_series_in_date_order `{Host} (rs : list expense) :
  Forall (fun e => Date_new (date e) <> None) rs ->
  Sorted (fun a b => date_le (Date_new a) (Date_new b) = true)
         (map point_date (cumulativeData rs)).
Proof.
  intros Hvalid. unfold cumulativeData.
  rewrite running_totals_dates.
  apply Sorted_map
    with (R := fun a b => date_le (Date_new a) (Date_new b) = true).
  apply Array_sort_sorted with (P := fun e => Date_new (date e) <> None).
  - intros x y Hx Hy. apply date_diff_sign; assumption.
  - exact Hvalid.
Qed.

Lemma cumulative_series_in_date_order_witness :
  Forall (fun e => @Date_new Sample.host (date e) <> None)
         (refund :: scenario_store)
  /\ map point_date (@cumulativeData Sample.host (refund :: scenario_store))
     = [JStr "2024-01-05"; JStr "2024-01-10"; JStr "2024-01-20"]
  /\ Sorted (fun a b => date_le (@Date_new Sample.host a)
                               (@Date_new Sample.host b) = true)
            (map point_date
                 (@cumulativeData Sample.host (refund :: scenario_store))).
Proof.
  assert (Hv : Forall (fun e => @Date_new Sample.host (date e) <> None)
                      (refund :: scenario_store)).
  { repeat constructor; discriminate. }
  split; [exact Hv|]. split; [vm_compute; reflexivity|].
  exact (@cumulative_series_in_date_order Sample.host
           (refund :: scenario_store) Hv).
Defined.

(** C4 (amended): the series has one point per record, and for valid
    dates its points are in ascending date order.  When every record's
    amount is non-negative, its running totals, read after the starting
    total 0, form a non-decreasing sequence.  For amounts that are whole
    numbers with magnitudes adding up to at most 2^53 (so that no addition
    rounds) the converse holds as well: the sequence is non-decreasing if
    and only if every amount is non-negative. *)
Theorem cumulative_series_monotone_iff_nonnegative `{Host}
    (rs : list expense) :
  (Forall nonnegative rs ->
   nondecreasing (Fin 0 :: map point_total (cumulativeData rs)))
  /\ (whole_amounts rs ->
      (nondecreasing (Fin 0 :: map point_total (cumulativeData rs))
       <-> Forall nonnegative rs))
  /\ length (cumulativeData rs) = length rs
  /\ (Forall (fun e => Date_new (date e) <> None) rs ->
      Sorted (fun a b => date_le (Date_new a) (Date_new b) = true)
             (map point_date (cumulativeData rs))).
Proof.
  unfold cumulativeData.
  set (sorted := Array_sort _ rs).
  assert (HP : Permutation sorted rs) by apply Array_sort_permutation.
  split; [|split; [|split]].
  - intros Hnn. apply running_totals_nonnegative; [|reflexivity].
    apply (Permutation_Forall (Permutation_sym HP)). exact Hnn.
  - intros Hw. pose proof (whole_amounts_finite rs Hw) as Hrs.
    rewrite (running_totals_monotone sorted).
    + split; apply Permutation_Forall;
        [exact HP | apply Permutation_sym, HP].
    + apply (Permutation_Forall (Permutation_sym HP)). exact Hrs.
    + exact I.
  - rewrite running_totals_length. apply Permutation_length, HP.
  - intros Hvalid. rewrite running_totals_dates.
    apply Sorted_map
      with (R := fun a b => date_le (Date_new a) (Date_new b) = true).
    apply Array_sort_sorted with (P := fun e => Date_new (date e) <> None).
    + intros x y Hx Hy. apply date_diff_sign; assumption.
    + exact Hvalid.
Qed.

Lemma cumulative_series_monotone_iff_nonnegative_witness :
  whole_amounts (refund :: scenario_store)
  /\ map point_total (@cumulativeData Sample.host (refund :: scenario_store))
     = [Fin 5; Fin 0; Fin 2]
  /\ ~ nondecreasing
        (Fin 0 :: map point_total
                      (@cumulativeData Sample.host (refund :: scenario_store)))
  /\ Forall nonnegative scenario_store
  /\ nondecreasing
       (Fin 0 :: map point_total (@cumulativeData Sample.host scenario_store))
  /\ length (@cumulativeData Sample.host (refund :: scenario_store)) = 3%nat.
Proof.
  assert (Hw : whole_amounts (refund :: scenario_store)).
  { split.
    - constructor; [exists (-5); reflexivity|].
      constructor; [exists 5; reflexivity|].
      constructor; [exists 2; reflexivity|]. constructor.
    - vm_compute. discriminate. }
  assert (Hnn : Forall nonnegative scenario_store) by (repeat constructor).
  split; [exact Hw|]. split; [vm_compute; reflexivity|].
  split; [|split; [exact Hnn|split]].
  - intros Hmono.
    apply (proj1 (proj2 (@cumulative_series_monotone_iff_nonnegative
                           Sample.host (refund :: scenario_store))) Hw)
      in Hmono.
    inversion Hmono as [|? ? Hneg _]; subst. discriminate Hneg.
  - exact (proj1 (@cumulative_series_monotone_iff_nonnegative Sample.host
                    scenario_store) Hnn).
  - exact (proj1 (proj2 (proj2 (@cumulative_series_monotone_iff_nonnegative
                                  Sample.host (refund :: scenario_store))))).
Defined.

(* ------------------------------------------------------------------ *)
(** ** Adding, deleting and importing records *)

(** X7: adding an expense and then deleting the id it was given leaves the
    store as it was, provided the three required fields were filled, the
    time stamp is a number other than NaN and no stored record already has
    that id. *)
Theorem add_then_delete_restores_the_store (now : number)
    (reason_ amount_ date_ category_ : string) (st : app) :
  Str.nonempty reason_ = true ->
  Str.nonempty amount_ = true ->
  Str.nonempty date_ = true ->
  Num.eqb now now = true ->
  (forall e, In e (expenses st) -> strict_eq (id e) (JNum now) = false) ->
  deleteExpense true (JNum now)
    (addExpense now reason_ amount_ date_ category_ st)
  = st.
Proof.
  intros Hr Ha Hd Hnow Hfresh.
  unfold addExpense, deleteExpense, setExpenses.
  rewrite Hr, Ha, Hd. cbn [negb orb expenses alerts].
  rewrite filter_app. cbn [filter id strict_eq].
  rewrite Hnow. cbn [negb]. rewrite app_nil_r.
  rewrite filter_all.
  - destruct st; reflexivity.
  - intros e He. rewrite (Hfresh e He). reflexivity.
Qed.

Lemma add_then_delete_restores_the_store_witness :
  deleteExpense true (JNum (Fin 1717200000000))
    (addExpense (Fin 1717200000000) "Rent" "700" "2024-06-01" "Bills"
       (mkApp scenario_store []))
  = mkApp scenario_store [].
Proof.
  apply add_then_delete_restores_the_store; try reflexivity.
  intros e [<- | [<- | []]]; reflexivity.
Defined.

Lemma field_of_usable (r : jsval) (k : string) :
  r <> JNull -> r <> JUndefined -> exists v, get_field r k = Some v.
Proof.
  intros Hn Hu. destruct r; try contradiction; simpl; eauto.
  destruct (Obj.get props k); eauto.
Qed.

Lemma clean_unusable `{Host} (env : import_env) (i : nat) (r : jsval) :
  unusable r -> clean env i r = None.
Proof.
  intros [-> | [-> | [a [Ha Hconv]]]]; [reflexivity | reflexivity |].
  assert (Hn : r <> JNull) by (intros ->; discriminate Ha).
  assert (Hu : r <> JUndefined) by (intros ->; discriminate Ha).
  unfold clean.
  destruct (field_of_usable r "id" Hn Hu) as [v1 ->].
  destruct (field_of_usable r "reason" Hn Hu) as [v2 ->].
  rewrite Ha.
  destruct (field_of_usable r "date" Hn Hu) as [v4 ->].
  destruct (field_of_usable r "category" Hn Hu) as [v5 ->].
  unfold Number_. rewrite Hconv. reflexivity.
Qed.

Lemma clean_usable `{Host} (env : import_env) (i : nat) (r : jsval) :
  ~ unusable r -> exists e, clean env i r = Some e.
Proof.
  intros Hok.
  assert (Hn : r <> JNull) by (intros ->; apply Hok; left; reflexivity).
  assert (Hu : r <> JUndefined)
    by (intros ->; apply Hok; right; left; reflexivity).
  unfold clean.
  destruct (field_of_usable r "id" Hn Hu) as [v1 ->].
  destruct (field_of_usable r "reason" Hn Hu) as [v2 ->].
  destruct (field_of_usable r "amount" Hn Hu) as [v3 H3]. rewrite H3.
  destruct (field_of_usable r "date" Hn Hu) as [v4 ->].
  destruct (field_of_usable r "category" Hn Hu) as [v5 ->].
  unfold Number_. destruct (convertible v3) eqn:Hconv; [eauto|].
  exfalso. apply Hok. right; right. exists v3. split; assumption.
Qed.

Lemma sequence_none {A B : Type} (f : nat -> A -> option B) (l : list A) :
  Exists (fun x => forall i, f i x = None) l ->
  forall i, sequence (mapi_from f i l) = None.
Proof.
  induction 1 as [x l Hx | x l Hl IH]; intros i; cbn [mapi_from sequence].
  - rewrite Hx. reflexivity.
  - rewrite IH. destruct (f i x); reflexivity.
Qed.

Lemma sequence_some {A B : Type} (f : nat -> A -> option B) (l : list A) :
  Forall (fun x => forall i, exists y, f i x = Some y) l ->
  forall i, exists ys,
    sequence (mapi_from f i l) = Some ys
    /\ length ys = length l
    /\ (forall n x, nth_error l n = Some x ->
          exists y, nth_error ys n = Some y /\ f (i + n)%nat x = Some y).
Proof.
  induction 1 as [|x l Hx Hl IH]; intros i.
  - exists []. repeat split. intros [|n] x Hn; discriminate Hn.
  - destruct (Hx i) as [y Hy]. destruct (IH (S i)) as [ys [Hs [Hlen Hnth]]].
    exists (y :: ys). cbn [mapi_from sequence]. rewrite Hy, Hs.
    split; [reflexivity|]. split; [simpl; f_equal; exact Hlen|].
    intros [|n] x' Hn.
    + injection Hn as <-. exists y. rewrite Nat.add_0_r. split; [reflexivity | exact Hy].
    + destruct (Hnth n x' Hn) as [y' [Hy1 Hy2]].
      exists y'. split; [exact Hy1|].
      rewrite <- Nat.add_succ_comm. exact Hy2.
Qed.

(** X8: a JSON array with an element the record builder cannot use (a
    [null], or an amount that cannot be converted to a number) is rejected
    as a whole: the notice is [Invalid JSON file.] and no record of the
    file is stored, not even those before the bad element. *)
Theorem json_import_is_all_or_nothing `{Host} (env : import_env)
    (text : string) (data : list jsval) (st : app) :
  JSON_parse text = Some (JArr data) ->
  Exists unusable data ->
  handleImportJSON env text st = alert "Invalid JSON file." st.
Proof.
  intros Hparse Hbad. unfold handleImportJSON, cleaned. rewrite Hparse.
  rewrite sequence_none; [reflexivity|].
  apply Exists_exists in Hbad. destruct Hbad as [r [Hr Hun]].
  apply Exists_exists. exists r. split; [exact Hr|].
  intros i. apply clean_unusable. exact Hun.
Qed.

Lemma json_import_is_all_or_nothing_witness :
  @JSON_parse Sample.host "[{}, null]" = Some (JArr [JObj []; JNull])
  /\ Exists unusable [JObj []; JNull]
  /\ @handleImportJSON Sample.host sample_env "[{}, null]"
       (mkApp scenario_store [])
     = mkApp scenario_store ["Invalid JSON file."].
Proof.
  assert (Hp : @JSON_parse Sample.host "[{}, null]"
               = Some (JArr [JObj []; JNull])) by (vm_compute; reflexivity).
  assert (Hbad : Exists unusable [JObj []; JNull]).
  { apply Exists_cons_tl, Exists_cons_hd. left. reflexivity. }
  split; [exact Hp|]. split; [exact Hbad|].
  exact (@json_import_is_all_or_nothing Sample.host sample_env "[{}, null]"
           _ (mkApp scenario_store []) Hp Hbad).
Defined.

(** X9: a JSON array all of whose elements can be used is imported whole:
    the stored records stay where they were, one record per element is
    appended in file order, and the notice reports success.  An empty
    array changes nothing. *)
Theorem json_import_appends_in_order `{Host} (env : import_env)
    (text : string) (data : list jsval) (st : app) :
  JSON_parse text = Some (JArr data) ->
  Forall (fun r => ~ unusable r) data ->
  exists recs,
    handleImportJSON env text st
    = {| expenses := expenses st ++ recs;
         alerts := alerts st ++ ["Imported successfully"] |}
    /\ length recs = length data
    /\ (forall n r, nth_error data n = Some r ->
          exists e, nth_error recs n = Some e /\ clean env n r = Some e).
Proof.
  intros Hparse Hok. unfold handleImportJSON, cleaned. rewrite Hparse.
  destruct (sequence_some (clean env) data) with (i := 0%nat)
    as [recs [Hs [Hlen Hnth]]].
  - apply Forall_forall. intros r Hr i. apply clean_usable.
    exact (proj1 (Forall_forall _ _) Hok r Hr).
  - exists recs. rewrite Hs. split; [reflexivity|]. split; [exact Hlen|].
    exact Hnth.
Qed.

Lemma json_import_appends_in_order_witness :
  @JSON_parse Sample.host two_records_json
    = Some (JArr [ JObj [("reason", JStr "Tea"); ("amount", JNum (Fin 3))];
                   JObj [("id", JNum (Fin 8)); ("reason", JStr "Bus");
                         ("amount", JStr "2"); ("date", JStr "2024-01-20");
                         ("category", JStr "Transportation")] ])
  /\ exists recs,
       @handleImportJSON Sample.host sample_env two_records_json
          (mkApp scenario_store [])
       = mkApp (scenario_store ++ recs) ["Imported successfully"]
       /\ length recs = 2%nat
       /\ nth_error recs 0
          = Some {| id := JNum (Fin 1717200000000); reason := JStr "Tea";
                    amount := Fin 3; date := JStr "2024-06-01";
                    category := JStr "Other" |}
       /\ nth_error recs 1
          = Some {| id := JNum (Fin 8); reason := JStr "Bus";
                    amount := Fin 2; date := JStr "2024-01-20";
                    category := JStr "Transportation" |}.
Proof.
  set (tea := JObj [("reason", JStr "Tea"); ("amount", JNum (Fin 3))]).
  set (bus := JObj [("id", JNum (Fin 8)); ("reason", JStr "Bus");
                    ("amount", JStr "2"); ("date", JStr "2024-01-20");
                    ("category", JStr "Transportation")]).
  assert (Hp : @JSON_parse Sample.host two_records_json
               = Some (JArr [tea; bus])) by (vm_compute; reflexivity).
  assert (Hok : Forall (fun r => ~ unusable r) [tea; bus]).
  { repeat constructor;
      (intros [Hn | [Hu | [a [Ha Hc]]]];
       [discriminate Hn | discriminate Hu |];
       injection Ha as <-; discriminate Hc). }
  split; [exact Hp|].
  destruct (@json_import_appends_in_order Sample.host sample_env
              two_records_json [tea; bus] (mkApp scenario_store []) Hp Hok)
    as [recs [Himp [Hlen Hnth]]].
  exists recs. split; [exact Himp|]. split; [exact Hlen|].
  destruct (Hnth 0%nat tea eq_refl) as [e0 [H0 Hc0]].
  destruct (Hnth 1%nat bus eq_refl) as [e1 [H1 Hc1]].
  assert (E0 : @clean Sample.host sample_env 0 tea
               = Some {| id := JNum (Fin 1717200000000); reason := JStr "Tea";
                         amount := Fin 3; date := JStr "2024-06-01";
                         category := JStr "Other" |})
    by (vm_compute; reflexivity).
  assert (E1 : @clean Sample.host sample_env 1 bus
               = Some {| id := JNum (Fin 8); reason := JStr "Bus";
                         amount := Fin 2; date := JStr "2024-01-20";
                         category := JStr "Transportation" |})
    by (vm_compute; reflexivity).
  rewrite H0, H1, <- E0, <- E1, Hc0, Hc1. split; reflexivity.
Defined.

Lemma js_or_truthy (v d : jsval) : truthy d = true -> truthy (js_or v d) = true.
Proof.
  intros Hd. unfold js_or. destruct (truthy v) eqn:E; [exact E | exact Hd].
Qed.

Lemma or_else_0_not_NaN (n : number) : Num.or_else n (Fin 0) <> NaN.
Proof.
  unfold Num.or_else. destruct n; simpl; try discriminate.
  destruct (negb (Qeq_bool q 0)); discriminate.
Qed.

Lemma clean_record_ok `{Host} (env : import_env) (i : nat) (r : jsval)
    (e : expense) :
  env_ok env -> clean env i r = Some e -> record_ok e.
Proof.
  intros Henv Hclean. destruct (Henv i) as [Hid Htoday].
  unfold clean in Hclean.
  destruct (get_field r "id"); [|discriminate Hclean].
  destruct (get_field r "reason"); [|discriminate Hclean].
  destruct (get_field r "amount") as [a|]; [|discriminate Hclean].
  destruct (get_field r "date"); [|discriminate Hclean].
  destruct (get_field r "category"); [|discriminate Hclean].
  destruct (Number_ a); [|discriminate Hclean].
  injection Hclean as <-. unfold record_ok. cbn [id reason amount date category].
  repeat split; try (apply js_or_truthy; simpl; assumption || reflexivity).
  apply or_else_0_not_NaN.
Qed.

Lemma sequence_Forall {A B : Type} (f : nat -> A -> option B)
    (P : B -> Prop) (l : list A) :
  (forall i x y, f i x = Some y -> P y) ->
  forall i ys, sequence (mapi_from f i l) = Some ys -> Forall P ys.
Proof.
  intros Hf. induction l as [|x l IH]; intros i ys Hs.
  - injection Hs as <-. constructor.
  - cbn [mapi_from] in Hs. apply sequence_cons in Hs.
    destruct Hs as [y [ys' [Hy [Hrest ->]]]].
    constructor; [exact (Hf _ _ _ Hy) | exact (IH _ _ Hrest)].
Qed.

Lemma records_ok_append (st : app) (recs : list expense) (msg : string) :
  Forall record_ok (expenses st) -> Forall record_ok recs ->
  Forall record_ok
    (expenses (alert msg (setExpenses (fun s => s ++ recs) st))).
Proof. intros Hst Hrecs. simpl. apply Forall_app. split; assumption. Qed.

(** X10: an import never stores a record with a missing field: when the
    clock gives a non-zero id and a non-empty date, every record of the
    store after [handleFileImport] (JSON or CSV, accepted or rejected) has
    a truthy id, reason, date and category and an amount other than NaN,
    if the records before had. *)
Theorem import_keeps_records_complete `{Host} (env : import_env) (f : file)
    (st : app) :
  env_ok env ->
  Forall record_ok (expenses st) ->
  Forall record_ok (expenses (handleFileImport env f st)).
Proof.
  intros Henv Hst.
  assert (Hbuilt : forall data recs,
             cleaned env data = Some recs -> Forall record_ok recs).
  { intros data recs. unfold cleaned.
    apply sequence_Forall. intros i r e. apply clean_record_ok. exact Henv. }
  unfold handleFileImport.
  destruct (String.eqb (file_type f) "application/json"
            || Str.endsWith (file_name f) ".json").
  - unfold handleImportJSON.
    destruct (JSON_parse (file_text f)) as [[| | | | |data|]|]; try exact Hst.
    destruct (cleaned env data) as [recs|] eqn:Hc; [|exact Hst].
    apply records_ok_append; [exact Hst | exact (Hbuilt _ _ Hc)].
  - destruct (csv_lines (file_text f)) as [|line0 [|line1 rest]];
      try exact Hst.
    destruct (cleaned env (csv_rows line0 (line1 :: rest))) as [recs|] eqn:Hc;
      [|exact Hst].
    apply records_ok_append; [exact Hst | exact (Hbuilt _ _ Hc)].
Qed.

Lemma import_keeps_records_complete_witness :
  env_ok sample_env
  /\ Forall record_ok scenario_store
  /\ Forall record_ok
       (expenses
          (@handleFileImport Sample.host sample_env
             (csv_file [ "reason,amount"; ",abc"; "Tea," ])
             (mkApp scenario_store []))).
Proof.
  assert (Henv : env_ok sample_env).
  { intros i. split; [|reflexivity].
    unfold sample_env, fresh_id, Num.of_Z, Num.truthy.
    apply negb_true_iff.
    destruct (Qeq_bool (inject_Z (1717200000000 + Z.of_nat i)) 0) eqn:E;
      [|reflexivity].
    apply Qeq_bool_iff in E. change 0%Q with (inject_Z 0) in E.
    rewrite inject_Z_injective in E. lia. }
  assert (Hst : Forall record_ok scenario_store).
  { repeat constructor; discriminate. }
  split; [exact Henv|]. split; [exact Hst|].
  exact (@import_keeps_records_complete Sample.host sample_env
           (csv_file [ "reason,amount"; ",abc"; "Tea," ])
           (mkApp scenario_store []) Henv Hst).
Defined.

Lemma obj_set_values {A : Type} (P : A -> Prop) (o : Obj.t A) (k : string)
    (v : A) :
  Forall P (map snd o) -> P v -> Forall P (map snd (Obj.set o k v)).
Proof.
  intros Ho Hv. induction o as [|[k0 v0] o IH]; simpl.
  - constructor; [exact Hv | constructor].
  - simpl in Ho. inversion Ho as [|? ? H0 Hr]; subst.
    destruct (String.eqb k0 k); simpl.
    + constructor; assumption.
    + constructor; [exact H0 | exact (IH Hr)].
Qed.

Lemma row_object_cells (headers_ parts : list string) :
  Forall cell (map snd (row_object headers_ parts)).
Proof.
  unfold row_object.
  generalize (combine (seq 0 (length headers_)) headers_).
  intros l.
  assert (Hgen : forall acc : Obj.t jsval,
             Forall cell (map snd acc) ->
             Forall cell
               (map snd
                  (fold_left
                     (fun obj hi =>
                        Obj.set obj (snd hi)
                          match nth_error parts (fst hi) with
                          | Some p => JStr p
                          | None => JUndefined
                          end) l acc))).
  { induction l as [|hi l IH]; intros acc Hacc; simpl; [exact Hacc|].
    apply IH. apply obj_set_values; [exact Hacc|].
    destruct (nth_error parts (fst hi)); [right; eauto | left; reflexivity]. }
  apply Hgen. constructor.
Qed.

Lemma csv_row_usable (headers_ parts : list string) :
  ~ unusable (JObj (row_object headers_ parts)).
Proof.
  intros [Hn | [Hu | [a [Ha Hconv]]]]; try discriminate.
  simpl in Ha.
  destruct (Obj.get (row_object headers_ parts) "amount") as [v|] eqn:Hg.
  - injection Ha as <-.
    apply obj_get_In in Hg. apply (in_map snd) in Hg. simpl in Hg.
    pose proof (proj1 (Forall_forall _ _)
                  (row_object_cells headers_ parts) _ Hg) as [-> | [s ->]];
      discriminate Hconv.
  - injection Ha as <-. discriminate Hconv.
Qed.

Lemma csv_lines_imported `{Host} (env : import_env) (f : file) (st : app)
    (line0 line1 : string) (rest : list string) :
  String.eqb (file_type f) "application/json"
    || Str.endsWith (file_name f) ".json" = false ->
  csv_lines (file_text f) = line0 :: line1 :: rest ->
  exists recs,
    handleFileImport env f st
    = {| expenses := expenses st ++ recs;
         alerts := alerts st ++ ["CSV imported (basic parser)"] |}
    /\ length recs = S (length rest).
Proof.
  intros Hcsv Hlines. unfold handleFileImport. rewrite Hcsv, Hlines.
  unfold cleaned.
  destruct (sequence_some (clean env) (csv_rows line0 (line1 :: rest)))
    with (i := 0%nat) as [recs [Hs [Hlen _]]].
  - unfold csv_rows. apply Forall_forall. intros r Hr i.
    apply in_map_iff in Hr. destruct Hr as [l [<- _]].
    apply clean_usable, csv_row_usable.
  - exists recs. rewrite Hs. split; [reflexivity|].
    rewrite Hlen. unfold csv_rows. rewrite length_map. reflexivity.
Qed.

(** X11: a file that is not taken for JSON is read as CSV.  With fewer
    than two non-empty lines it is reported as empty and nothing is stored;
    otherwise the import cannot fail: it keeps the stored records and
    appends exactly one record per non-empty line after the header line. *)
Theorem csv_import_outcome `{Host} (env : import_env) (f : file) (st : app) :
  String.eqb (file_type f) "application/json"
    || Str.endsWith (file_name f) ".json" = false ->
  ((length (csv_lines (file_text f)) < 2)%nat ->
   handleFileImport env f st = alert "CSV appears empty" st)
  /\ ((2 <= length (csv_lines (file_text f)))%nat ->
      exists recs,
        handleFileImport env f st
        = {| expenses := expenses st ++ recs;
             alerts := alerts st ++ ["CSV imported (basic parser)"] |}
        /\ length recs = (length (csv_lines (file_text f)) - 1)%nat).
Proof.
  intros Hcsv.
  destruct (csv_lines (file_text f)) as [|line0 [|line1 rest]] eqn:Hlines.
  - split; [|simpl; lia]. intros _. unfold handleFileImport.
    rewrite Hcsv, Hlines. reflexivity.
  - split; [|simpl; lia]. intros _. unfold handleFileImport.
    rewrite Hcsv, Hlines. reflexivity.
  - split; [simpl; lia|]. intros _.
    destruct (csv_lines_imported env f st line0 line1 rest Hcsv Hlines)
      as [recs [Himp Hlen]].
    exists recs. split; [exact Himp|]. rewrite Hlen. simpl. lia.
Qed.

Lemma csv_import_outcome_witness :
  @handleFileImport Sample.host sample_env
    (csv_file ["id,reason,amount,date,category"; ""; ""])
    (mkApp scenario_store [])
  = mkApp scenario_store ["CSV appears empty"]
  /\ length (expenses
               (@handleFileImport Sample.host sample_env unbounded_csv
                  (mkApp scenario_store [])))
     = 5%nat.
Proof.
  split.
  - apply (proj1 (@csv_import_outcome Sample.host sample_env
                    (csv_file ["id,reason,amount,date,category"; ""; ""])
                    (mkApp scenario_store []) eq_refl)).
    vm_compute. lia.
  - assert (Hlen : length (csv_lines (file_text unbounded_csv)) = 4%nat)
      by (vm_compute; reflexivity).
    destruct (proj2 (@csv_import_outcome Sample.host sample_env unbounded_csv
                       (mkApp scenario_store []) eq_refl))
      as [recs [Himp Hrecs]].
    + rewrite Hlen. lia.
    + rewrite Himp. cbn [expenses]. rewrite length_app, Hrecs, Hlen.
      reflexivity.
Defined.

(* ------------------------------------------------------------------ *)
(** ** Month keys and the monthly report *)

Lemma of_Z_first_char (z : Z) :
  exists c r, Str.of_Z z = String c r /\ c <> "U"%char.
Proof.
  unfold Str.of_Z.
  destruct (Z.to_int z) as [d | d].
  - destruct d; simpl; eexists; eexists; (split; [reflexivity | discriminate]).
  - simpl. eexists; eexists; (split; [reflexivity | discriminate]).
Qed.

(** X12: a record is filed under the month key [Unknown] exactly when its
    date is an Invalid Date. *)
Theorem monthKey_unknown_iff_invalid `{Host} (dateStr : jsval) :
  monthKey dateStr = "Unknown" <-> Date_new dateStr = None.
Proof.
  unfold monthKey. destruct (Date_new dateStr) as [d|].
  - split; [|discriminate]. intros Heq. exfalso.
    destruct (of_Z_first_char (getFullYear d)) as [c [r [Hy Hc]]].
    rewrite Hy in Heq. simpl in Heq. injection Heq as Hcu _.
    exact (Hc Hcu).
  - split; reflexivity.
Qed.

Lemma filter_nil_iff {A : Type} (f : A -> bool) (l : list A) :
  filter f l = [] <-> forall x, In x l -> f x = false.
Proof.
  induction l as [|x l IH]; simpl.
  - split; [intros _ y [] | reflexivity].
  - destruct (f x) eqn:E.
    + split; [discriminate|]. intros Hall.
      rewrite (Hall x (or_introl eq_refl)) in E. discriminate E.
    + rewrite IH. split.
      * intros Hall y [<- | Hy]; [exact E | exact (Hall y Hy)].
      * intros Hall y Hy. apply Hall. right; exact Hy.
Qed.

(** X13: the monthly report answers [No data for that month] exactly when
    no stored record has that month key; otherwise it goes on to the PDF
    export with the records of that month only, in store order. *)
Theorem monthly_report_needs_a_record `{Host} (available : bool)
    (monthKeyStr : string) (rs : list expense) :
  (generateMonthlyReportPDF available monthKeyStr rs
     = ReportNotice "No data for that month"
   <-> forall e, In e rs -> monthKey (date e) <> monthKeyStr)
  /\ ((exists e, In e rs /\ monthKey (date e) = monthKeyStr) ->
      generateMonthlyReportPDF available monthKeyStr rs
      = downloadPDF available
          (filter (fun e => String.eqb (monthKey (date e)) monthKeyStr) rs)
          (Some ("Monthly Report for " ++ monthKeyStr)%string)).
Proof.
  unfold generateMonthlyReportPDF, month_rows.
  set (rows := filter _ rs).
  assert (Hrows : rows = [] <->
                  forall e, In e rs -> monthKey (date e) <> monthKeyStr).
  { unfold rows. rewrite filter_nil_iff. split; intros Hall e He.
    - apply String.eqb_neq. exact (Hall e He).
    - apply String.eqb_neq. exact (Hall e He). }
  split.
  - rewrite <- Hrows. destruct rows as [|e rows'].
    + split; reflexivity.
    + split; [|discriminate]. unfold downloadPDF.
      destruct available; discriminate.
  - intros [e [He Hk]]. destruct rows as [|e' rows'] eqn:E; [|reflexivity].
    exfalso. exact (proj1 Hrows eq_refl e He Hk).
Qed.

Lemma monthly_report_needs_a_record_witness :
  (exists e, In e scenario_store
             /\ @monthKey Sample.host (date e) = "2024-01")
  /\ @generateMonthlyReportPDF Sample.host true "2024-02" scenario_store
     = ReportNotice "No data for that month"
  /\ @generateMonthlyReportPDF Sample.host true "2024-01" scenario_store
     = @downloadPDF Sample.host true scenario_store
         (Some "Monthly Report for 2024-01").
Proof.
  assert (Hex : exists e, In e scenario_store
                          /\ @monthKey Sample.host (date e) = "2024-01").
  { eexists. split; [left; reflexivity | vm_compute; reflexivity]. }
  split; [exact Hex|]. split.
  - vm_compute. reflexivity.
  - rewrite (proj2 (@monthly_report_needs_a_record Sample.host true "2024-01"
                      scenario_store) Hex).
    vm_compute. reflexivity.
Defined.

(* ------------------------------------------------------------------ *)
(** ** The age of the last expense *)

Lemma latest_of_valid_dates `{Host} (rest : list expense) :
  Forall (fun e => Date_new (date e) <> None) rest ->
  forall first t0,
    Date_new (date first) = Some t0 ->
    exists m t,
      fold_left later rest first = m
      /\ In m (first :: rest)
      /\ Date_new (date m) = Some t
      /\ (forall e t', In e (first :: rest) ->
                       Date_new (date e) = Some t' -> t' <= t).
Proof.
  induction 1 as [|b rest Hb Hrest IH]; intros first t0 Hfirst.
  - exists first, t0. simpl. repeat split; auto.
    intros e t' [<- | []] Ht'. rewrite Hfirst in Ht'. injection Ht' as <-. lia.
  - destruct (Date_new (date b)) as [tb|] eqn:Hdb; [|contradiction].
    assert (Hc : exists c tc, later first b = c /\ Date_new (date c) = Some tc
                              /\ (c = first \/ c = b) /\ t0 <= tc /\ tb <= tc).
    { unfold later, date_gt. rewrite Hfirst, Hdb.
      destruct (tb <? t0) eqn:E.
      - apply Z.ltb_lt in E. exists first, t0. repeat split; auto; lia.
      - apply Z.ltb_ge in E. exists b, tb. repeat split; auto; lia. }
    destruct Hc as [c [tc [Hlater [Hdc [Hwho [H0 H1]]]]]].
    destruct (IH c tc Hdc) as [m [t [Hfold [Hin [Hdm Hmax]]]]].
    exists m, t. cbn [fold_left]. rewrite Hlater.
    split; [exact Hfold|]. split; [|split; [exact Hdm|]].
    + destruct Hin as [<- | Hin].
      * destruct Hwho as [-> | ->]; [left; reflexivity | right; left; reflexivity].
      * right; right; exact Hin.
    + assert (Hct : tc <= t) by (apply (Hmax c tc); [left; reflexivity | exact Hdc]).
      intros e t' [<- | [<- | He]] Ht'.
      * rewrite Hfirst in Ht'. injection Ht' as <-. lia.
      * rewrite Hdb in Ht'. injection Ht' as <-. lia.
      * apply (Hmax e t'); [right; exact He | exact Ht'].
Qed.

Lemma whole_days (now t : Z) :
  Math_floor
    (Num.div (Num.sub (Num.of_Z now) (Num.of_Z t))
             (Num.of_Z (1000 * 60 * 60 * 24)))
  = Num.of_Z ((now - t) / 86400000).
Proof.
  unfold Num.of_Z, Num.sub, Num.div.
  change (Qeq_bool (inject_Z (1000 * 60 * 60 * 24)) 0) with false.
  cbn [Math_floor]. unfold Num.of_Z. do 2 f_equal.
  rewrite !Qred_correct.
  unfold Qminus. rewrite <- inject_Z_opp, <- inject_Z_plus.
  symmetry. apply Zdiv_Qdiv.
Qed.

(** X14: when every record has a valid date, [daysSinceLast] is the number
    of whole days between the latest of those dates and now, in whatever
    order the records are stored; for an empty store it is [null]. *)
Theorem daysSinceLast_counts_from_latest `{Host} (now : Z)
    (rs : list expense) :
  daysSinceLast now [] = None
  /\ (rs <> [] ->
      Forall (fun e => Date_new (date e) <> None) rs ->
      exists m t,
        In m rs
        /\ Date_new (date m) = Some t
        /\ (forall e t', In e rs -> Date_new (date e) = Some t' -> t' <= t)
        /\ daysSinceLast now rs = Some (Num.of_Z ((now - t) / 86400000))).
Proof.
  split; [reflexivity|].
  intros Hne Hvalid. destruct rs as [|first rest]; [contradiction|].
  inversion Hvalid as [|? ? Hfirst Hrest]; subst.
  destruct (Date_new (date first)) as [t0|] eqn:Hd0; [|contradiction].
  destruct (latest_of_valid_dates rest Hrest first t0 Hd0)
    as [m [t [Hfold [Hin [Hdm Hmax]]]]].
  exists m, t. split; [exact Hin|]. split; [exact Hdm|]. split; [exact Hmax|].
  unfold daysSinceLast. rewrite Hfold, Hdm. cbn [date_number].
  rewrite whole_days. reflexivity.
Qed.

Lemma daysSinceLast_counts_from_latest_witness :
  Forall (fun e => @Date_new Sample.host (date e) <> None) scenario_store
  /\ @daysSinceLast Sample.host 1706745600000 scenario_store = Some (Fin 12)
  /\ exists m t,
       In m scenario_store
       /\ @Date_new Sample.host (date m) = Some t
       /\ (forall e t', In e scenario_store ->
                        @Date_new Sample.host (date e) = Some t' -> t' <= t)
       /\ @daysSinceLast Sample.host 1706745600000 scenario_store
          = Some (Num.of_Z ((1706745600000 - t) / 86400000)).
Proof.
  assert (Hv : Forall (fun e => @Date_new Sample.host (date e) <> None)
                      scenario_store).
  { repeat constructor; discriminate. }
  assert (Hne : scenario_store <> []) by discriminate.
  split; [exact Hv|]. split; [vm_compute; reflexivity|].
  exact (proj2 (@daysSinceLast_counts_from_latest Sample.host
                  1706745600000 scenario_store) Hne Hv).
Defined.

(** X15: one Invalid Date at the end of the store is enough to make
    [daysSinceLast] NaN: the record stored last is kept by the reduction
    whenever its date does not compare, whatever the other dates are. *)
Theorem daysSinceLast_NaN_after_invalid_last `{Host} (now : Z)
    (rs : list expense) (e : expense) :
  Date_new (date e) = None ->
  daysSinceLast now (rs ++ [e]) = Some NaN.
Proof.
  intros Hinvalid.
  assert (Hlater : forall a, later a e = e).
  { intros a. unfold later, date_gt. rewrite Hinvalid.
    destruct (Date_new (date a)); reflexivity. }
  assert (Hlast : forall first rest,
             fold_left later (rest ++ [e]) first = e).
  { intros first rest. rewrite fold_left_app. cbn [fold_left].
    apply Hlater. }
  destruct rs as [|first rest].
  - change ([] ++ [e]) with [e]. unfold daysSinceLast. cbn [fold_left].
    rewrite Hinvalid. reflexivity.
  - change ((first :: rest) ++ [e]) with (first :: (rest ++ [e])).
    unfold daysSinceLast. rewrite Hlast, Hinvalid. reflexivity.
Qed.

Lemma daysSinceLast_NaN_after_invalid_last_witness :
  @Date_new Sample.host (date undated) = None
  /\ @daysSinceLast Sample.host 1706745600000 (scenario_store ++ [undated])
     = Some NaN.
Proof.
  assert (Hd : @Date_new Sample.host (date undated) = None) by reflexivity.
  split; [exact Hd|].
  exact (@daysSinceLast_NaN_after_invalid_last Sample.host 1706745600000
           scenario_store undated Hd).
Defined.

(* ------------------------------------------------------------------ *)
(** ** Insights *)

(** X16: without a positive budget, or with a total spend that does not
    exceed it, the insights are the category tips alone: no budget alert is
    shown. *)
Theorem no_alert_within_budget `{Host} (now_year now_month : Z)
    (rs : list expense) (budget : number) :
  Num.gtb budget (Fin 0) = false
  \/ Num.gtb (Num.abs (total rs)) budget = false ->
  insights now_year now_month rs budget = category_tips now_year now_month rs.
Proof.
  intros Hwithin. unfold insights.
  destruct (Num.gtb budget (Fin 0)) eqn:Hpos.
  - destruct Hwithin as [Hno | Hle]; [discriminate Hno|].
    unfold Num.or_else. rewrite (positive_is_truthy budget Hpos), Hle.
    reflexivity.
  - rewrite andb_false_r. reflexivity.
Qed.

Lemma no_alert_within_budget_witness :
  (Num.gtb (Fin 20) (Fin 0) = false
   \/ Num.gtb (Num.abs (total fifteen_store)) (Fin 20) = false)
  /\ @insights Sample.host 2024 2 fifteen_store (Fin 20)
     = [ "You started spending in Shopping this month: ₹10.";
         "You started spending in Entertainment this month: ₹5." ].
Proof.
  assert (Hw : Num.gtb (Fin 20) (Fin 0) = false
               \/ Num.gtb (Num.abs (total fifteen_store)) (Fin 20) = false)
    by (right; reflexivity).
  split; [exact Hw|].
  rewrite (@no_alert_within_budget Sample.host 2024 2 fifteen_store (Fin 20) Hw).
  vm_compute. reflexivity.
Defined.

Lemma insight_maps_window `{Host} (cur prev : string) (rs : list expense) :
  forall acc : Obj.t number * Obj.t number,
    fold_left
      (fun maps e =>
         let mk := monthKey (date e) in
         let map :=
           if String.eqb mk cur
           then bump (fst maps) (ToString (category e)) (amount e)
           else fst maps in
         let mapPrev :=
           if String.eqb mk prev
           then bump (snd maps) (ToString (category e)) (amount e)
           else snd maps in
         (map, mapPrev))
      (filter (fun e => String.eqb (monthKey (date e)) cur
                        || String.eqb (monthKey (date e)) prev) rs)
      acc
    = fold_left
        (fun maps e =>
           let mk := monthKey (date e) in
           let map :=
             if String.eqb mk cur
             then bump (fst maps) (ToString (category e)) (amount e)
             else fst maps in
           let mapPrev :=
             if String.eqb mk prev
             then bump (snd maps) (ToString (category e)) (amount e)
             else snd maps in
           (map, mapPrev))
        rs acc.
Proof.
  induction rs as [|e rs IH]; intros acc; [reflexivity|].
  cbn [filter].
  destruct (String.eqb (monthKey (date e)) cur) eqn:Ec;
    destruct (String.eqb (monthKey (date e)) prev) eqn:Ep;
    cbn [orb fold_left]; rewrite ?Ec, ?Ep; try apply IH.
  rewrite IH. destruct acc; reflexivity.
Qed.

(** X17: the category tips depend only on the records of the current and
    of the previous month: every other record can be removed from the
    store without changing them. *)
Theorem category_tips_use_two_months `{Host} (now_year now_month : Z)
    (rs : list expense) :
  category_tips now_year now_month
    (filter (in_insight_window now_year now_month) rs)
  = category_tips now_year now_month rs.
Proof.
  unfold category_tips, insight_maps, in_insight_window.
  rewrite insight_maps_window. reflexivity.
Qed.

(* ------------------------------------------------------------------ *)
(** ** The budget gauge stays within its range *)

(** X18: when the total spend is finite, the budget percentage is a number
    between 0 and 1, whatever the budget is (NaN, negative and infinite
    budgets included). *)
Theorem percentOfBudget_between_0_and_1 (rs : list expense)
    (budget : number) :
  Num.finite (total rs) ->
  Num.leb (Fin 0) (percentOfBudget rs budget) = true
  /\ Num.leb (percentOfBudget rs budget) (Fin 1) = true.
Proof.
  intros Ht. unfold percentOfBudget.
  destruct (total rs) as [|t| |]; simpl in Ht; try contradiction.
  destruct budget as [|b| |]; try (split; reflexivity).
  destruct (Num.gtb (Fin b) (Fin 0)) eqn:Hpos; [|split; reflexivity].
  assert (Hb : (0 < b)%Q).
  { simpl in Hpos. apply negb_true_iff in Hpos.
    destruct (Qlt_le_dec 0 b) as [Hlt | Hle]; [exact Hlt|].
    apply Qle_bool_iff in Hle. rewrite Hle in Hpos. discriminate Hpos. }
  destruct (div_finite t b Hb) as [x [-> Hx]].
  assert (Hx0 : (0 <= x)%Q).
  { rewrite Hx. unfold Qdiv. apply Qmult_le_0_compat.
    - apply Qabs_nonneg.
    - apply Qinv_le_0_compat. apply Qlt_le_weak. exact Hb. }
  simpl. destruct (Qle_bool 1 x) eqn:E; simpl.
  - split; reflexivity.
  - split.
    + apply Qle_bool_iff. exact Hx0.
    + apply Qle_bool_iff.
      destruct (Qlt_le_dec x 1) as [Hlt | Hge].
      * apply Qlt_le_weak. exact Hlt.
      * apply Qle_bool_iff in Hge. rewrite Hge in E. discriminate E.
Qed.

Lemma percentOfBudget_between_0_and_1_witness :
  Num.finite (total fifteen_store)
  /\ Num.leb (Fin 0) (percentOfBudget fifteen_store (Fin 40)) = true
  /\ Num.leb (percentOfBudget fifteen_store (Fin 40)) (Fin 1) = true.
Proof.
  assert (Hf : Num.finite (total fifteen_store)) by exact I.
  split; [exact Hf|].
  exact (percentOfBudget_between_0_and_1 fifteen_store (Fin 40) Hf).
Defined.

(* ------------------------------------------------------------------ *)
(** ** Strings: reversal and character tests *)

Lemma append_assoc (s t u : string) :
  ((s ++ t) ++ u)%string = (s ++ (t ++ u))%string.
Proof.
  induction s as [|c s IH]; simpl; [reflexivity | rewrite IH; reflexivity].
Qed.

Lemma rev_acc_append (s acc : string) :
  Str.rev_acc s acc = (Str.rev_acc s EmptyString ++ acc)%string.
Proof.
  revert acc. induction s as [|c s IH]; intros acc; simpl.
  - reflexivity.
  - rewrite (IH (String c acc)), (IH (String c EmptyString)).
    rewrite append_assoc. reflexivity.
Qed.

Lemma rev_cons (c : ascii) (s : string) :
  Str.rev (String c s) = (Str.rev s ++ String c EmptyString)%string.
Proof. unfold Str.rev. simpl. apply rev_acc_append. Qed.

Lemma append_empty_r (s : string) : (s ++ EmptyString)%string = s.
Proof.
  induction s as [|c s IH]; simpl; [reflexivity | rewrite IH; reflexivity].
Qed.

Lemma rev_append (s t : string) :
  Str.rev (s ++ t) = (Str.rev t ++ Str.rev s)%string.
Proof.
  induction s as [|c s IH]; simpl.
  - rewrite append_empty_r. reflexivity.
  - rewrite !rev_cons, IH, append_assoc. reflexivity.
Qed.

Lemma rev_involutive (s : string) : Str.rev (Str.rev s) = s.
Proof.
  induction s as [|c s IH]; [reflexivity|].
  rewrite rev_cons, rev_append, IH. reflexivity.
Qed.

Lemma all_chars_append (p : ascii -> bool) (s t : string) :
  all_chars p (s ++ t) = all_chars p s && all_chars p t.
Proof.
  induction s as [|c s IH]; simpl; [reflexivity|].
  rewrite IH, andb_assoc. reflexivity.
Qed.

Lemma all_chars_rev (p : ascii -> bool) (s : string) :
  all_chars p (Str.rev s) = all_chars p s.
Proof.
  induction s as [|c s IH]; [reflexivity|].
  rewrite rev_cons, all_chars_append, IH. simpl.
  rewrite andb_true_r. apply andb_comm.
Qed.

Lemma all_chars_weaken (p q : ascii -> bool) (s : string) :
  (forall c, p c = true -> q c = true) ->
  all_chars p s = true -> all_chars q s = true.
Proof.
  intros Hpq. induction s as [|c s IH]; simpl; [reflexivity|].
  intros H. apply andb_true_iff in H. destruct H as [Hc Hs].
  rewrite (Hpq c Hc), (IH Hs). reflexivity.
Qed.

Lemma trimStart_spaceless (s : string) :
  all_chars (fun c => negb (Str.is_space c)) s = true -> Str.trimStart s = s.
Proof.
  destruct s as [|c s]; simpl; [reflexivity|].
  intros H. apply andb_true_iff in H. destruct H as [Hc _].
  apply negb_true_iff in Hc. rewrite Hc. reflexivity.
Qed.

Lemma trim_spaceless (s : string) :
  all_chars (fun c => negb (Str.is_space c)) s = true -> Str.trim s = s.
Proof.
  intros H. unfold Str.trim, Str.trimEnd.
  rewrite (trimStart_spaceless s H).
  rewrite trimStart_spaceless by (rewrite all_chars_rev; exact H).
  apply rev_involutive.
Qed.

(* ------------------------------------------------------------------ *)
(** ** Printing an integer and reading it back *)

Lemma digits_of_uint (d : Decimal.uint) :
  all_chars Str.is_digit (NilEmpty.string_of_uint d) = true.
Proof. induction d; simpl; auto. Qed.

Lemma read_digits_step (c : ascii) (r : string) (acc : Z) (cnt : nat) :
  Str.is_digit c = true ->
  Lit.read_digits (String c r) acc cnt
  = Lit.read_digits r (10 * acc + Str.digit_val c) (S cnt).
Proof. intros Hc. cbn [Lit.read_digits]. rewrite Hc. reflexivity. Qed.

Ltac read_one_digit IH acc k :=
  cbn [NilEmpty.string_of_uint Decimal.nb_digits Pos.of_uint_acc];
  rewrite read_digits_step by reflexivity;
  match goal with
  | |- Lit.read_digits _ ?a _ = _ =>
      replace a with (Zpos (k + 10 * acc))
        by (vm_compute Str.digit_val; lia)
  end;
  rewrite IH, <- Nat.add_succ_comm; reflexivity.

Lemma read_digits_acc (d : Decimal.uint) (acc : positive) (cnt : nat) :
  Lit.read_digits (NilEmpty.string_of_uint d) (Zpos acc) cnt
  = (Zpos (Pos.of_uint_acc d acc), (cnt + Decimal.nb_digits d)%nat,
     EmptyString).
Proof.
  revert acc cnt.
  induction d; intros acc cnt.
  - simpl. rewrite Nat.add_0_r. reflexivity.
  - cbn [NilEmpty.string_of_uint Decimal.nb_digits Pos.of_uint_acc].
    rewrite read_digits_step by reflexivity.
    replace (10 * Zpos acc + Str.digit_val "0"%char) with (Zpos (10 * acc))
      by (vm_compute Str.digit_val; lia).
    rewrite IHd, <- Nat.add_succ_comm. reflexivity.
  - read_one_digit IHd acc 1%positive.
  - read_one_digit IHd acc 2%positive.
  - read_one_digit IHd acc 3%positive.
  - read_one_digit IHd acc 4%positive.
  - read_one_digit IHd acc 5%positive.
  - read_one_digit IHd acc 6%positive.
  - read_one_digit IHd acc 7%positive.
  - read_one_digit IHd acc 8%positive.
  - read_one_digit IHd acc 9%positive.
Qed.

Lemma read_digits_uint (d : Decimal.uint) (cnt : nat) :
  Lit.read_digits (NilEmpty.string_of_uint d) 0 cnt
  = (Z.of_N (Pos.of_uint d), (cnt + Decimal.nb_digits d)%nat, EmptyString).
Proof.
  revert cnt. induction d; intros cnt;
    cbn [NilEmpty.string_of_uint Decimal.nb_digits Pos.of_uint];
    try (rewrite read_digits_step by reflexivity;
         match goal with
         | |- Lit.read_digits _ ?a _ = _ =>
             let v := eval vm_compute in a in change a with v
         end;
         first [ rewrite read_digits_acc | rewrite IHd ];
         rewrite <- Nat.add_succ_comm; reflexivity).
  simpl. rewrite Nat.add_0_r. reflexivity.
Qed.

Lemma nb_digits_nonnil (d : Decimal.uint) :
  d <> Decimal.Nil -> exists n, Decimal.nb_digits d = S n.
Proof. destruct d; simpl; intros Hd; try contradiction; eauto. Qed.

(** Reading back the decimal digits of a positive number. *)
Lemma read_decimal_digits (p : positive) :
  Lit.read_decimal (NilEmpty.string_of_uint (Pos.to_uint p))
  = Some (inject_Z (Zpos p), EmptyString).
Proof.
  unfold Lit.read_decimal.
  rewrite read_digits_uint, DecimalPos.Unsigned.of_to.
  destruct (nb_digits_nonnil (Pos.to_uint p)
              (DecimalPos.Unsigned.to_uint_nonnil p)) as [n ->].
  cbn [Nat.add Lit.read_exponent Z.of_nat Z.of_N].
  unfold Lit.scale. cbn [Z.sub Z.opp Z.add Z.leb Z.compare Z.pow Z.pow_pos].
  rewrite Z.mul_1_r. reflexivity.
Qed.

Lemma string_of_uint_nonnil (d : Decimal.uint) :
  d <> Decimal.Nil ->
  NilZero.string_of_uint d = NilEmpty.string_of_uint d.
Proof. destruct d; intros Hd; try contradiction; reflexivity. Qed.

Lemma digits_first_char (d : Decimal.uint) :
  d <> Decimal.Nil ->
  exists c r, NilEmpty.string_of_uint d = String c r /\ Str.is_digit c = true.
Proof.
  destruct d; intros Hd; try contradiction; simpl;
    eexists; eexists; (split; [reflexivity | reflexivity]).
Qed.

Lemma digit_char_facts (c : ascii) :
  Str.is_digit c = true ->
  Str.is_space c = false
  /\ Ascii.eqb c "+"%char = false /\ Ascii.eqb c "-"%char = false
  /\ Ascii.eqb c "I"%char = false
  /\ Ascii.eqb c "x"%char = false /\ Ascii.eqb c "X"%char = false
  /\ Ascii.eqb c "o"%char = false /\ Ascii.eqb c "O"%char = false
  /\ Ascii.eqb c "b"%char = false /\ Ascii.eqb c "B"%char = false
  /\ Ascii.eqb c Str.quote = false.
Proof.
  destruct c as [[] [] [] [] [] [] [] []]; intros Hc;
    try discriminate Hc; repeat split; reflexivity.
Qed.

Lemma read_prefixed_digits (s : string) :
  all_chars Str.is_digit s = true -> Lit.read_prefixed s = None.
Proof.
  destruct s as [|z [|x [|c r]]]; try reflexivity.
  cbn [all_chars]. intros H.
  apply andb_true_iff in H. destruct H as [_ H].
  apply andb_true_iff in H. destruct H as [Hx _].
  destruct (digit_char_facts x Hx)
    as [_ [_ [_ [_ [Hx1 [Hx2 [Hx3 [Hx4 [Hx5 [Hx6 _]]]]]]]]]].
  unfold Lit.read_prefixed. rewrite Hx1, Hx2, Hx3, Hx4, Hx5, Hx6.
  destruct (Ascii.eqb z "0"%char); reflexivity.
Qed.

Lemma read_unsigned_digits (p : positive) :
  Lit.read_unsigned (NilEmpty.string_of_uint (Pos.to_uint p))
  = Some (Fin (inject_Z (Zpos p)), EmptyString).
Proof.
  unfold Lit.read_unsigned. rewrite read_decimal_digits.
  destruct (digits_first_char (Pos.to_uint p)
              (DecimalPos.Unsigned.to_uint_nonnil p)) as [c [r [-> Hc]]].
  cbn [String.prefix].
  destruct (ascii_dec "I"%char c) as [<- | _]; [discriminate Hc | reflexivity].
Qed.

(** [Number(String(z))] for an integer [z]. *)
Lemma StringToNumber_of_Z (z : Z) :
  Lit.StringToNumber (Str.of_Z z) = Num.of_Z z.
Proof.
  unfold Str.of_Z, Lit.StringToNumber.
  destruct z as [|p|p]; [reflexivity| |]; cbn [Z.to_int NilZero.string_of_int].
  - rewrite string_of_uint_nonnil by apply DecimalPos.Unsigned.to_uint_nonnil.
    pose proof (digits_of_uint (Pos.to_uint p)) as Hd.
    rewrite trim_spaceless.
    2:{ apply (all_chars_weaken Str.is_digit); [|exact Hd].
        intros c Hc. destruct (digit_char_facts c Hc) as [-> _]. reflexivity. }
    rewrite (read_prefixed_digits _ Hd).
    destruct (digits_first_char (Pos.to_uint p)
                (DecimalPos.Unsigned.to_uint_nonnil p)) as [c [r [Hs Hc]]].
    pose proof (read_unsigned_digits p) as Hread. rewrite Hs in *.
    destruct (digit_char_facts c Hc) as [_ [Hplus [Hminus _]]].
    unfold Lit.read_signed. rewrite Hplus, Hminus, Hread. reflexivity.
  - rewrite string_of_uint_nonnil by apply DecimalPos.Unsigned.to_uint_nonnil.
    pose proof (digits_of_uint (Pos.to_uint p)) as Hd.
    rewrite trim_spaceless.
    2:{ cbn [all_chars]. apply andb_true_iff. split; [reflexivity|].
        apply (all_chars_weaken Str.is_digit); [|exact Hd].
        intros c Hc. destruct (digit_char_facts c Hc) as [-> _]. reflexivity. }
    assert (Hpre : Lit.read_prefixed
                     (String "-" (NilEmpty.string_of_uint (Pos.to_uint p)))
                   = None).
    { destruct (NilEmpty.string_of_uint (Pos.to_uint p)) as [|x [|c r]];
        reflexivity. }
    rewrite Hpre. cbn [Lit.read_signed Ascii.eqb Bool.eqb].
    rewrite read_unsigned_digits. cbn [Num.neg].
    unfold Num.of_Z. f_equal.
    apply Qcanon.Qred_identity. apply Z.gcd_1_r.
Qed.

Lemma Number_toString_of_Z `{Host} (z : Z) :
  Z.abs z < 10 ^ 21 -> Number_toString (Num.of_Z z) = Str.of_Z z.
Proof.
  intros Hz. unfold Number_toString, Num.of_Z.
  rewrite (Qcanon.Qred_identity (inject_Z z)) by apply Z.gcd_1_r.
  cbn [inject_Z Qnum Qden].
  apply Z.ltb_lt in Hz. rewrite Hz. reflexivity.
Qed.

(** X19: the budget survives a reload of the page when it is an integer
    below 10^21 in magnitude, NaN or infinite: the stored text
    [String(budget)] is read back by [Number] as the same number.  With no
    stored item the budget starts at 0. *)
Theorem budget_survives_reload `{Host} (budget : number) :
  plain_integer budget \/ ~ Num.finite budget ->
  initial_budget (Some (stored_budget budget)) = budget
  /\ initial_budget None = Fin 0
  /\ initial_budget (Some EmptyString) = Fin 0.
Proof.
  intros Hb. split; [|split; reflexivity].
  destruct Hb as [[z [-> Hz]] | Hinf].
  - unfold stored_budget, initial_budget. rewrite (Number_toString_of_Z z Hz).
    destruct (of_Z_first_char z) as [c [r [Hs _]]].
    unfold js_or. cbn [truthy]. rewrite Hs. cbn [Str.nonempty].
    rewrite <- Hs. cbn [ToNumber]. apply StringToNumber_of_Z.
  - destruct budget as [|q| |]; try reflexivity.
    exfalso. apply Hinf. exact I.
Qed.

Lemma budget_survives_reload_witness :
  (plain_integer (Fin 2500) \/ ~ Num.finite (Fin 2500))
  /\ @stored_budget Sample.host (Fin 2500) = "2500"
  /\ @initial_budget Sample.host (Some (@stored_budget Sample.host (Fin 2500)))
     = Fin 2500.
Proof.
  assert (Hb : plain_integer (Fin 2500) \/ ~ Num.finite (Fin 2500)).
  { left. exists 2500. split; [reflexivity | reflexivity]. }
  split; [exact Hb|]. split; [vm_compute; reflexivity|].
  exact (proj1 (@budget_survives_reload Sample.host (Fin 2500) Hb)).
Defined.

(* ------------------------------------------------------------------ *)
(** ** Splitting what was joined *)

Lemma split_aux_prefix (sep : ascii) (a s' cur : string) :
  all_chars (fun c => negb (Ascii.eqb c sep)) a = true ->
  Str.split_aux sep (a ++ s') cur = Str.split_aux sep s' (Str.rev_acc a cur).
Proof.
  revert cur. induction a as [|c a IH]; intros cur Ha; [reflexivity|].
  cbn [all_chars] in Ha. apply andb_true_iff in Ha. destruct Ha as [Hc Ha].
  apply negb_true_iff in Hc.
  cbn [append Str.split_aux Str.rev_acc]. rewrite Hc. apply IH. exact Ha.
Qed.

Lemma split_cell_then (sep : ascii) (a rest : string) :
  all_chars (fun c => negb (Ascii.eqb c sep)) a = true ->
  Str.split sep (a ++ String sep rest) = a :: Str.split sep rest.
Proof.
  intros Ha. unfold Str.split. rewrite (split_aux_prefix sep a _ _ Ha).
  cbn [Str.split_aux]. rewrite Ascii.eqb_refl.
  change (Str.rev (Str.rev_acc a EmptyString)) with (Str.rev (Str.rev a)).
  rewrite rev_involutive. reflexivity.
Qed.

Lemma split_last_cell (sep : ascii) (a : string) :
  all_chars (fun c => negb (Ascii.eqb c sep)) a = true ->
  Str.split sep a = [a].
Proof.
  intros Ha. unfold Str.split.
  rewrite <- (append_empty_r a) at 1.
  rewrite (split_aux_prefix sep a _ _ Ha).
  cbn [Str.split_aux].
  change (Str.rev (Str.rev_acc a EmptyString)) with (Str.rev (Str.rev a)).
  rewrite rev_involutive. reflexivity.
Qed.

Lemma split_lines_aux_prefix (a s' cur : string) :
  all_chars line_char a = true ->
  Str.split_lines_aux (a ++ s') cur
  = Str.split_lines_aux s' (Str.rev_acc a cur).
Proof.
  revert cur. induction a as [|c a IH]; intros cur Ha; [reflexivity|].
  cbn [all_chars] in Ha. apply andb_true_iff in Ha. destruct Ha as [Hc Ha].
  unfold line_char in Hc. apply andb_true_iff in Hc. destruct Hc as [Hlf Hcr].
  apply negb_true_iff in Hlf. apply negb_true_iff in Hcr.
  cbn [append Str.split_lines_aux Str.rev_acc]. rewrite Hlf, Hcr.
  apply IH. exact Ha.
Qed.

Lemma split_lines_join (lines : list string) :
  lines <> [] ->
  Forall (fun l => all_chars line_char l = true) lines ->
  Str.split_lines (Str.join (String Str.LF EmptyString) lines) = lines.
Proof.
  intros Hne Hall. induction Hall as [|l lines Hl Hlines IH];
    [contradiction|].
  destruct lines as [|l' lines'].
  - cbn [Str.join]. unfold Str.split_lines.
    rewrite <- (append_empty_r l) at 1.
    rewrite (split_lines_aux_prefix l _ _ Hl). cbn [Str.split_lines_aux].
    change (Str.rev (Str.rev_acc l EmptyString)) with (Str.rev (Str.rev l)).
    rewrite rev_involutive. reflexivity.
  - change (Str.join (String Str.LF EmptyString) (l :: l' :: lines'))
      with (l ++ String Str.LF (Str.join (String Str.LF EmptyString)
                                         (l' :: lines')))%string.
    unfold Str.split_lines.
    rewrite (split_lines_aux_prefix l _ _ Hl).
    cbn [Str.split_lines_aux]. rewrite Ascii.eqb_refl.
    change (Str.rev (Str.rev_acc l EmptyString)) with (Str.rev (Str.rev l)).
    rewrite rev_involutive. f_equal.
    apply IH. discriminate.
Qed.

Lemma strip_quotes_unquoted (s : string) :
  all_chars unquoted_char s = true -> Str.strip_quotes s = s.
Proof.
  intros Hs.
  assert (Hdrop : forall t, all_chars unquoted_char t = true ->
                            Str.drop_leading_quote t = t).
  { intros [|c t] Ht; [reflexivity|]. cbn [all_chars] in Ht.
    apply andb_true_iff in Ht. destruct Ht as [Hc _].
    unfold unquoted_char in Hc. apply negb_true_iff in Hc.
    cbn [Str.drop_leading_quote]. rewrite Hc. reflexivity. }
  unfold Str.strip_quotes. rewrite (Hdrop s Hs).
  rewrite Hdrop by (rewrite all_chars_rev; exact Hs).
  apply rev_involutive.
Qed.

Lemma strip_quotes_quoted (s : string) :
  Str.strip_quotes (String Str.quote (s ++ String Str.quote EmptyString)) = s.
Proof.
  unfold Str.strip_quotes.
  cbn [Str.drop_leading_quote]. rewrite Ascii.eqb_refl.
  rewrite rev_append.
  change (Str.rev (String Str.quote EmptyString))
    with (String Str.quote EmptyString).
  cbn [append Str.drop_leading_quote]. rewrite Ascii.eqb_refl.
  apply rev_involutive.
Qed.

(* ------------------------------------------------------------------ *)
(** ** CSV export, then import *)

Lemma plain_char_facts (c : ascii) :
  plain_char c = true ->
  cell_char c = true /\ JSONText.quote_body (String c EmptyString)
                        = String c EmptyString.
Proof.
  destruct c as [[] [] [] [] [] [] [] []]; intros Hc;
    try discriminate Hc; split; reflexivity.
Qed.

Lemma quote_body_plain (s : string) :
  all_chars plain_char s = true -> JSONText.quote_body s = s.
Proof.
  induction s as [|c s IH]; [reflexivity|].
  cbn [all_chars]. intros H. apply andb_true_iff in H. destruct H as [Hc Hs].
  destruct (plain_char_facts c Hc) as [_ Hq].
  specialize (IH Hs).
  cbn [JSONText.quote_body] in Hq |- *. rewrite IH.
  destruct (Ascii.eqb c Str.quote || Ascii.eqb c JSONText.backslash);
    [discriminate Hq|].
  repeat match type of Hq with
         | (if ?b then _ else _) = _ => destruct b; [discriminate Hq|]
         end.
  reflexivity.
Qed.

Lemma digit_or_minus_facts (c : ascii) :
  Str.is_digit c || Ascii.eqb c "-"%char = true ->
  cell_char c = true /\ unquoted_char c = true.
Proof.
  destruct c as [[] [] [] [] [] [] [] []]; intros Hc;
    try discriminate Hc; split; reflexivity.
Qed.

Lemma of_Z_chars (z : Z) :
  all_chars (fun c => Str.is_digit c || Ascii.eqb c "-"%char) (Str.of_Z z)
  = true.
Proof.
  assert (Hd : forall d,
             all_chars (fun c => Str.is_digit c || Ascii.eqb c "-"%char)
                       (NilZero.string_of_uint d) = true).
  { intros d. destruct d; try reflexivity;
      (apply (all_chars_weaken Str.is_digit);
       [intros c Hc; rewrite Hc; reflexivity
       | apply (digits_of_uint (_ d))]). }
  unfold Str.of_Z. destruct (Z.to_int z) as [d|d]; simpl.
  - apply Hd.
  - apply Hd.
Qed.

Lemma of_Z_cell (z : Z) :
  all_chars cell_char (Str.of_Z z) = true
  /\ all_chars unquoted_char (Str.of_Z z) = true
  /\ Str.nonempty (Str.of_Z z) = true.
Proof.
  split; [|split].
  - apply (all_chars_weaken _ _ _ (fun c H => proj1 (digit_or_minus_facts c H))).
    apply of_Z_chars.
  - apply (all_chars_weaken _ _ _ (fun c H => proj2 (digit_or_minus_facts c H))).
    apply of_Z_chars.
  - destruct (of_Z_first_char z) as [c [r [-> _]]]. reflexivity.
Qed.

Lemma quoted_cell (s : string) :
  all_chars plain_char s = true ->
  JSONText.quote_string s
    = String Str.quote (s ++ String Str.quote EmptyString)
  /\ all_chars cell_char (JSONText.quote_string s) = true.
Proof.
  intros Hs. unfold JSONText.quote_string. rewrite (quote_body_plain s Hs).
  split; [reflexivity|].
  cbn [all_chars]. rewrite all_chars_append. cbn [all_chars].
  rewrite (all_chars_weaken _ _ _ (fun c H => proj1 (plain_char_facts c H)) Hs).
  reflexivity.
Qed.

Lemma or_else_of_Z (z : Z) : Num.or_else (Num.of_Z z) (Fin 0) = Num.of_Z z.
Proof.
  unfold Num.or_else, Num.of_Z, Num.truthy.
  destruct (Qeq_bool (inject_Z z) 0) eqn:E; [|reflexivity].
  apply Qeq_bool_iff in E. change 0%Q with (inject_Z 0) in E.
  rewrite inject_Z_injective in E. subst z. reflexivity.
Qed.

Lemma cell_char_no_comma (s : string) :
  all_chars cell_char s = true ->
  all_chars (fun c => negb (Ascii.eqb c ","%char)) s = true.
Proof.
  apply all_chars_weaken. intros c Hc. unfold cell_char in Hc.
  apply andb_true_iff in Hc. destruct Hc as [Hc _].
  apply andb_true_iff in Hc. apply Hc.
Qed.

Lemma cell_char_line (s : string) :
  all_chars cell_char s = true -> all_chars line_char s = true.
Proof.
  apply all_chars_weaken. intros c Hc. unfold cell_char in Hc.
  apply andb_true_iff in Hc. destruct Hc as [Hc Hcr].
  apply andb_true_iff in Hc. destruct Hc as [_ Hlf].
  unfold line_char. rewrite Hlf, Hcr. reflexivity.
Qed.

(** The five cells of a line, joined and split again. *)
Lemma split_joined_cells (c1 c2 c3 c4 c5 : string) :
  Forall (fun c => all_chars cell_char c = true) [c1; c2; c3; c4; c5] ->
  Str.split ","%char (Str.join "," [c1; c2; c3; c4; c5])
    = [c1; c2; c3; c4; c5]
  /\ all_chars line_char (Str.join "," [c1; c2; c3; c4; c5]) = true
  /\ Str.nonempty (Str.join "," [c1; c2; c3; c4; c5]) = true.
Proof.
  intros Hall.
  inversion Hall as [|? ? H1 Hall1]; subst.
  inversion Hall1 as [|? ? H2 Hall2]; subst.
  inversion Hall2 as [|? ? H3 Hall3]; subst.
  inversion Hall3 as [|? ? H4 Hall4]; subst.
  inversion Hall4 as [|? ? H5 _]; subst.
  cbn [Str.join append].
  split; [|split].
  - rewrite !split_cell_then by (apply cell_char_no_comma; assumption).
    rewrite split_last_cell by (apply cell_char_no_comma; assumption).
    reflexivity.
  - repeat (rewrite all_chars_append; cbn [all_chars line_char Ascii.eqb
                                           Bool.eqb negb andb Str.LF Str.CR]).
    rewrite !cell_char_line by assumption. reflexivity.
  - destruct c1; reflexivity.
Qed.

Lemma plain_text_parts (s : string) :
  plain_text s = true ->
  Str.nonempty s = true /\ all_chars plain_char s = true.
Proof. unfold plain_text. intros H. apply andb_true_iff in H. exact H. Qed.

(** The cells that [downloadCSV] writes for a plain record, and what the
    importer reads in each. *)
Lemma exported_cells `{Host} (e : expense) :
  plain_record e ->
  exists c1 c2 c3 c4 c5 t1 t2 t4 t5 z,
    csv_row e = Str.join "," [c1; c2; c3; c4; c5]
    /\ Forall (fun c => all_chars cell_char c = true) [c1; c2; c3; c4; c5]
    /\ map Str.strip_quotes [c1; c2; c3; c4; c5]
       = [t1; t2; Str.of_Z z; t4; t5]
    /\ csv_back e = {| id := JStr t1; reason := JStr t2;
                       amount := Num.of_Z z;
                       date := JStr t4; category := JStr t5 |}
    /\ Forall (fun t => Str.nonempty t = true) [t1; t2; t4; t5].
Proof.
  destruct e as [i0 r a d c]. intros [Hid [Hr [Ha [Hd Hc]]]].
  cbn [id reason amount date category] in *.
  destruct r as [| | | |rs| |]; try contradiction.
  destruct d as [| | | |ds| |]; try contradiction.
  destruct c as [| | | |cs| |]; try contradiction.
  destruct Ha as [z [-> Hz]].
  cbn [plain_field] in Hr, Hd, Hc.
  destruct (plain_text_parts rs Hr) as [Hr1 Hr2].
  destruct (plain_text_parts ds Hd) as [Hd1 Hd2].
  destruct (plain_text_parts cs Hc) as [Hc1 Hc2].
  destruct (quoted_cell rs Hr2) as [Qr Sr].
  destruct (quoted_cell ds Hd2) as [Qd Sd].
  destruct (quoted_cell cs Hc2) as [Qc Sc].
  destruct (of_Z_cell z) as [Zc [Zu Zn]].
  assert (Hamount : JSON_compact (JNum (Num.of_Z z)) = Str.of_Z z).
  { cbn [JSON_compact Num.of_Z Num.finiteb].
    apply (Number_toString_of_Z z Hz). }
  destruct i0 as [| | |n|s| |]; try contradiction.
  - destruct Hid as [k [-> Hk]].
    destruct (of_Z_cell k) as [Kc [Ku Kn]].
    assert (Hidc : JSON_compact (JNum (Num.of_Z k)) = Str.of_Z k).
    { cbn [JSON_compact Num.of_Z Num.finiteb].
      apply (Number_toString_of_Z k Hk). }
    exists (Str.of_Z k), (JSONText.quote_string rs), (Str.of_Z z),
           (JSONText.quote_string ds), (JSONText.quote_string cs),
           (Str.of_Z k), rs, ds, cs, z.
    split; [|split; [|split; [|split]]].
    + unfold csv_row, headers, record_get, expense_object.
      cbn [map get_field Obj.get String.eqb Ascii.eqb Bool.eqb
           id reason amount date category nullish_or].
      rewrite Hidc, Hamount. reflexivity.
    + repeat constructor; assumption.
    + cbn [map]. rewrite Qr, Qd, Qc, !strip_quotes_quoted.
      rewrite !strip_quotes_unquoted by assumption. reflexivity.
    + unfold csv_back. cbn [id reason amount date category].
      rewrite (Number_toString_of_Z k Hk). reflexivity.
    + repeat constructor; assumption.
  - cbn [plain_id] in Hid.
    destruct (plain_text_parts s Hid) as [Hs1 Hs2].
    destruct (quoted_cell s Hs2) as [Qs Ss].
    exists (JSONText.quote_string s), (JSONText.quote_string rs),
           (Str.of_Z z),
           (JSONText.quote_string ds), (JSONText.quote_string cs),
           s, rs, ds, cs, z.
    split; [|split; [|split; [|split]]].
    + unfold csv_row, headers, record_get, expense_object.
      cbn [map get_field Obj.get String.eqb Ascii.eqb Bool.eqb
           id reason amount date category nullish_or].
      rewrite Hamount. reflexivity.
    + repeat constructor; assumption.
    + cbn [map]. rewrite Qs, Qr, Qd, Qc, !strip_quotes_quoted.
      rewrite strip_quotes_unquoted by assumption. reflexivity.
    + reflexivity.
    + repeat constructor; assumption.
Qed.

(** Building a record from an exported line gives the record back. *)
Lemma clean_exported_row `{Host} (env : import_env) (i : nat) (e : expense) :
  plain_record e ->
  clean env i
    (JObj (row_object headers
             (map Str.strip_quotes (Str.split ","%char (csv_row e)))))
  = Some (csv_back e)
  /\ all_chars line_char (csv_row e) = true
  /\ Str.nonempty (csv_row e) = true.
Proof.
  intros He.
  destruct (exported_cells e He)
    as [c1 [c2 [c3 [c4 [c5 [t1 [t2 [t4 [t5 [z [Hrow [Hcells [Hstrip [Hback Hne]]]]]]]]]]]]]].
  destruct (split_joined_cells c1 c2 c3 c4 c5 Hcells) as [Hsplit [Hline Hnon]].
  rewrite Hrow, Hsplit, Hstrip, Hback.
  split; [|split; assumption].
  inversion Hne as [|? ? N1 Hne1]; subst.
  inversion Hne1 as [|? ? N2 Hne2]; subst.
  inversion Hne2 as [|? ? N4 Hne4]; subst.
  inversion Hne4 as [|? ? N5 _]; subst.
  unfold clean, row_object, headers.
  cbn [length seq combine fold_left fst snd nth_error Obj.set Obj.empty
       String.eqb Ascii.eqb Bool.eqb get_field Obj.get].
  unfold Number_. cbn [convertible ToNumber].
  rewrite StringToNumber_of_Z, or_else_of_Z.
  unfold js_or. cbn [truthy]. rewrite N1, N2, N4, N5. reflexivity.
Qed.

Lemma csv_name_is_not_json (a : string) :
  Str.endsWith (a ++ ".csv") ".json" = false.
Proof.
  unfold Str.endsWith. rewrite rev_append.
  change (Str.rev ".csv") with "vsc.". change (Str.rev ".json") with "nosj.".
  reflexivity.
Qed.

Lemma exported_rows_cleaned `{Host} (env : import_env) (rs : list expense) :
  Forall plain_record rs ->
  forall i : nat,
    sequence
      (mapi_from (clean env) i
         (map (fun l =>
                 JObj (row_object headers
                         (map Str.strip_quotes (Str.split ","%char l))))
              (map csv_row rs)))
    = Some (map csv_back rs).
Proof.
  induction 1 as [|e rs He Hrs IH]; intros i; [reflexivity|].
  cbn [map mapi_from sequence].
  rewrite (proj1 (clean_exported_row env i e He)), IH. reflexivity.
Qed.

(** X20: a CSV file written by [downloadCSV] and read back by
    [handleFileImport] appends the exported records themselves, in order,
    when their reason, date and category are non-empty texts without
    commas, double quotes, backslashes or control characters, their amount
    is an integer and their id is such a text or an integer; the one change
    is that a numeric id comes back as the text of its digits. *)
Theorem csv_export_import_round_trip `{Host} (env : import_env)
    (today : string) (rs : list expense) (f : file) (st : app) :
  rs <> [] ->
  Forall plain_record rs ->
  String.eqb (file_type f) "application/json" = false ->
  downloadCSV today rs = File (file_name f) (file_text f) ->
  handleFileImport env f st
  = {| expenses := expenses st ++ map csv_back rs;
       alerts := alerts st ++ ["CSV imported (basic parser)"] |}.
Proof.
  intros Hne Hplain Htype Hfile.
  destruct rs as [|e rs']; [contradiction|].
  unfold downloadCSV in Hfile.
  set (txt := Str.join (String Str.LF EmptyString) _) in Hfile.
  set (nm := ("expenses_" ++ today ++ ".csv")%string) in Hfile.
  injection Hfile as Hname Htext.
  assert (Hrows : Forall (fun l => all_chars line_char l = true
                                   /\ Str.nonempty l = true)
                         (map csv_row (e :: rs'))).
  { apply Forall_map. apply Forall_forall. intros r Hr.
    pose proof (proj1 (Forall_forall _ _) Hplain r Hr) as Hp.
    exact (proj2 (clean_exported_row env 0 r Hp)). }
  assert (Hlines : csv_lines (file_text f)
                   = Str.join "," headers :: map csv_row (e :: rs')).
  { rewrite <- Htext. unfold txt, csv_lines. rewrite split_lines_join.
    - apply filter_all. intros l [<- | Hl]; [reflexivity|].
      exact (proj2 (proj1 (Forall_forall _ _) Hrows l Hl)).
    - discriminate.
    - constructor; [reflexivity|].
      apply Forall_forall. intros l Hl.
      exact (proj1 (proj1 (Forall_forall _ _) Hrows l Hl)). }
  unfold handleFileImport.
  rewrite Htype, <- Hname.
  replace (Str.endsWith nm ".json") with false
    by (symmetry; unfold nm; rewrite <- append_assoc;
        apply csv_name_is_not_json).
  cbn [orb]. rewrite Hlines. cbn [map].
  unfold cleaned, csv_rows.
  replace (map (fun h => Str.strip_quotes (Str.trim h))
               (Str.split ","%char (Str.join "," headers)))
    with headers by (vm_compute; reflexivity).
  change (csv_row e :: map csv_row rs') with (map csv_row (e :: rs')).
  rewrite (exported_rows_cleaned env (e :: rs') Hplain 0). reflexivity.
Qed.

Lemma csv_export_import_round_trip_witness :
  scenario_store <> []
  /\ Forall plain_record scenario_store
  /\ @downloadCSV Sample.host "2024-06-01" scenario_store
     = File (file_name scenario_csv) (file_text scenario_csv)
  /\ @handleFileImport Sample.host sample_env scenario_csv empty_app
     = {| expenses :=
            [ {| id := JStr "1"; reason := JStr "Coffee"; amount := Fin 5;
                 date := JStr "2024-01-05";
                 category := JStr "Food & Drink" |};
              {| id := JStr "2"; reason := JStr "Bus"; amount := Fin 2;
                 date := JStr "2024-01-20";
                 category := JStr "Transportation" |} ];
          alerts := ["CSV imported (basic parser)"] |}.
Proof.
  assert (Hne : scenario_store <> []) by discriminate.
  assert (Hplain : Forall plain_record scenario_store).
  { repeat constructor;
      try (exists 1; split; reflexivity);
      try (exists 2; split; reflexivity);
      try (exists 5; split; reflexivity). }
  assert (Hfile : @downloadCSV Sample.host "2024-06-01" scenario_store
                  = File (file_name scenario_csv) (file_text scenario_csv))
    by (vm_compute; reflexivity).
  split; [exact Hne|]. split; [exact Hplain|]. split; [exact Hfile|].
  rewrite (@csv_export_import_round_trip Sample.host sample_env "2024-06-01"
             scenario_store scenario_csv empty_app Hne Hplain eq_refl Hfile).
  vm_compute. reflexivity.
Defined.

(* ------------------------------------------------------------------ *)
(** ** Exported lines stay lines *)

Lemma quote_body_cons_line (c : ascii) (r : string) :
  all_chars line_char (JSONText.quote_body r) = true ->
  all_chars line_char (JSONText.quote_body (String c r)) = true.
Proof.
  intros Hr.
  destruct c as [[] [] [] [] [] [] [] []];
    cbn [JSONText.quote_body JSONText.escape2 N_of_ascii N_of_digits
         Ascii.eqb Bool.eqb Str.quote JSONText.backslash orb andb
         N.eqb N.ltb N.compare Pos.eqb Pos.compare Pos.compare_cont
         N.add N.mul Pos.add Pos.mul Pos.succ
         all_chars line_char Str.LF Str.CR negb];
    try exact Hr; try (rewrite Hr; reflexivity).
Qed.

Lemma quote_string_line (s : string) :
  all_chars line_char (JSONText.quote_string s) = true.
Proof.
  assert (Hbody : all_chars line_char (JSONText.quote_body s) = true).
  { induction s as [|c s IH]; [reflexivity|].
    apply quote_body_cons_line. exact IH. }
  unfold JSONText.quote_string. cbn [all_chars].
  rewrite all_chars_append, Hbody. reflexivity.
Qed.

Lemma join_cells_line (cells : list string) :
  Forall (fun c => all_chars line_char c = true) cells ->
  all_chars line_char (Str.join "," cells) = true.
Proof.
  induction 1 as [|c cells Hc Hcells IH]; [reflexivity|].
  destruct cells as [|c' cells']; [exact Hc|].
  change (Str.join "," (c :: c' :: cells'))
    with (c ++ String ","%char (Str.join "," (c' :: cells')))%string.
  rewrite all_chars_append, Hc. cbn [all_chars]. rewrite IH. reflexivity.
Qed.

Lemma plain_integer_text `{Host} (n : number) :
  plain_integer n ->
  all_chars line_char (JSON_compact (JNum n)) = true.
Proof.
  intros [z [-> Hz]]. cbn [JSON_compact Num.of_Z Num.finiteb].
  rewrite (Number_toString_of_Z z Hz).
  apply cell_char_line. apply of_Z_cell.
Qed.

(** Every line that [downloadCSV] writes for a text record is one
    non-empty line. *)
Lemma csv_row_is_a_line `{Host} (e : expense) :
  text_record e ->
  all_chars line_char (csv_row e) = true /\ Str.nonempty (csv_row e) = true.
Proof.
  destruct e as [i r a d c]. intros [Hid [[rs Hr] [Ha [[ds Hd] [cs Hc]]]]].
  cbn [id reason amount date category] in *. subst r d c.
  unfold csv_row, headers, record_get, expense_object.
  cbn [map get_field Obj.get String.eqb Ascii.eqb Bool.eqb
       id reason amount date category].
  change (nullish_or (JStr rs) (JStr "")) with (JStr rs).
  change (nullish_or (JStr ds) (JStr "")) with (JStr ds).
  change (nullish_or (JStr cs) (JStr "")) with (JStr cs).
  change (nullish_or (JNum a) (JStr "")) with (JNum a).
  assert (Hi : all_chars line_char
                 (JSON_compact (nullish_or i (JStr ""))) = true).
  { destruct i; try contradiction.
    - apply (plain_integer_text n Hid).
    - apply quote_string_line. }
  assert (Hamount : all_chars line_char (JSON_compact (JNum a)) = true).
  { destruct Ha as [Hint | Hinf]; [apply (plain_integer_text a Hint)|].
    destruct a; try reflexivity. exfalso. apply Hinf. exact I. }
  split.
  - apply join_cells_line.
    repeat constructor; try assumption; apply quote_string_line.
  - cbn [Str.join]. generalize (JSON_compact (nullish_or i (JStr ""))).
    intros [|c0 s0]; reflexivity.
Qed.

(** X21: an empty store is not exported to CSV.  Otherwise, for records
    whose reason, date and category are strings of any content (commas,
    double quotes and line breaks included), whose id is a string or an
    integer and whose amount is an integer or not finite, every record is
    written on one line of its own, so that importing the file back appends
    exactly as many records as were exported. *)
Theorem csv_export_keeps_one_line_per_record `{Host} (env : import_env)
    (today : string) (rs : list expense) (f : file) (st : app) :
  downloadCSV today [] = Notice "No records to export."
  /\ (rs <> [] ->
      Forall text_record rs ->
      String.eqb (file_type f) "application/json" = false ->
      downloadCSV today rs = File (file_name f) (file_text f) ->
      csv_lines (file_text f) = Str.join "," headers :: map csv_row rs
      /\ exists recs,
           handleFileImport env f st
           = {| expenses := expenses st ++ recs;
                alerts := alerts st ++ ["CSV imported (basic parser)"] |}
           /\ length recs = length rs).
Proof.
  split; [reflexivity|].
  intros Hne Htext Htype Hfile.
  destruct rs as [|e rs']; [contradiction|].
  unfold downloadCSV in Hfile.
  set (txt := Str.join (String Str.LF EmptyString) _) in Hfile.
  set (nm := ("expenses_" ++ today ++ ".csv")%string) in Hfile.
  injection Hfile as Hname Hfiletext.
  assert (Hlines : csv_lines (file_text f)
                   = Str.join "," headers :: map csv_row (e :: rs')).
  { rewrite <- Hfiletext. unfold txt, csv_lines. rewrite split_lines_join.
    - apply filter_all. intros l [<- | Hl]; [reflexivity|].
      apply in_map_iff in Hl. destruct Hl as [r [<- Hr]].
      exact (proj2 (csv_row_is_a_line r
                      (proj1 (Forall_forall _ _) Htext r Hr))).
    - discriminate.
    - constructor; [reflexivity|].
      apply Forall_map. apply Forall_forall. intros r Hr.
      exact (proj1 (csv_row_is_a_line r
                      (proj1 (Forall_forall _ _) Htext r Hr))). }
  split; [exact Hlines|].
  assert (Hcsv : String.eqb (file_type f) "application/json"
                 || Str.endsWith (file_name f) ".json" = false).
  { rewrite Htype, <- Hname. unfold nm. rewrite <- append_assoc.
    rewrite csv_name_is_not_json. reflexivity. }
  destruct (csv_lines_imported env f st (Str.join "," headers) (csv_row e)
              (map csv_row rs') Hcsv Hlines)
    as [recs [Himp Hlen]].
  exists recs. split; [exact Himp|].
  rewrite Hlen, length_map. reflexivity.
Qed.

Lemma csv_export_keeps_one_line_per_record_witness :
  Forall text_record [awkward; refund]
  /\ @downloadCSV Sample.host "2024-06-01" [awkward; refund]
     = File (file_name awkward_csv) (file_text awkward_csv)
  /\ length (csv_lines (file_text awkward_csv)) = 3%nat.
Proof.
  assert (Htext : Forall text_record [awkward; refund]).
  { assert (Hint : forall z, Z.abs z < 10 ^ 21 ->
                                plain_integer (Fin (inject_Z z)))
      by (intros z Hz; exists z; split; [reflexivity | exact Hz]).
    constructor; [|constructor; [|constructor]].
    - split; [apply (Hint 7); reflexivity|].
      split; [eexists; reflexivity|].
      split; [left; apply (Hint 3); reflexivity|].
      split; eexists; reflexivity.
    - split; [apply (Hint 4); reflexivity|].
      split; [eexists; reflexivity|].
      split; [left; apply (Hint (-5)); reflexivity|].
      split; eexists; reflexivity. }
  assert (Hfile : @downloadCSV Sample.host "2024-06-01" [awkward; refund]
                  = File (file_name awkward_csv) (file_text awkward_csv))
    by (vm_compute; reflexivity).
  split; [exact Htext|]. split; [exact Hfile|].
  rewrite (proj1 (proj2 (@csv_export_keeps_one_line_per_record Sample.host
             sample_env "2024-06-01" [awkward; refund] awkward_csv empty_app)
           ltac:(discriminate) Htext eq_refl Hfile)).
  reflexivity.
Defined.
